(** * Expense tracker: the transaction category classifier

    A shallow embedding of [backend/app/category_classifier.py]: the text
    normaliser ([_clean_text], [_combine]), the predictor ([predict],
    [get_top_predictions]) and the trainer ([_train_and_save]).

    Python values are modelled as follows.
    - [str] is a list of Unicode code points ([N]).  The methods and regular
      expressions the classifier applies to strings are written out over
      that representation in [PyStr].
    - [float] and numpy's [float64] are the kernel's binary64 numbers
      ([PrimFloat.float]); products and comparisons are the IEEE ones.
    - exceptions are values of [exn]; a call that may raise returns
      [result]. *)

From Stdlib Require Import List NArith ZArith Bool Lia String Ascii Floats Permutation.
Import ListNotations.

Set Implicit Arguments.

(* ================================================================== *)
(** ** Python strings *)

Module PyStr.

Local Open Scope N_scope.

Definition codepoint := N.
Definition str := list codepoint.

(** A string literal of the source, read as code points. *)
Fixpoint lit (s : string) : str :=
  match s with
  | EmptyString => []
  | String a r => N_of_ascii a :: lit r
  end.

Definition SPACE : codepoint := 32.

(** The non-ASCII part of [str.lower]: the Unicode lower-case expansion of
    one code point, given the text before and after it (the mapping of
    capital sigma depends on its context).  The table belongs to the Python
    runtime; nothing is assumed about it. *)
Class UnicodeData := {
  lower_full : str -> codepoint -> str -> str
}.

(** [Py_UNICODE_ISSPACE]: the code points that [str.strip], [str.split] and
    the regular-expression class [\s] treat as whitespace. *)
Definition is_space (c : codepoint) : bool :=
  ((9 <=? c) && (c <=? 13)) || ((28 <=? c) && (c <=? 32))
  || (c =? 133) || (c =? 160) || (c =? 5760)
  || ((8192 <=? c) && (c <=? 8202))
  || (c =? 8232) || (c =? 8233) || (c =? 8239) || (c =? 8287)
  || (c =? 12288).

(** The class [[a-z0-9]]. *)
Definition is_lower_alnum (c : codepoint) : bool :=
  ((97 <=? c) && (c <=? 122)) || ((48 <=? c) && (c <=? 57)).

Definition ascii_lower (c : codepoint) : codepoint :=
  if (65 <=? c) && (c <=? 90) then c + 32 else c.

Section Lower.
Context {U : UnicodeData}.

Definition lower_at (before : str) (c : codepoint) (after : str) : str :=
  if c <? 128 then [ascii_lower c] else lower_full before c after.

(** [before_rev] holds the code points already consumed, last one first. *)
Fixpoint lower_from (before_rev : str) (s : str) : str :=
  match s with
  | [] => []
  | c :: rest => lower_at (rev before_rev) c rest ++ lower_from (c :: before_rev) rest
  end.

(** [text.lower()] *)
Definition lower (s : str) : str := lower_from [] s.

End Lower.

(** [re.sub(r"[^a-z0-9\s]", " ", text)]: every code point outside the class
    is a match of its own and becomes one space. *)
Definition sub_non_alnum (s : str) : str :=
  map (fun c => if is_lower_alnum c || is_space c then c else SPACE) s.

(** [re.sub(r"\s+", " ", text)]: every maximal run of whitespace becomes one
    space.  [in_run] tells that the previous code point was whitespace, so
    the run's space has been produced already. *)
Fixpoint collapse_ws (in_run : bool) (s : str) : str :=
  match s with
  | [] => []
  | c :: rest =>
      if is_space c
      then (if in_run then collapse_ws true rest else SPACE :: collapse_ws true rest)
      else c :: collapse_ws false rest
  end.

Definition sub_ws (s : str) : str := collapse_ws false s.

(** [text.lstrip()], [text.rstrip()], [text.strip()] *)
Fixpoint lstrip (s : str) : str :=
  match s with
  | [] => []
  | c :: rest => if is_space c then lstrip rest else s
  end.

Fixpoint rstrip (s : str) : str :=
  match s with
  | [] => []
  | c :: rest =>
      match rstrip rest with
      | [] => if is_space c then [] else [c]
      | kept => c :: kept
      end
  end.

Definition strip (s : str) : str := rstrip (lstrip s).

(** [text.split()]: the maximal runs of non-whitespace, in order.  [cur] is
    the token being read. *)
Fixpoint split_from (cur : str) (s : str) : list str :=
  match s with
  | [] => match cur with [] => [] | _ => [cur] end
  | c :: rest =>
      if is_space c
      then match cur with
           | [] => split_from [] rest
           | _ => cur :: split_from [] rest
           end
      else split_from (cur ++ [c]) rest
  end.

Definition split (s : str) : list str := split_from [] s.

(** [" ".join(parts)] *)
Fixpoint join_space (parts : list str) : str :=
  match parts with
  | [] => []
  | [p] => p
  | p :: more => p ++ SPACE :: join_space more
  end.

(** Truth value of a string: [not text] holds for the empty string only. *)
Definition is_empty (s : str) : bool :=
  match s with [] => true | _ => false end.

End PyStr.

Import PyStr.

(* ================================================================== *)
(** ** The classifier's text normaliser *)

Section Normaliser.
Context {U : UnicodeData}.

(** [CategoryClassifier._clean_text] *)
Definition _clean_text (text : str) : str :=
  if is_empty text then []
  else
    let text := lower text in
    let text := sub_non_alnum text in
    let text := strip (sub_ws text) in
    text.

(** [CategoryClassifier._combine]: the f-string ["{d} {d} {m}"], stripped. *)
Definition _combine (description merchant : str) : str :=
  let d := _clean_text description in
  let m := _clean_text merchant in
  strip (d ++ SPACE :: d ++ SPACE :: m).

End Normaliser.

(* ================================================================== *)
(** ** Shape of normalised text *)

(** A code point allowed in normalised text: [[a-z0-9]] or the space. *)
Definition clean_char (c : codepoint) : Prop :=
  is_lower_alnum c = true \/ c = SPACE.

(** No two neighbouring spaces. *)
Fixpoint single_spaced (s : str) : Prop :=
  match s with
  | a :: (b :: _) as rest => ~ (a = SPACE /\ b = SPACE) /\ single_spaced rest
  | _ => True
  end.

Definition no_leading_space (s : str) : Prop :=
  forall c rest, s = c :: rest -> is_space c = false.

Definition no_trailing_space (s : str) : Prop :=
  forall front c, s = front ++ [c] -> is_space c = false.

(** The normal form: what the claims say of [_clean_text]'s output. *)
Record normalised (s : str) : Prop := {
  norm_chars : Forall clean_char s;
  norm_single : single_spaced s;
  norm_lead : no_leading_space s;
  norm_trail : no_trailing_space s
}.

(** [string.punctuation]: the ASCII punctuation marks. *)
Definition is_punctuation (c : codepoint) : bool :=
  (((33 <=? c) && (c <=? 47)) || ((58 <=? c) && (c <=? 64))
   || ((91 <=? c) && (c <=? 96)) || ((123 <=? c) && (c <=? 126)))%N.

(* ================================================================== *)
(** ** Exceptions, results and the classifier's state *)

Inductive exn : Type :=
| RuntimeError (msg : string)
| ValueError (msg : string)
| IndexError (msg : string)
| AttributeError (msg : string)
| OSError (msg : string).

Inductive result (A : Type) : Type :=
| Return (a : A)
| Raise (e : exn).

Arguments Return {A} a.
Arguments Raise {A} e.

(** A fitted [sklearn] pipeline, as far as the classifier looks at it:
    [predict_proba([text])[0]], the probabilities of one text, and
    [classes_], the labels in the order of those probabilities. *)
Record Pipeline : Type := {
  predict_proba : str -> list float;
  classes_ : list str
}.

(** What [joblib.dump] writes: the pipeline and its two scores. *)
Record Artifact : Type := {
  art_pipeline : Pipeline;
  art_accuracy : float;
  art_cv_score : float
}.

(** The file at [MODEL_PATH]: none; a dictionary as [_train_and_save]
    writes it; a file that cannot be loaded or whose object has nothing
    under ["pipeline"]; or a dictionary with a pipeline under ["pipeline"]
    whose ["accuracy"] is missing or is not a number. *)
Inductive file : Type :=
| Absent
| Stored (a : Artifact)
| Damaged
| Unscored (p : Pipeline).

(** The classifier object and what it touches: [self.pipeline], the model
    file, and the texts handed to the model so far (oldest first). *)
Record state : Type := {
  pipeline : option Pipeline;
  model_file : file;
  proba_calls : list str
}.

Definition set_pipeline (p : option Pipeline) (st : state) : state :=
  {| pipeline := p; model_file := model_file st; proba_calls := proba_calls st |}.

Definition set_model_file (f : file) (st : state) : state :=
  {| pipeline := pipeline st; model_file := f; proba_calls := proba_calls st |}.

Definition log_proba_call (text : str) (st : state) : state :=
  {| pipeline := pipeline st; model_file := model_file st;
     proba_calls := proba_calls st ++ [text] |}.

(** Python code that reads and writes the state and may raise. *)
Definition Py (A : Type) : Type := state -> result A * state.

Definition ret {A} (a : A) : Py A := fun st => (Return a, st).

Definition raise {A} (e : exn) : Py A := fun st => (Raise e, st).

Definition bind {A B} (c : Py A) (k : A -> Py B) : Py B :=
  fun st =>
    match c st with
    | (Return a, st') => k a st'
    | (Raise e, st') => (Raise e, st')
    end.

Definition lift {A} (r : result A) : Py A := fun st => (r, st).

Notation "x <- c ;; k" := (bind c (fun x => k))
  (at level 61, c at next level, right associativity).
Notation "c ;;; k" := (bind c (fun _ => k))
  (at level 61, right associativity).

Definition get_pipeline : Py (option Pipeline) := fun st => (Return (pipeline st), st).

(** [pipeline.predict_proba([text])[0]]; the call is recorded. *)
Definition call_predict_proba (p : Pipeline) (text : str) : Py (list float) :=
  fun st => (Return (predict_proba p text), log_proba_call text st).

Fixpoint mapM {A B} (f : A -> Py B) (l : list A) : Py (list B) :=
  match l with
  | [] => ret []
  | a :: rest => b <- f a ;; bs <- mapM f rest ;; ret (b :: bs)
  end.

(** [seq[i]] for an index that is not negative. *)
Definition getitem {A} (l : list A) (i : nat) : result A :=
  match nth_error l i with
  | Some a => Return a
  | None => Raise (IndexError "index out of bounds")
  end.

(** [seq[start:]] with Python's reading of a negative or too large start. *)
Definition slice_from {A} (start : Z) (l : list A) : list A :=
  let n := Z.of_nat (List.length l) in
  let start := if (start <? 0)%Z then Z.max 0 (n + start) else Z.min start n in
  skipn (Z.to_nat start) l.

(* ================================================================== *)
(** ** The numpy functions the predictor calls *)

Module Numpy.

Local Open Scope float_scope.

(** [np.argmax] over [float64]: the first NaN if there is one, else the
    first position of the largest value.  [best] is never NaN. *)
Fixpoint argmax_from (best : float) (best_i i : nat) (xs : list float) : nat :=
  match xs with
  | [] => best_i
  | x :: rest =>
      if x <=? best then argmax_from best best_i (S i) rest
      else if is_nan x then i
      else argmax_from x i (S i) rest
  end.

Definition argmax (xs : list float) : result nat :=
  match xs with
  | [] => Raise (ValueError "attempt to get argmax of an empty sequence")
  | x :: rest => Return (if is_nan x then 0%nat else argmax_from x 0 1 rest)
  end.

(** [np.maximum]: the first operand unless the second is larger or NaN. *)
Definition maximum (a b : float) : float :=
  if (b <=? a) || is_nan a then a else b.

(** [np.max], the reduction of [np.maximum]. *)
Definition max (xs : list float) : result float :=
  match xs with
  | [] => Raise (ValueError "zero-size array to reduction operation maximum which has no identity")
  | x :: rest => Return (fold_left maximum rest x)
  end.

(** numpy's order for sorting floats: NaN sorts after every number. *)
Definition sort_lt (a b : float) : bool :=
  (a <? b) || (is_nan b && negb (is_nan a)).

Fixpoint insert_sorted (x : nat * float) (l : list (nat * float)) : list (nat * float) :=
  match l with
  | [] => [x]
  | y :: rest =>
      if sort_lt (snd y) (snd x) then y :: insert_sorted x rest else x :: l
  end.

Fixpoint enumerate_from {A} (i : nat) (xs : list A) : list (nat * A) :=
  match xs with
  | [] => []
  | x :: rest => (i, x) :: enumerate_from (S i) rest
  end.

(** [np.argsort]: the positions of the values in ascending order.  numpy
    leaves the order of equal values open (its default sort is not stable
    on long arrays); this is the stable choice, by insertion. *)
Definition argsort (xs : list float) : list nat :=
  map fst (fold_right insert_sorted [] (enumerate_from 0 xs)).

End Numpy.

(* ================================================================== *)
(** ** The predictor *)

Set Warnings "-inexact-float".

Definition CONFIDENCE_THRESHOLD : float := 0.40%float.
Definition MIN_SAMPLES_PER_CLASS : nat := 3.
Definition N_TRAINING_ITERATIONS : nat := 5.

(** The catch-all label. *)
Definition OTHER : str := lit "Other".

Section Predictor.
Context {U : UnicodeData}.

(** The penalty on short inputs in [predict]. *)
Definition discount (word_count : nat) (confidence : float) : float :=
  if (word_count <=? 1)%nat then (confidence * 0.7)%float
  else if (word_count =? 2)%nat then (confidence * 0.85)%float
  else confidence.

(** [CategoryClassifier.predict] *)
Definition predict (description merchant : str) : Py (str * float) :=
  self_pipeline <- get_pipeline ;;
  match self_pipeline with
  | None => raise (RuntimeError "Model not loaded")
  | Some model =>
      let text := _combine description merchant in
      if is_empty text then ret (OTHER, 0.0%float)
      else
        proba <- call_predict_proba model text ;;
        i <- lift (Numpy.argmax proba) ;;
        pred <- lift (getitem (classes_ model) i) ;;
        confidence <- lift (Numpy.max proba) ;;
        let word_count := List.length (split text) in
        let confidence := discount word_count confidence in
        if (confidence <? CONFIDENCE_THRESHOLD)%float
        then ret (OTHER, confidence)
        else ret (pred, confidence)
  end.

(** [CategoryClassifier.predict_simple] *)
Definition predict_simple (description merchant : str) : Py str :=
  r <- predict description merchant ;; ret (fst r).

(** [CategoryClassifier.get_top_predictions] *)
Definition get_top_predictions (description merchant : str) (top_n : Z)
  : Py (list (str * float)) :=
  self_pipeline <- get_pipeline ;;
  match self_pipeline with
  | None => raise (RuntimeError "Model not loaded")
  | Some model =>
      let text := _combine description merchant in
      if is_empty text then ret [(OTHER, 0.0%float)]
      else
        proba <- call_predict_proba model text ;;
        let classes := classes_ model in
        let top_indices := rev (slice_from (- top_n) (Numpy.argsort proba)) in
        mapM (fun i =>
                c <- lift (getitem classes i) ;;
                q <- lift (getitem proba i) ;;
                ret (c, q))
             top_indices
  end.

End Predictor.

(* ================================================================== *)
(** ** The trainer *)

Fixpoint str_eqb (a b : str) : bool :=
  match a, b with
  | [], [] => true
  | x :: a', y :: b' => (x =? y)%N && str_eqb a' b'
  | _, _ => false
  end.

(** One line of the dataset as [pd.read_csv] delivers it; [None] is a
    missing value (NaN).  The three columns are read as text. *)
Record RawRow : Type := {
  raw_description : option str;
  raw_merchant : option str;
  raw_category : option str
}.

Record DataFrame : Type := {
  columns : list str;
  rows : list RawRow
}.

(** A line after the clean-up: the feature text and the category. *)
Record Example : Type := {
  text : str;
  category : str
}.

(** pandas, scikit-learn, joblib and the files, as the trainer calls them.
    - [read_csv]: [pd.read_csv(DATA_PATH)];
    - [train_test_split X y]: the stratified 80/20 split with seed 42,
      giving [(X_train, X_test, y_train, y_test)];
    - [fit seed X y]: a new pipeline (tf-idf, logistic regression with
      [random_state = seed]) fitted on [X], [y];
    - [pipeline_predict], [accuracy_score]: as in scikit-learn;
    - [cross_val_mean seed X y]: [cross_val_score(pipeline, X, y, cv=5).mean()];
    - [joblib_dump a f]: writing [a] over the file [f]: the outcome and the
      file afterwards. *)
Class Environment : Type := {
  read_csv : result DataFrame;
  train_test_split :
    list str -> list str -> result (list str * list str * list str * list str);
  fit : nat -> list str -> list str -> result Pipeline;
  pipeline_predict : Pipeline -> list str -> list str;
  accuracy_score : list str -> list str -> float;
  cross_val_mean : nat -> list str -> list str -> result float;
  joblib_dump : Artifact -> file -> result unit * file
}.

(** The loop's running best: [(best_pipeline, best_accuracy, best_cv_score)]. *)
Definition best_so_far : Type := (option Pipeline * float * float)%type.

Fixpoint foldM {A B} (f : B -> A -> Py B) (l : list A) (b : B) : Py B :=
  match l with
  | [] => ret b
  | a :: rest => b' <- f b a ;; foldM f rest b'
  end.

Section Trainer.
Context {U : UnicodeData} {E : Environment}.

Definition REQUIRED : list str :=
  [lit "description"; lit "merchant"; lit "category"].

(** [required.issubset(df.columns)] *)
Definition has_required_columns (df : DataFrame) : bool :=
  forallb (fun c => existsb (str_eqb c) (columns df)) REQUIRED.

(** [fillna("")] *)
Definition fillna (cell : option str) : str :=
  match cell with Some s => s | None => [] end.

(** [astype(str)]: a missing value reads ["nan"]. *)
Definition astype_str (cell : option str) : str :=
  match cell with Some s => s | None => lit "nan" end.

Definition prepare (r : RawRow) : Example :=
  {| text := _combine (fillna (raw_description r)) (fillna (raw_merchant r));
     category := strip (astype_str (raw_category r)) |}.

(** [df["category"].value_counts()] at one category. *)
Definition value_count (c : str) (data : list Example) : nat :=
  List.length (filter (fun r => str_eqb (category r) c) data).

(** The lines that are left for training: those with feature text, of the
    categories with at least [MIN_SAMPLES_PER_CLASS] such lines. *)
Definition training_rows (df : DataFrame) : list Example :=
  let data := map prepare (rows df) in
  let data := filter (fun r => negb (is_empty (text r))) data in
  filter (fun r => (MIN_SAMPLES_PER_CLASS <=? value_count (category r) data)%nat) data.

(** One turn of the loop over [range(N_TRAINING_ITERATIONS)]. *)
Definition train_iteration (X_train X_test y_train y_test : list str)
    (best : best_so_far) (iteration : nat) : Py best_so_far :=
  let '(_, _, best_cv_score) := best in
  candidate <- lift (fit (42 + iteration) X_train y_train) ;;
  let y_pred := pipeline_predict candidate X_test in
  let test_acc := accuracy_score y_test y_pred in
  cv_mean <- lift (cross_val_mean (42 + iteration) X_train y_train) ;;
  if (best_cv_score <? cv_mean)%float
  then ret (Some candidate, test_acc, cv_mean)
  else ret best.

(** [joblib.dump(artifact, MODEL_PATH)] *)
Definition call_joblib_dump (a : Artifact) : Py unit :=
  fun st =>
    let (outcome, written) := joblib_dump a (model_file st) in
    (outcome, set_model_file written st).

(** [self.pipeline = best_pipeline] *)
Definition assign_pipeline (p : Pipeline) : Py unit :=
  fun st => (Return tt, set_pipeline (Some p) st).

(** [CategoryClassifier._train_and_save].  The [print] calls and the
    classification report only write to the console and are left out. *)
Definition _train_and_save : Py unit :=
  df <- lift read_csv ;;
  if negb (has_required_columns df)
  then raise (ValueError "Dataset must contain description, merchant, category")
  else
    let data := training_rows df in
    let X := map text data in
    let y := map category data in
    parts <- lift (train_test_split X y) ;;
    let '(X_train, X_test, y_train, y_test) := parts in
    best <- foldM (train_iteration X_train X_test y_train y_test)
                  (seq 0 N_TRAINING_ITERATIONS)
                  (None, 0%float, 0%float) ;;
    let '(best_pipeline, best_accuracy, best_cv_score) := best in
    match best_pipeline with
    | None => raise (AttributeError "'NoneType' object has no attribute 'predict'")
    | Some best_pipeline =>
        call_joblib_dump {| art_pipeline := best_pipeline;
                            art_accuracy := best_accuracy;
                            art_cv_score := best_cv_score |} ;;;
        assign_pipeline best_pipeline
    end.

End Trainer.

(* ================================================================== *)
(** ** Vocabulary of the statements *)


(** A table for the examples: code points beyond ASCII have no lower-case
    form of their own. *)
Definition uncased : UnicodeData := {| lower_full := fun _ c _ => [c] |}.

(** A table that knows one cased code point beyond ASCII: the Kelvin sign
    (U+212A), whose lower case is the letter k. *)
Definition kelvin_cased : UnicodeData :=
  {| lower_full := fun _ c _ => if (c =? 8490)%N then [107%N] else [c] |}.

(** The pipeline answers [text] with one probability per class, and has a
    class. *)
Definition answers (p : Pipeline) (text : str) : Prop :=
  predict_proba p text <> [] /\
  List.length (predict_proba p text) = List.length (classes_ p).

Definition no_nan (xs : list float) : Prop :=
  Forall (fun x => is_nan x = false) xs.

(** Probabilities in non-increasing order: each is at most every earlier one. *)
Fixpoint descending (qs : list float) : Prop :=
  match qs with
  | [] => True
  | q :: rest => Forall (fun r => (r <=? q)%float = true) rest /\ descending rest
  end.

(** The distinct categories, each once. *)
Fixpoint distinct (l : list str) : list str :=
  match l with
  | [] => []
  | c :: rest => if existsb (str_eqb c) rest then distinct rest else c :: distinct rest
  end.

(** Values in non-decreasing order: each is at most every later one. *)
Fixpoint ascending (qs : list float) : Prop :=
  match qs with
  | [] => True
  | q :: rest => Forall (fun r => (q <=? r)%float = true) rest /\ ascending rest
  end.

(** [np.argsort] before the positions are projected out: the values with
    their positions, in ascending order. *)
Definition sorted_pairs (xs : list float) : list (nat * float) :=
  fold_right Numpy.insert_sorted [] (Numpy.enumerate_from 0 xs).

(** Text of ASCII code points only. *)
Definition is_ascii (s : str) : bool := forallb (fun c => (c <? 128)%N) s.

(** The number of tokens [text.split()] finds. *)
Definition token_count (s : str) : nat := List.length (split s).

(* ================================================================== *)
(** ** A small model for the examples *)

Module Toy.

Definition FOOD : str := lit "Food".
Definition RENT : str := lit "Rent".
Definition FUN : str := lit "Fun".

(** Three classes; the same, undecided, answer for every text. *)
Definition model : Pipeline :=
  {| predict_proba := fun _ => [0.35; 0.33; 0.32]%float;
     classes_ := [FOOD; RENT; FUN] |}.

(** Two classes. *)
Definition model2 : Pipeline :=
  {| predict_proba := fun _ => [0.25; 0.75]%float;
     classes_ := [FOOD; RENT] |}.

Definition loaded (p : Pipeline) : state :=
  {| pipeline := Some p; model_file := Absent; proba_calls := [] |}.

(** A classifier whose training has not run yet. *)
Definition fresh : state :=
  {| pipeline := None; model_file := Absent; proba_calls := [] |}.

End Toy.

(* ================================================================== *)
(** ** A small training environment for the examples *)

Module ToyEnv.

Definition line (description merchant category : string) : RawRow :=
  {| raw_description := Some (lit description);
     raw_merchant := Some (lit merchant);
     raw_category := Some (lit category) |}.

Definition header : list str :=
  [lit "description"; lit "merchant"; lit "category"].

(** Two categories with three lines each. *)
Definition balanced : DataFrame :=
  {| columns := header;
     rows := [line "bus ticket" "Metro" "Rent";
              line "coffee" "Starbucks" "Food";
              line "rent payment" "Apartment" "Rent";
              line "grocery shopping" "Walmart" "Food";
              line "lunch" "Cafe" "Food";
              line "flat deposit" "Landlord" "Rent"] |}.

(** The spec's example: category A with five lines, B with one. *)
Definition lopsided : DataFrame :=
  {| columns := header;
     rows := [line "bus ticket" "Metro" "A";
              line "coffee" "Starbucks" "A";
              line "rent payment" "Apartment" "A";
              line "grocery shopping" "Walmart" "B";
              line "lunch" "Cafe" "A";
              line "flat deposit" "Landlord" "A"] |}.

(** A split that keeps every line for training, a fit that asks for two
    classes as scikit-learn's logistic regression does and then answers with
    the two-class toy model, and perfect scores. *)
Definition env (data : DataFrame) (dump : Artifact -> file -> result unit * file)
  : Environment :=
  {| read_csv := Return data;
     train_test_split := fun X y => Return (X, [], y, []);
     fit := fun _ _ y =>
       if (List.length (distinct y) <? 2)%nat
       then Raise (ValueError "This solver needs samples of at least 2 classes in the data")
       else Return Toy.model2;
     pipeline_predict := fun _ X => map (fun _ => Toy.FOOD) X;
     accuracy_score := fun _ _ => 1.0%float;
     cross_val_mean := fun _ _ _ => Return 0.9%float;
     joblib_dump := dump |}.

Definition dump_ok (a : Artifact) (f : file) : result unit * file :=
  (Return tt, Stored a).

Definition dump_fails (a : Artifact) (f : file) : result unit * file :=
  (Raise (OSError "No space left on device"), Damaged).

End ToyEnv.

(* ================================================================== *)
(** ** Loading the stored model, and the single instance *)

(** [os.path.exists(MODEL_PATH)] *)
Definition path_exists (f : file) : bool :=
  match f with
  | Absent => false
  | Stored _ | Damaged | Unscored _ => true
  end.

(** [data = joblib.load(MODEL_PATH)] and [data["pipeline"]] on a file that
    exists: the pipeline, with the number under ["accuracy"] if there is
    one, or [None] when one of the two raises.  The handler in
    [_load_or_train] catches every exception and only prints it, so which
    one it was is not kept. *)
Definition joblib_load (f : file) : option (Pipeline * option float) :=
  match f with
  | Stored data => Some (art_pipeline data, Some (art_accuracy data))
  | Unscored loaded => Some (loaded, None)
  | Absent | Damaged => None
  end.

Section Loader.
Context {U : UnicodeData} {E : Environment}.

(** [CategoryClassifier._load_or_train].  [self.pipeline] is assigned
    before the message with [data.get('accuracy', 'N/A')] is formatted, and
    both are inside the [try]: a number formats with [:.3f] and the method
    returns; the default ['N/A'], like any value that is no number, makes
    the format raise, the handler prints the error, and training follows
    with the loaded pipeline already set. *)
Definition _load_or_train : Py unit :=
  fun st =>
    if path_exists (model_file st)
    then match joblib_load (model_file st) with
         | Some (loaded, accuracy) =>
             let st := set_pipeline (Some loaded) st in
             match accuracy with
             | Some _ => (Return tt, st)
             | None => _train_and_save st
             end
         | None => _train_and_save st
         end
    else _train_and_save st.

(** The class attribute [_instance] and the one object it may hold.  While
    [has_instance] is false the object does not exist yet and [self] only
    carries the model file and the record of model calls. *)
Record process : Type := {
  has_instance : bool;
  self : state
}.

(** [CategoryClassifier.__new__]: the call [CategoryClassifier()].  The
    attribute is set before [_load_or_train] runs, so it stays set when
    that raises. *)
Definition __new__ (ps : process) : result unit * process :=
  if has_instance ps then (Return tt, ps)
  else
    let (outcome, st) := _load_or_train (set_pipeline None (self ps)) in
    (outcome, {| has_instance := true; self := st |}).

(** [get_classifier], the FastAPI dependency. *)
Definition get_classifier (ps : process) : result unit * process := __new__ ps.

End Loader.

(** What the training loop knows of its running best after the candidates
    with the seeds [42 .. 42 + n - 1]. *)
Section Selection.
Context {E : Environment}.
Variables X_train X_test y_train y_test : list str.

Definition selected (n : nat) (best : best_so_far) : Prop :=
  let '(choice, acc, cv) := best in
  is_nan cv = false /\
  (0 <=? cv)%float = true /\
  (forall j c, (j < n)%nat ->
     cross_val_mean (42 + j) X_train y_train = Return c ->
     is_nan c = false -> (c <=? cv)%float = true) /\
  match choice with
  | None => cv = 0%float
  | Some p =>
      exists i, (i < n)%nat /\
        fit (42 + i) X_train y_train = Return p /\
        cross_val_mean (42 + i) X_train y_train = Return cv /\
        acc = accuracy_score y_test (pipeline_predict p X_test) /\
        (0 <? cv)%float = true
  end.

End Selection.

Module ToyEnv2.

(** As [ToyEnv.env], with the cross-validation mean and the fitted pipeline
    chosen per seed. *)
Definition env (data : DataFrame) (fitted : nat -> Pipeline)
    (cv : nat -> result float)
    (dump : Artifact -> file -> result unit * file) : Environment :=
  {| read_csv := Return data;
     train_test_split := fun X y => Return (X, [], y, []);
     fit := fun seed _ y =>
       if (List.length (distinct y) <? 2)%nat
       then Raise (ValueError "This solver needs samples of at least 2 classes in the data")
       else Return (fitted seed);
     pipeline_predict := fun _ X => map (fun _ => Toy.FOOD) X;
     accuracy_score := fun _ _ => 1.0%float;
     cross_val_mean := fun seed _ _ => cv seed;
     joblib_dump := dump |}.

(** A data set without the [merchant] column. *)
Definition headless : DataFrame :=
  {| columns := [lit "description"; lit "category"];
     rows := rows ToyEnv.balanced |}.

(** Cross-validation means for the seeds 42 to 46; the largest comes
    twice, first at seed 43. *)
Definition scores (seed : nat) : result float :=
  Return (nth (seed - 42) [0.5; 0.9; 0.7; 0.9; 0.2]%float 0%float).

(** The three-class toy model at seed 43, the two-class one elsewhere. *)
Definition fitted (seed : nat) : Pipeline :=
  if (seed =? 43)%nat then Toy.model else Toy.model2.

(** An artifact of an earlier training run. *)
Definition earlier : Artifact :=
  {| art_pipeline := Toy.model; art_accuracy := 1.0%float; art_cv_score := 0.9%float |}.

(** The process before the first [CategoryClassifier()]. *)
Definition start (f : file) : process :=
  {| has_instance := false;
     self := {| pipeline := None; model_file := f; proba_calls := [] |} |}.

End ToyEnv2.

(* ================================================================== *)
(** * The callers in [backend/app/main.py] *)

(** ** The chatbot *)

Module Chat.

Local Open Scope N_scope.

(** What Python's runtime does with numbers and text: [format(x, ".2f")]
    and the like, and [float(s)], which is [None] when it raises
    [ValueError].  Nothing is assumed about either. *)
Class PyRuntime : Type := {
  format_fixed : nat -> float -> str;
  parse_float : str -> option float
}.

(** The exceptions that can leave the chatbot's helpers. *)
Inductive error : Type :=
| ZeroDivisionError
| UnboundLocalError (name : string)
| FloatValueError (text : str).

Inductive outcome (A : Type) : Type :=
| Done (a : A)
| Failed (e : error).

Arguments Done {A} a.
Arguments Failed {A} e.

Definition NL : str := [10].

(** [chr(10).join(parts)] *)
Fixpoint join_lines (parts : list str) : str :=
  match parts with
  | [] => []
  | [p] => p
  | p :: more => p ++ NL ++ join_lines more
  end.

(** [s.startswith(prefix)], with what follows the prefix. *)
Fixpoint strip_prefix (prefix s : str) : option str :=
  match prefix, s with
  | [], _ => Some s
  | p :: prefix', c :: s' => if p =? c then strip_prefix prefix' s' else None
  | _ :: _, [] => None
  end.

(** [needle in hay] *)
Fixpoint contains (needle hay : str) : bool :=
  match strip_prefix needle hay with
  | Some _ => true
  | None => match hay with
            | [] => false
            | _ :: rest => contains needle rest
            end
  end.

(** [any(word in text for word in words)] *)
Definition any_in (words : list str) (text : str) : bool :=
  existsb (fun w => contains w text) words.

(** The longest run of code points of a class at the start of [s], and the
    rest: what a greedy [[...]+] takes. *)
Fixpoint take_class (cls : codepoint -> bool) (s : str) : str * str :=
  match s with
  | [] => ([], [])
  | c :: rest =>
      if cls c then let (run, rest') := take_class cls rest in (c :: run, rest')
      else ([], s)
  end.

(** The class [[0-9.]]. *)
Definition is_amount_char (c : codepoint) : bool :=
  ((48 <=? c) && (c <=? 57)) || (c =? 46).

(** The class [[A-Za-z/]]. *)
Definition is_name_char (c : codepoint) : bool :=
  ((65 <=? c) && (c <=? 90)) || ((97 <=? c) && (c <=? 122)) || (c =? 47).

(** [re.search(label + r"\$([0-9.]+)", text)]: group 1 of the leftmost
    match, for a literal [label] that ends with the dollar sign. *)
Fixpoint search_amount (label : str) (text : str) : option str :=
  let here :=
    match strip_prefix label text with
    | Some rest => match fst (take_class is_amount_char rest) with
                   | [] => None
                   | amount => Some amount
                   end
    | None => None
    end in
  match here with
  | Some amount => Some amount
  | None => match text with
            | [] => None
            | _ :: rest => search_amount label rest
            end
  end.

(** A match of [r"- ([A-Za-z/]+): \$([0-9.]+)"] that starts at the start of
    [text]: its two groups.  After the longest name the pattern needs a
    colon, which is not in the class, so no shorter name can match. *)
Definition category_here (text : str) : option (str * str) :=
  match strip_prefix (lit "- ") text with
  | None => None
  | Some rest =>
      match take_class is_name_char rest with
      | ([], _) => None
      | (name, rest') =>
          match strip_prefix (lit ": $") rest' with
          | None => None
          | Some rest'' =>
              match fst (take_class is_amount_char rest'') with
              | [] => None
              | amount => Some (name, amount)
              end
          end
      end
  end.

(** [re.findall(r"- ([A-Za-z/]+): \$([0-9.]+)", text)[0]] when the list
    is not empty: the leftmost match. *)
Fixpoint first_category (text : str) : option (str * str) :=
  match category_here text with
  | Some found => Some found
  | None => match text with
            | [] => None
            | _ :: rest => first_category rest
            end
  end.

(** A line of [ExpenseDB], as far as the chatbot prints it. *)
Record Spent : Type := {
  spent_description : option str;
  spent_amount : float;
  spent_category : str
}.

(** What the five queries of [get_user_financial_context] return for the
    user: the two sums ([None] when there is no line), the totals per
    category, the ten latest expenses, the totals per source. *)
Record Finances : Type := {
  sum_income : option float;
  sum_expenses : option float;
  by_category : list (str * float);
  recent_expenses : list Spent;
  by_source : list (str * float)
}.

(** [query.scalar() or 0]: [None] and zero both give the integer 0, which
    behaves as the float 0.0 in what follows except as a divisor. *)
Definition or_zero (x : option float) : float :=
  match x with
  | Some v => if (v =? 0)%float then 0%float else v
  | None => 0%float
  end.

Section Chatbot.
Context {U : UnicodeData} {R : PyRuntime}.

(** [f"- {name}: ${amount:.2f}"] *)
Definition total_line (entry : str * float) : str :=
  lit "- " ++ fst entry ++ lit ": $" ++ format_fixed 2 (snd entry).

(** [f"- {exp.description}: ${exp.amount:.2f} ({exp.category})"] *)
Definition spent_line (e : Spent) : str :=
  lit "- "
  ++ match spent_description e with Some d => d | None => lit "None" end
  ++ lit ": $" ++ format_fixed 2 (spent_amount e)
  ++ lit " (" ++ spent_category e ++ lit ")".

(** [get_user_financial_context].  The savings rate is computed inside the
    f-string whatever the income is: the words [if total_income > 0 else 0]
    are part of the text.  Python's division raises on a zero divisor. *)
Definition get_user_financial_context (db : Finances) : outcome str :=
  let total_income := or_zero (sum_income db) in
  let total_expenses := or_zero (sum_expenses db) in
  let balance := (total_income - total_expenses)%float in
  if (total_income =? 0)%float then Failed ZeroDivisionError
  else
    Done (NL ++ lit "User Financial Summary:" ++ NL
          ++ lit "- Total Income: $" ++ format_fixed 2 total_income ++ NL
          ++ lit "- Total Expenses: $" ++ format_fixed 2 total_expenses ++ NL
          ++ lit "- Balance: $" ++ format_fixed 2 balance ++ NL
          ++ lit "- Savings Rate: "
          ++ format_fixed 1 (balance / total_income * 100)%float
          ++ lit "% if total_income > 0 else 0" ++ NL ++ NL
          ++ lit "Expenses by Category:" ++ NL
          ++ join_lines (map total_line (by_category db)) ++ NL ++ NL
          ++ lit "Income Sources:" ++ NL
          ++ join_lines (map total_line (by_source db)) ++ NL ++ NL
          ++ lit "Recent Expenses (last 10):" ++ NL
          ++ join_lines (map spent_line (firstn 5 (recent_expenses db))) ++ NL).

Definition GREETING : str :=
  lit "Hello! I'm your financial assistant. I can help you understand your spending, income, and provide financial advice. What would you like to know?".

Definition SAVINGS_TIPS : str :=
  join_lines [lit "Here are some savings tips:";
              lit "1. Follow the 50-30-20 rule (50% needs, 30% wants, 20% savings)";
              lit "2. Automate your savings";
              lit "3. Cut unnecessary subscriptions";
              lit "4. Cook at home more often";
              lit "5. Track every expense"].

Definition BUDGET_RULE : str :=
  join_lines [lit "I recommend the 50-30-20 budget rule:";
              lit "- 50% for needs (rent, utilities, groceries)";
              lit "- 30% for wants (entertainment, dining out)";
              lit "- 20% for savings and debt repayment";
              lit "";
              lit "Check your Recommendations page for a personalized budget!"].

Definition REDUCE_TIPS : str :=
  join_lines [lit "To reduce expenses:";
              lit "1. Review subscriptions you don't use";
              lit "2. Meal prep instead of eating out";
              lit "3. Use public transport";
              lit "4. Compare prices before buying";
              lit "5. Wait 24 hours before impulse purchases"].

Definition ADVICE : str :=
  lit "I analyze your spending patterns and provide personalized recommendations! Check the 'Recommendations' page for detailed insights on improving your financial health.".

Definition HELP : str :=
  join_lines [lit "I'm here to help with your finances! You can ask me about:";
              lit "- Your balance and spending";
              lit "- Income sources";
              lit "- Savings tips";
              lit "- Budget recommendations";
              lit "- Expense reduction strategies";
              lit "";
              lit "What would you like to know?"].

(** [generate_ai_response].  The result is the reply, or [None] where the
    function ends without a [return].  [import re] stands inside the second
    and the third branch only, which makes [re] a local name of the
    function: in the fourth branch it has no value. *)
Definition generate_ai_response (user_message context : str) : outcome (option str) :=
  let user_message_lower := lower user_message in
  if any_in [lit "hello"; lit "hi"; lit "hey"] user_message_lower then Done (Some GREETING)
  else if any_in [lit "balance"; lit "how much"; lit "money"] user_message_lower then
    match search_amount (lit "Balance: $") context with
    | Some group =>
        match parse_float group with
        | None => Failed (FloatValueError group)
        | Some balance =>
            Done (Some (lit "Your current balance is $" ++ format_fixed 2 balance
                        ++ lit ". "
                        ++ (if (0 <? balance)%float then lit "Great job saving!"
                            else lit "Consider reducing expenses to improve your balance.")))
        end
    | None => Done None
    end
  else if contains (lit "spend") user_message_lower
          || contains (lit "expenses") user_message_lower then
    match first_category context with
    | Some (top_cat, top_amt) =>
        match parse_float top_amt with
        | None => Failed (FloatValueError top_amt)
        | Some amount =>
            Done (Some (lit "Your highest spending category is " ++ top_cat
                        ++ lit " with $" ++ format_fixed 2 amount
                        ++ lit ". Would you like tips on reducing expenses in this area?"))
        end
    | None => Done None
    end
  else if contains (lit "income") user_message_lower then
    Failed (UnboundLocalError "re")
  else if any_in [lit "save"; lit "saving"; lit "savings"] user_message_lower then
    Done (Some SAVINGS_TIPS)
  else if any_in [lit "budget"; lit "plan"] user_message_lower then Done (Some BUDGET_RULE)
  else if any_in [lit "reduce"; lit "cut"; lit "lower"] user_message_lower then
    Done (Some REDUCE_TIPS)
  else if contains (lit "recommendation") user_message_lower
          || contains (lit "advice") user_message_lower then Done (Some ADVICE)
  else Done (Some HELP).

Definition SORRY : str := lit "Sorry, I encountered an error. Please try again.".

(** The [chat] route, after the user is known: the [response] of the
    [ChatResponse] it returns.  [ChatResponse(response=None)] fails
    validation; that and every other exception end in the handler. *)
Definition chat (message : str) (db : Finances) : str :=
  match get_user_financial_context db with
  | Failed _ => SORRY
  | Done context =>
      match generate_ai_response message context with
      | Done (Some response) => response
      | Done None => SORRY
      | Failed _ => SORRY
      end
  end.

End Chatbot.

(** Text without a minus sign. *)
Definition no_minus (s : str) : bool := forallb (fun c => negb (c =? 45)) s.

(** A runtime for the examples: every number prints as "0.00" and no text
    is read as a number. *)
Definition mute : PyRuntime :=
  {| format_fixed := fun _ _ => lit "0.00"; parse_float := fun _ => None |}.

(** A runtime that prints every number as "12.50" and reads every text
    as 12.5. *)
Definition flat : PyRuntime :=
  {| format_fixed := fun _ _ => lit "12.50"; parse_float := fun _ => Some 12.5%float |}.

(** A user with income, who spent most on rent. *)
Definition tenant : Finances :=
  {| sum_income := Some 2000%float;
     sum_expenses := Some 900%float;
     by_category := [(lit "Rent", 800%float); (lit "Food", 100%float)];
     recent_expenses := [];
     by_source := [(lit "Salary", 2000%float)] |}.

(** A user with two expenses and no income. *)
Definition no_income : Finances :=
  {| sum_income := None;
     sum_expenses := Some 12.5%float;
     by_category := [(lit "Food", 12.5%float)];
     recent_expenses := [];
     by_source := [] |}.

End Chat.

(** ** The expense route, the validators and the password helpers *)

Module Routes.

(** What [add_expense] puts into a text column of [ExpenseDB]: text, or the
    pair that [predict] returns. *)
Inductive column : Type :=
| Text (s : str)
| Pair (label : str) (confidence : float).

(** [ExpenseCreate], the body of the request; dates are time stamps. *)
Record ExpenseCreate : Type := {
  ec_amount : float;
  ec_description : str;
  ec_merchant : option str;
  ec_category : option str;
  ec_date : option N
}.

(** The [ExpenseDB] object that [add_expense] builds. *)
Record ExpenseDB : Type := {
  user_email : str;
  amount : float;
  description : str;
  merchant : option str;
  category : column;
  predicted_category : column;
  date : N
}.

(** [x or ""] for an optional text. *)
Definition or_empty (x : option str) : str :=
  match x with Some s => s | None => [] end.

Section AddExpense.
Context {U : UnicodeData}.

(** [add_expense], up to the object it hands to the database session;
    [now] is [datetime.now(UTC)].  A tuple is never empty, so
    [expense_in.category or predicted] is the category the user gave unless
    that is missing or empty. *)
Definition add_expense (expense_in : ExpenseCreate) (current_user : str) (now : N)
  : Py ExpenseDB :=
  predicted <- predict (ec_description expense_in) (or_empty (ec_merchant expense_in)) ;;
  let predicted := Pair (fst predicted) (snd predicted) in
  ret {| user_email := current_user;
         amount := ec_amount expense_in;
         description := ec_description expense_in;
         merchant := ec_merchant expense_in;
         category := match ec_category expense_in with
                     | Some (c :: rest) => Text (c :: rest)
                     | Some [] | None => predicted
                     end;
         predicted_category := predicted;
         date := match ec_date expense_in with Some d => d | None => now end |}.

End AddExpense.

(** [validate_amount] of [ExpenseCreate] and [IncomeCreate]. *)
Definition validate_amount (v : float) : result float :=
  if (v <=? 0)%float then Raise (ValueError "Amount must be greater than 0")
  else Return v.

(** [validate_amount] of [ExpenseUpdate], where the amount may be absent. *)
Definition validate_amount_update (v : option float) : result (option float) :=
  match v with
  | Some x => if (x <=? 0)%float then Raise (ValueError "Amount must be greater than 0")
              else Return v
  | None => Return v
  end.

(** The number of bytes of one code point in UTF-8; [None] for a surrogate,
    which [str.encode] refuses with [UnicodeEncodeError], a [ValueError]
    (and for numbers that are no code points). *)
Definition utf8_size (c : codepoint) : option nat :=
  if (c <? 128)%N then Some 1%nat
  else if (c <? 2048)%N then Some 2%nat
  else if (c <? 65536)%N
       then (if (55296 <=? c)%N && (c <=? 57343)%N then None else Some 3%nat)
  else if (c <? 1114112)%N then Some 4%nat
  else None.

(** [len(v.encode("utf-8"))] *)
Fixpoint utf8_length (s : str) : option nat :=
  match s with
  | [] => Some 0%nat
  | c :: rest =>
      match utf8_size c, utf8_length rest with
      | Some a, Some b => Some (a + b)%nat
      | _, _ => None
      end
  end.

(** [ResetPassword.validate_new_password] *)
Definition validate_new_password (v : str) : result str :=
  if (List.length v <? 8)%nat
  then Raise (ValueError "New password must be at least 8 characters long")
  else match utf8_length v with
       | None => Raise (ValueError "'utf-8' codec can't encode character: surrogates not allowed")
       | Some bytes =>
           if (72 <? bytes)%nat
           then Raise (ValueError "New password cannot exceed 72 characters")
           else Return v
       end.

(** [pwd_context] of passlib: hashing (for some choice of salts) and
    verification.  Nothing is assumed about either. *)
Class Passlib : Type := {
  pwd_hash : str -> str;
  pwd_verify : str -> str -> bool
}.

Section Passwords.
Context {P : Passlib}.

(** [get_password_hash]: [str(password)[:72]] is hashed. *)
Definition get_password_hash (password : str) : str :=
  pwd_hash (firstn 72 password).

(** [verify_password] *)
Definition verify_password (plain_password hashed_password : str) : bool :=
  pwd_verify (firstn 72 plain_password) hashed_password.

End Passwords.

(** The financial health score of [get_recommendations] and its level, as
    functions of the totals the route has computed before: income,
    expenses, balance, and the spending on housing, food and debt.  A total
    of no lines is the integer 0, here the float 0.0. *)
Definition health_score
    (total_income total_expenses balance housing_cost food_spending debt_spending : float)
  : Z :=
  if (0 <? total_income)%float then
    let savings_rate :=
      if (0 <? balance)%float then (balance / total_income * 100)%float else 0%float in
    let for_savings :=
      if (20 <=? savings_rate)%float then 40%Z
      else if (10 <=? savings_rate)%float then 25%Z
      else if (0 <? savings_rate)%float then 10%Z
      else 0%Z in
    let for_housing :=
      if (housing_cost / total_income <=? 0.3)%float then 30%Z else 0%Z in
    let for_food :=
      if (0 <? total_expenses)%float && (food_spending / total_expenses <=? 0.3)%float
      then 20%Z else 0%Z in
    let for_debt :=
      if (0 <? total_income)%float && (debt_spending / total_income <=? 0.15)%float
      then 10%Z else 0%Z in
    (0 + for_savings + for_housing + for_food + for_debt)%Z
  else 0%Z.

Definition health_level (health_score : Z) : str :=
  if (80 <=? health_score)%Z then lit "Excellent"
  else if (60 <=? health_score)%Z then lit "Good"
  else if (40 <=? health_score)%Z then lit "Fair"
  else lit "Needs Improvement".

(** A hasher for the examples: the text itself. *)
Definition clear_text : Passlib :=
  {| pwd_hash := fun p => p; pwd_verify := fun p h => str_eqb p h |}.

End Routes.

(** ** Accounts: registration, login and password reset *)

Module Auth.

Import Routes.

(** The tables [users] and [reset_tokens].  The database is a value: a
    query reads the lists, a commit replaces them; failures of the
    connection are outside the model. *)
Record UserDB : Type := {
  email : str;
  full_name : str;
  hashed_password : str
}.

Record ResetTokenDB : Type := {
  token : str;
  token_email : str;
  expires : N
}.

Record Database : Type := {
  users : list UserDB;
  reset_tokens : list ResetTokenDB
}.

(** What a route answers: a body, an [HTTPException], or an exception that
    no handler catches, named by its class. *)
Inductive response (A : Type) : Type :=
| Ok (body : A)
| HTTPException (status_code : nat) (detail : str)
| Unhandled (exception : string).

Arguments Ok {A} body.
Arguments HTTPException {A} status_code detail.
Arguments Unhandled {A} exception.

Definition route (A : Type) : Type := Database -> response A * Database.

(** [db.query(UserDB).filter(UserDB.email == address).first()] *)
Definition find_user (address : str) (db : Database) : option UserDB :=
  find (fun u => str_eqb (email u) address) (users db).

(** [db.query(ResetTokenDB).filter(ResetTokenDB.token == value).first()] *)
Definition find_token (value : str) (db : Database) : option ResetTokenDB :=
  find (fun t => str_eqb (token t) value) (reset_tokens db).

(** [db.delete(token_data)] and the commit: the line with that key goes. *)
Definition delete_token (t : ResetTokenDB) (db : Database) : Database :=
  {| users := users db;
     reset_tokens := filter (fun t' => negb (str_eqb (token t') (token t)))
                            (reset_tokens db) |}.

(** [user.hashed_password = hashed], committed. *)
Definition set_password (u : UserDB) (hashed : str) (db : Database) : Database :=
  {| users := map (fun u' => if str_eqb (email u') (email u)
                             then {| email := email u';
                                     full_name := full_name u';
                                     hashed_password := hashed |}
                             else u')
                  (users db);
     reset_tokens := reset_tokens db |}.

(** [jwt.encode] of python-jose for the claims [sub] and [exp] under the
    configured key. *)
Class Jose : Type := {
  jwt_encode : str -> N -> str
}.

Definition ACCESS_TOKEN_EXPIRE_MINUTES : N := 30.

(** [UserRegister] after validation, [ResetPassword] after validation. *)
Record UserRegister : Type := {
  reg_email : str;
  reg_password : str;
  reg_full_name : str
}.

Record ResetPassword : Type := {
  rp_token : str;
  rp_new_password : str
}.

Record Token : Type := {
  access_token : str;
  token_type : str
}.

Section Accounts.
Context {P : Passlib} {J : Jose}.

(** [register] *)
Definition register (user : UserRegister) : route (str * str) :=
  fun db =>
    match find_user (reg_email user) db with
    | Some _ => (HTTPException 400 (lit "Email already registered"), db)
    | None =>
        let db_user := {| email := reg_email user;
                          full_name := reg_full_name user;
                          hashed_password := get_password_hash (reg_password user) |} in
        (Ok (lit "User registered successfully", reg_email user),
         {| users := users db ++ [db_user]; reset_tokens := reset_tokens db |})
    end.

(** [create_access_token] with an [expires_delta]; times are in seconds. *)
Definition create_access_token (subject : str) (expires_delta now : N) : str :=
  jwt_encode subject (now + expires_delta).

(** [login]; [username] and [password] are the fields of the form. *)
Definition login (username password : str) (now : N) : route Token :=
  fun db =>
    match find_user username db with
    | None => (HTTPException 401 (lit "Incorrect email or password"), db)
    | Some user =>
        if negb (verify_password password (hashed_password user))
        then (HTTPException 401 (lit "Incorrect email or password"), db)
        else
          (Ok {| access_token :=
                   create_access_token (email user) (ACCESS_TOKEN_EXPIRE_MINUTES * 60) now;
                 token_type := lit "bearer" |},
           db)
    end.

Definition RESET_SENT : str := lit "If the email exists, a reset token has been sent".

(** [forgot_password]; [drawn] is what [secrets.token_urlsafe(32)] gives
    this time.  A token that is already a key of the table makes the commit
    fail with [IntegrityError], which nothing catches. *)
Definition forgot_password (address : str) (drawn : str) (now : N)
  : route (str * option str) :=
  fun db =>
    match find_user address db with
    | None => (Ok (RESET_SENT, None), db)
    | Some _ =>
        match find_token drawn db with
        | Some _ => (Unhandled "IntegrityError", db)
        | None =>
            (Ok (RESET_SENT, Some drawn),
             {| users := users db;
                reset_tokens := reset_tokens db
                                ++ [{| token := drawn;
                                       token_email := address;
                                       expires := now + 3600 |}] |})
        end
    end.

(** [reset_password].  The user of the token is looked up and used without
    a check: [None] has no attribute [hashed_password]. *)
Definition reset_password (data : ResetPassword) (now : N) : route str :=
  fun db =>
    match find_token (rp_token data) db with
    | None => (HTTPException 400 (lit "Invalid or expired reset token"), db)
    | Some token_data =>
        if (expires token_data <? now)%N
        then (HTTPException 400 (lit "Reset token has expired"),
              delete_token token_data db)
        else
          match find_user (token_email token_data) db with
          | None => (Unhandled "AttributeError", db)
          | Some user =>
              (Ok (lit "Password reset successfully"),
               delete_token token_data
                 (set_password user (get_password_hash (rp_new_password data)) db))
          end
    end.

End Accounts.

(** The database is well formed: addresses and tokens are keys, and every
    reset token is for a registered address. *)
Definition well_formed (db : Database) : Prop :=
  NoDup (map email (users db)) /\
  NoDup (map token (reset_tokens db)) /\
  Forall (fun t => In (token_email t) (map email (users db))) (reset_tokens db).

Definition empty : Database := {| users := []; reset_tokens := [] |}.

Definition no_jose : Jose := {| jwt_encode := fun subject _ => subject |}.

(** A database for the examples: one account with a reset token that
    expires at second 3700, a request with that token, and a newcomer. *)
Definition ticket : ResetTokenDB :=
  {| token := lit "Zm9v"; token_email := lit "ann@example.org"; expires := 3700 |}.

Definition pending : Database :=
  {| users := [{| email := lit "ann@example.org";
                  full_name := lit "Ann";
                  hashed_password := lit "first password" |}];
     reset_tokens := [ticket] |}.

Definition request : ResetPassword :=
  {| rp_token := lit "Zm9v"; rp_new_password := lit "second password" |}.

Definition newcomer : UserRegister :=
  {| reg_email := lit "bob@example.org";
     reg_password := lit "correct horse";
     reg_full_name := lit "Bob" |}.

End Auth.

(* ================================================================== *)
(** * Properties *)

(* ================================================================== *)
(** ** Facts about the character classes *)

Module CharFacts.

Local Open Scope N_scope.

Lemma is_space_iff c :
  is_space c = true <->
  (9 <= c <= 13 \/ 28 <= c <= 32 \/ c = 133 \/ c = 160 \/ c = 5760 \/
   8192 <= c <= 8202 \/ c = 8232 \/ c = 8233 \/ c = 8239 \/ c = 8287 \/
   c = 12288).
Proof.
  unfold is_space.
  rewrite !orb_true_iff, !andb_true_iff, !N.leb_le, !N.eqb_eq. tauto.
Qed.

Lemma is_lower_alnum_iff c :
  is_lower_alnum c = true <-> (97 <= c <= 122 \/ 48 <= c <= 57).
Proof.
  unfold is_lower_alnum.
  rewrite !orb_true_iff, !andb_true_iff, !N.leb_le. tauto.
Qed.

Lemma space_is_space : is_space SPACE = true.
Proof. reflexivity. Qed.

Lemma alnum_not_space c : is_lower_alnum c = true -> is_space c = false.
Proof.
  intros H. apply is_lower_alnum_iff in H.
  destruct (is_space c) eqn:E; [|reflexivity].
  apply is_space_iff in E. lia.
Qed.

Lemma alnum_lower_fixed c :
  is_lower_alnum c = true -> (c <? 128) = true /\ ascii_lower c = c.
Proof.
  intros H. apply is_lower_alnum_iff in H. split.
  - apply N.ltb_lt. lia.
  - unfold ascii_lower.
    destruct ((65 <=? c) && (c <=? 90)) eqn:E; [|reflexivity].
    apply andb_true_iff in E. rewrite !N.leb_le in E. lia.
Qed.

End CharFacts.

Import CharFacts.

Section StripFacts.

Lemma single_spaced_tail c s : single_spaced (c :: s) -> single_spaced s.
Proof. destruct s; simpl; tauto. Qed.

Lemma lstrip_Forall (P : codepoint -> Prop) s :
  Forall P s -> Forall P (lstrip s).
Proof.
  induction 1 as [|c s Hc Hs IH]; simpl; [constructor|].
  destruct (is_space c); auto.
Qed.

Lemma lstrip_single s : single_spaced s -> single_spaced (lstrip s).
Proof.
  induction s as [|c s IH]; intros H; [exact I|].
  cbn [lstrip]. destruct (is_space c); [|exact H].
  apply IH. eapply single_spaced_tail; eauto.
Qed.

Lemma lstrip_lead s : no_leading_space (lstrip s).
Proof.
  induction s as [|c s IH]; intros d rest E; [discriminate|].
  cbn [lstrip] in E. destruct (is_space c) eqn:Ec.
  - eapply IH; eauto.
  - injection E as <- _. exact Ec.
Qed.

(** [rstrip] keeps a prefix and drops only whitespace. *)
Lemma rstrip_prefix s :
  exists dropped, s = rstrip s ++ dropped /\ Forall (fun c => is_space c = true) dropped.
Proof.
  induction s as [|c s (dropped & E & Hd)]; [exists []; split; auto|].
  cbn [rstrip]. destruct (rstrip s) as [|k kept] eqn:Er.
  - destruct (is_space c) eqn:Ec.
    + exists (c :: s). split; [reflexivity|].
      simpl in E. rewrite E. constructor; assumption.
    + exists dropped. simpl in E. rewrite E.
      split; [reflexivity|assumption].
  - exists dropped. split; [|assumption].
    simpl. f_equal. exact E.
Qed.

Lemma rstrip_Forall (P : codepoint -> Prop) s :
  Forall P s -> Forall P (rstrip s).
Proof.
  intros H. destruct (rstrip_prefix s) as (dropped & E & _).
  rewrite E in H. apply Forall_app in H. tauto.
Qed.

Lemma single_spaced_prefix s t : single_spaced (s ++ t) -> single_spaced s.
Proof.
  induction s as [|a s IH]; intros H; [exact I|].
  destruct s as [|b s]; [exact I|].
  change (~ (a = SPACE /\ b = SPACE) /\ single_spaced ((b :: s) ++ t)) in H.
  destruct H as [H1 H2]. split; [exact H1 | apply IH; exact H2].
Qed.

Lemma rstrip_single s : single_spaced s -> single_spaced (rstrip s).
Proof.
  intros H. destruct (rstrip_prefix s) as (dropped & E & _).
  rewrite E in H. eapply single_spaced_prefix; eauto.
Qed.

Lemma rstrip_lead s : no_leading_space s -> no_leading_space (rstrip s).
Proof.
  intros H c rest E. destruct (rstrip_prefix s) as (dropped & Es & _).
  rewrite E in Es. simpl in Es. eapply H; eauto.
Qed.

Lemma rstrip_trail s : no_trailing_space (rstrip s).
Proof.
  induction s as [|c s IH]; intros front d E.
  - destruct front; discriminate.
  - cbn [rstrip] in E. destruct (rstrip s) as [|k kept] eqn:Er.
    + destruct (is_space c) eqn:Ec.
      * destruct front; discriminate.
      * destruct front as [|f [|f' front]]; try discriminate.
        injection E as <-. exact Ec.
    + destruct front as [|f front]; [discriminate|].
      injection E as _ E. eapply IH; eauto.
Qed.

Lemma lstrip_fixed s : no_leading_space s -> lstrip s = s.
Proof.
  destruct s as [|c s]; intros H; [reflexivity|].
  simpl. rewrite (H c s eq_refl). reflexivity.
Qed.

Lemma rstrip_fixed s : no_trailing_space s -> rstrip s = s.
Proof.
  induction s as [|c s IH]; intros H; [reflexivity|].
  cbn [rstrip]. rewrite IH.
  - destruct s; [|reflexivity].
    rewrite (H [] c eq_refl). reflexivity.
  - intros front d E. apply (H (c :: front) d). simpl. f_equal. exact E.
Qed.

Lemma strip_fixed s :
  no_leading_space s -> no_trailing_space s -> strip s = s.
Proof.
  intros Hl Ht. unfold strip. rewrite lstrip_fixed by assumption.
  apply rstrip_fixed; assumption.
Qed.

Lemma strip_all_space s :
  Forall (fun c => is_space c = true) s -> strip s = [].
Proof.
  unfold strip. induction 1 as [|c s Hc Hs IH]; [reflexivity|].
  simpl. rewrite Hc. exact IH.
Qed.

(** Trimming drops whitespace only. *)
Lemma lstrip_keeps c s : In c s -> is_space c = false -> In c (lstrip s).
Proof.
  induction s as [|d s IH]; intros Hin Hc; [exact Hin|].
  cbn [lstrip]. destruct (is_space d) eqn:Ed; [|exact Hin].
  destruct Hin as [->|Hin]; [congruence|auto].
Qed.

Lemma rstrip_keeps c s : In c s -> is_space c = false -> In c (rstrip s).
Proof.
  intros Hin Hc. destruct (rstrip_prefix s) as (dropped & E & Hd).
  rewrite E in Hin. apply in_app_or in Hin. destruct Hin as [Hin|Hin]; [exact Hin|].
  rewrite Forall_forall in Hd. rewrite (Hd c Hin) in Hc. discriminate.
Qed.

End StripFacts.

Section RegexFacts.

Lemma sub_non_alnum_classes s :
  Forall (fun c => is_lower_alnum c = true \/ is_space c = true) (sub_non_alnum s).
Proof.
  unfold sub_non_alnum. induction s as [|c s IH]; simpl; constructor; auto.
  destruct (is_lower_alnum c) eqn:Ea; simpl; [left; exact Ea|].
  destruct (is_space c) eqn:Es; right; [exact Es|reflexivity].
Qed.

Lemma collapse_chars b s :
  Forall (fun c => is_lower_alnum c = true \/ is_space c = true) s ->
  Forall clean_char (collapse_ws b s).
Proof.
  intros H. revert b. induction H as [|c s Hc Hs IH]; intros b; simpl; [constructor|].
  destruct (is_space c) eqn:Es.
  - destruct b; [apply IH|]. constructor; [right; reflexivity|apply IH].
  - constructor; [|apply IH]. destruct Hc as [Hc|Hc]; [left; exact Hc|congruence].
Qed.

(** Inside a run nothing is produced until the run ends, so the output of
    [collapse_ws true] never starts with a space. *)
Lemma collapse_in_run_head s rest : collapse_ws true s <> SPACE :: rest.
Proof.
  revert rest. induction s as [|c s IH]; intros rest; simpl; [discriminate|].
  destruct (is_space c) eqn:Es; [apply IH|].
  intros E. injection E as -> _. discriminate.
Qed.

Lemma collapse_single b s : single_spaced (collapse_ws b s).
Proof.
  revert b. induction s as [|c s IH]; intros b; [exact I|].
  cbn [collapse_ws]. destruct (is_space c) eqn:Es.
  - destruct b; [apply IH|].
    specialize (IH true). destruct (collapse_ws true s) as [|d out] eqn:E; [exact I|].
    split; [|exact IH].
    intros [_ ->]. eapply collapse_in_run_head; eauto.
  - specialize (IH false). destruct (collapse_ws false s) as [|d out]; [exact I|].
    split; [|exact IH].
    intros [-> _]. discriminate.
Qed.

Lemma collapse_all_space b s :
  Forall (fun c => is_space c = true) s ->
  Forall (fun c => is_space c = true) (collapse_ws b s).
Proof.
  intros H. revert b. induction H as [|c s Hc Hs IH]; intros b; simpl; [constructor|].
  rewrite Hc. destruct b; [apply IH|]. constructor; [reflexivity|apply IH].
Qed.

Lemma collapse_keeps b c s :
  In c s -> is_space c = false -> In c (collapse_ws b s).
Proof.
  revert b. induction s as [|d s IH]; intros b Hin Hc; [exact Hin|].
  cbn [collapse_ws]. destruct (is_space d) eqn:Ed.
  - destruct Hin as [->|Hin]; [congruence|].
    destruct b; [|right]; apply IH; assumption.
  - destruct Hin as [->|Hin]; [left; reflexivity|right; apply IH; assumption].
Qed.

Lemma sub_non_alnum_keeps c s :
  In c s -> is_lower_alnum c = true -> In c (sub_non_alnum s).
Proof.
  intros Hin Hc. unfold sub_non_alnum.
  apply in_map_iff. exists c. rewrite Hc. auto.
Qed.

Lemma sub_non_alnum_fixed s : Forall clean_char s -> sub_non_alnum s = s.
Proof.
  unfold sub_non_alnum. induction 1 as [|c s Hc Hs IH]; simpl; [reflexivity|].
  rewrite IH. destruct Hc as [Hc| ->]; [rewrite Hc|]; reflexivity.
Qed.

Lemma collapse_fixed b s :
  Forall clean_char s -> single_spaced s ->
  (b = true -> forall rest, s <> SPACE :: rest) ->
  collapse_ws b s = s.
Proof.
  intros H. revert b. induction H as [|c s Hc Hs IH]; intros b Hsing Hb; [reflexivity|].
  cbn [collapse_ws]. destruct Hc as [Hc| ->].
  - rewrite (alnum_not_space _ Hc). f_equal.
    apply IH; [eapply single_spaced_tail; eauto|discriminate].
  - rewrite space_is_space. destruct b.
    + exfalso. eapply Hb; eauto.
    + f_equal. apply IH; [eapply single_spaced_tail; eauto|].
      intros _ rest ->. simpl in Hsing. tauto.
Qed.

Context {U : UnicodeData}.

Lemma lower_from_fixed before s :
  Forall clean_char s -> lower_from before s = s.
Proof.
  intros H. revert before. induction H as [|c s Hc Hs IH]; intros before; [reflexivity|].
  cbn [lower_from]. rewrite IH. unfold lower_at.
  destruct Hc as [Hc| ->]; [|reflexivity].
  destruct (alnum_lower_fixed _ Hc) as [-> ->]. reflexivity.
Qed.

(** On ASCII text [lower] maps code point by code point. *)
Lemma lower_from_ascii before s :
  Forall (fun c => (c <? 128)%N = true) s ->
  lower_from before s = map ascii_lower s.
Proof.
  intros H. revert before. induction H as [|c s Hc Hs IH]; intros before; [reflexivity|].
  cbn [lower_from map]. rewrite IH. unfold lower_at. rewrite Hc. reflexivity.
Qed.

End RegexFacts.

Section NormaliserFacts.
Context {U : UnicodeData}.

Lemma clean_text_normalised text : normalised (_clean_text text).
Proof.
  unfold _clean_text. destruct (is_empty text).
  - split; try constructor; intros front c E; try discriminate.
    destruct front; discriminate.
  - cbv zeta. unfold strip, sub_ws.
    pose proof (sub_non_alnum_classes (lower text)) as Hcls.
    split.
    + apply rstrip_Forall, lstrip_Forall, collapse_chars, Hcls.
    + apply rstrip_single, lstrip_single, collapse_single.
    + apply rstrip_lead, lstrip_lead.
    + apply rstrip_trail.
Qed.

Lemma normalised_fixed s : normalised s -> _clean_text s = s.
Proof.
  intros [Hc Hs Hl Ht]. unfold _clean_text.
  destruct s as [|c s]; [reflexivity|]. cbn [is_empty]. cbv zeta.
  unfold lower, sub_ws.
  rewrite lower_from_fixed, sub_non_alnum_fixed by assumption.
  rewrite collapse_fixed by (auto; discriminate).
  apply strip_fixed; assumption.
Qed.

(** Text that lower-cases to no [[a-z0-9]] at all normalises to nothing. *)
Lemma clean_text_no_alnum text :
  Forall (fun c => is_lower_alnum c = false) (lower text) ->
  _clean_text text = [].
Proof.
  intros H. unfold _clean_text. destruct (is_empty text); [reflexivity|].
  cbv zeta. apply strip_all_space. apply collapse_all_space.
  unfold sub_non_alnum. induction H as [|c s Hc Hs IH]; simpl; constructor; auto.
  rewrite Hc. simpl. destruct (is_space c) eqn:Es; [exact Es|reflexivity].
Qed.

(** The output is empty exactly when the lower-cased text has no [[a-z0-9]]. *)
Lemma clean_text_empty_iff text :
  _clean_text text = [] <->
  Forall (fun c => is_lower_alnum c = false) (lower text).
Proof.
  split; [|apply clean_text_no_alnum].
  intros Hempty. apply Forall_forall. intros c Hin.
  destruct (is_lower_alnum c) eqn:Hc; [exfalso|reflexivity].
  unfold _clean_text in Hempty. destruct (is_empty text) eqn:Et.
  - destruct text; [destruct Hin|discriminate].
  - cbv zeta in Hempty. unfold strip, sub_ws in Hempty.
    pose proof (alnum_not_space _ Hc) as Hs.
    assert (Hout : In c (rstrip (lstrip (collapse_ws false (sub_non_alnum (lower text))))))
      by (apply rstrip_keeps; [apply lstrip_keeps; [apply collapse_keeps;
            [apply sub_non_alnum_keeps|]|]|]; assumption).
    rewrite Hempty in Hout. destruct Hout.
Qed.

(** The feature text is empty exactly when description and merchant both
    normalise to nothing. *)
Lemma combine_empty_iff description merchant :
  _combine description merchant = [] <->
  _clean_text description = [] /\ _clean_text merchant = [].
Proof.
  unfold _combine. cbv zeta. split.
  - intros Hempty.
    assert (Hnone : forall t c rest,
               In t [_clean_text description; _clean_text merchant] ->
               t = c :: rest -> False).
    { intros t c rest Ht Et.
      assert (Hc : is_space c = false).
      { destruct Ht as [<-|[<-|[]]];
          eapply (norm_lead (clean_text_normalised _)); eauto. }
      assert (Hin : In c (_clean_text description ++ SPACE ::
                          _clean_text description ++ SPACE :: _clean_text merchant)).
      { destruct Ht as [<-|[<-|[]]]; rewrite Et.
        - left. reflexivity.
        - apply in_or_app. right. right. apply in_or_app. right. right. left. reflexivity. }
      pose proof (@rstrip_keeps c _ (@lstrip_keeps c _ Hin Hc) Hc) as Hout.
      unfold strip in Hempty. rewrite Hempty in Hout. destruct Hout. }
    split.
    + destruct (_clean_text description) as [|c rest] eqn:Ed; [reflexivity|].
      exfalso. eapply (Hnone (c :: rest)); [left|]; reflexivity.
    + destruct (_clean_text merchant) as [|c rest] eqn:Em; [reflexivity|].
      exfalso. eapply (Hnone (c :: rest)); [right; left|]; reflexivity.
  - intros [-> ->]. reflexivity.
Qed.

Lemma punctuation_lowered text :
  forallb is_punctuation text = true ->
  Forall (fun c => is_lower_alnum c = false) (lower text).
Proof.
  intros H. unfold lower. rewrite lower_from_ascii.
  - induction text as [|c s IH]; simpl in *; [constructor|].
    apply andb_true_iff in H. destruct H as [Hc Hs].
    constructor; [|apply IH; exact Hs].
    unfold is_punctuation in Hc.
    rewrite !orb_true_iff, !andb_true_iff, !N.leb_le in Hc.
    destruct (is_lower_alnum (ascii_lower c)) eqn:E; [|reflexivity].
    apply is_lower_alnum_iff in E. unfold ascii_lower in E.
    destruct ((65 <=? c) && (c <=? 90))%N eqn:Eu.
    + apply andb_true_iff in Eu. rewrite !N.leb_le in Eu. lia.
    + lia.
  - induction text as [|c s IH]; simpl in *; [constructor|].
    apply andb_true_iff in H. destruct H as [Hc Hs].
    constructor; [|apply IH; exact Hs].
    unfold is_punctuation in Hc.
    rewrite !orb_true_iff, !andb_true_iff, !N.leb_le in Hc.
    apply N.ltb_lt. lia.
Qed.

End NormaliserFacts.

(* ================================================================== *)
(** ** The text normaliser: claims C6, C7 and C8 *)

Section NormaliserClaims.
Context {U : UnicodeData}.

(** C7. For every input text, the output of [_clean_text] (the spec's
    [normalize]) holds only lower-case ASCII letters, digits and spaces, no
    two spaces side by side, and no whitespace at either end; the empty text
    and any text made of punctuation marks only normalise to the empty
    string. *)
Theorem clean_text_output_shape :
  (forall text,
      Forall clean_char (_clean_text text) /\
      single_spaced (_clean_text text) /\
      no_leading_space (_clean_text text) /\
      no_trailing_space (_clean_text text)) /\
  _clean_text [] = [] /\
  (forall text, forallb is_punctuation text = true -> _clean_text text = []).
Proof.
  split; [|split].
  - intros text. destruct (clean_text_normalised text) as [H1 H2 H3 H4]. auto.
  - reflexivity.
  - intros text H. apply clean_text_no_alnum, punctuation_lowered, H.
Qed.

(** C8. [_clean_text] is idempotent: normalising a normalised text changes
    nothing. *)
Theorem clean_text_idempotent (x : str) :
  _clean_text (_clean_text x) = _clean_text x.
Proof. apply normalised_fixed, clean_text_normalised. Qed.


End NormaliserClaims.

Lemma clean_text_output_shape_witness :
  forallb is_punctuation (lit "?!... --") = false /\
  forallb is_punctuation (lit "?!...--") = true /\
  @_clean_text uncased (lit "?!...--") = [].
Proof.
  split; [reflexivity|]. split; [reflexivity|].
  apply (proj2 (proj2 (@clean_text_output_shape uncased))). reflexivity.
Defined.

(* ================================================================== *)
(** ** The order of binary64 numbers *)

Module FloatOrder.

Local Open Scope float_scope.

Ltac compare_cases :=
  repeat match goal with
  | H : context [Z.compare ?a ?b] |- _ =>
      destruct (Z.compare_spec a b); simpl in H; try discriminate H
  | H : context [Pos.compare ?a ?b] |- _ =>
      destruct (Pos.compare_spec a b); simpl in H; try discriminate H
  | |- context [Z.compare ?a ?b] => destruct (Z.compare_spec a b); simpl
  | |- context [Pos.compare ?a ?b] => destruct (Pos.compare_spec a b); simpl
  end.

Ltac by_cases x :=
  destruct x as [[|]|[|]| |[|] ? ?]; simpl; try discriminate; try reflexivity.

Lemma SFleb_trans x y z :
  SFleb x y = true -> SFleb y z = true -> SFleb x z = true.
Proof.
  unfold SFleb, SFcompare.
  change (Pos.compare_cont Eq) with Pos.compare.
  by_cases x; by_cases y; by_cases z; intros H1 H2;
    compare_cases; try reflexivity; try discriminate; lia.
Qed.

Lemma SFleb_total x y :
  x <> S754_nan -> y <> S754_nan -> SFleb x y = false -> SFleb y x = true.
Proof.
  unfold SFleb, SFcompare.
  change (Pos.compare_cont Eq) with Pos.compare.
  by_cases x; by_cases y; intros Hx Hy H;
    try congruence; compare_cases; try reflexivity; try discriminate; lia.
Qed.

Lemma SFltb_leb x y : SFltb x y = true -> SFleb x y = true.
Proof.
  unfold SFltb, SFleb. destruct (SFcompare x y) as [[| |]|]; congruence.
Qed.

Lemma SFleb_ltb x y :
  x <> S754_nan -> y <> S754_nan -> SFltb x y = false -> SFleb y x = true.
Proof.
  unfold SFleb, SFltb, SFcompare.
  change (Pos.compare_cont Eq) with Pos.compare.
  by_cases x; by_cases y; intros Hx Hy H;
    try congruence; compare_cases; try reflexivity; try discriminate; lia.
Qed.

Lemma not_nan_spec x : is_nan x = false -> Prim2SF x <> S754_nan.
Proof.
  unfold is_nan. rewrite FloatAxioms.eqb_spec. intros H E.
  rewrite E in H. discriminate.
Qed.

Lemma leb_trans x y z :
  (x <=? y) = true -> (y <=? z) = true -> (x <=? z) = true.
Proof. rewrite !FloatAxioms.leb_spec. apply SFleb_trans. Qed.

Lemma leb_total x y :
  is_nan x = false -> is_nan y = false -> (x <=? y) = false -> (y <=? x) = true.
Proof.
  intros Hx Hy. rewrite !FloatAxioms.leb_spec.
  apply SFleb_total; apply not_nan_spec; assumption.
Qed.

Lemma leb_refl x : is_nan x = false -> (x <=? x) = true.
Proof.
  intros Hx. pose proof (@leb_total x x Hx Hx) as H.
  destruct (x <=? x); [reflexivity|apply H; reflexivity].
Qed.

Lemma not_ltb_leb x y :
  is_nan x = false -> is_nan y = false -> (x <? y) = false -> (y <=? x) = true.
Proof.
  intros Hx Hy. rewrite FloatAxioms.ltb_spec, FloatAxioms.leb_spec.
  apply SFleb_ltb; apply not_nan_spec; assumption.
Qed.

End FloatOrder.

(* ================================================================== *)
(** ** [np.argmax] and [np.max] *)

Module NumpyFacts.

Import Numpy FloatOrder.
Local Open Scope float_scope.

(** Once the running maximum is NaN it stays. *)
Lemma fold_maximum_nan rest x :
  is_nan x = true -> fold_left maximum rest x = x.
Proof.
  intros Hx. induction rest as [|y rest IH]; [reflexivity|].
  simpl. unfold maximum at 2. rewrite Hx, orb_true_r. exact IH.
Qed.

(** The scan of [argmax] stops at the value that the reduction of
    [maximum] returns. *)
Lemma scan_agree rest :
  forall best best_i i seen,
    is_nan best = false ->
    nth_error (seen ++ rest) best_i = Some best ->
    List.length seen = i ->
    nth_error (seen ++ rest) (argmax_from best best_i i rest)
    = Some (fold_left maximum rest best).
Proof.
  induction rest as [|x rest IH]; intros best best_i i seen Hb Hnth Hlen; [exact Hnth|].
  cbn [argmax_from fold_left]. unfold maximum at 2. rewrite Hb, orb_false_r.
  assert (Hstep : seen ++ x :: rest = (seen ++ [x]) ++ rest)
    by (rewrite <- app_assoc; reflexivity).
  assert (Hx : nth_error (seen ++ x :: rest) i = Some x)
    by (subst i; rewrite nth_error_app2, Nat.sub_diag by lia; reflexivity).
  destruct (x <=? best) eqn:Ele.
  - rewrite Hstep. apply IH; [assumption| |rewrite length_app; simpl; lia].
    rewrite <- Hstep. exact Hnth.
  - destruct (is_nan x) eqn:Enan.
    + rewrite fold_maximum_nan by assumption. exact Hx.
    + rewrite Hstep. apply IH; [assumption| |rewrite length_app; simpl; lia].
      rewrite <- Hstep. exact Hx.
Qed.

(** On a non-empty array [np.argmax] and [np.max] succeed, and the value at
    the position is the maximum. *)
Lemma argmax_max xs :
  xs <> [] ->
  exists i m, argmax xs = Return i /\ max xs = Return m /\ nth_error xs i = Some m.
Proof.
  destruct xs as [|x rest]; [congruence|]. intros _.
  unfold argmax, max. do 2 eexists. split; [reflexivity|]. split; [reflexivity|].
  destruct (is_nan x) eqn:Enan.
  - rewrite fold_maximum_nan by assumption. reflexivity.
  - apply (@scan_agree rest x 0%nat 1%nat [x]); auto.
Qed.

Lemma fold_maximum_bound rest :
  forall best,
    is_nan best = false -> Forall (fun x => is_nan x = false) rest ->
    (best <=? fold_left maximum rest best) = true /\
    Forall (fun x => (x <=? fold_left maximum rest best) = true) rest.
Proof.
  induction rest as [|x rest IH]; intros best Hb Hr.
  - split; [apply leb_refl; assumption|constructor].
  - inversion Hr as [|? ? Hx Hrest]; subst. cbn [fold_left].
    unfold maximum at 2 4. rewrite Hb, orb_false_r.
    destruct (x <=? best) eqn:Ele.
    + destruct (IH best Hb Hrest) as [H1 H2]. split; [exact H1|].
      constructor; [|exact H2]. eapply leb_trans; eauto.
    + destruct (IH x Hx Hrest) as [H1 H2]. split.
      * eapply leb_trans; [|exact H1]. apply leb_total; assumption.
      * constructor; assumption.
Qed.

(** Without NaN, [np.max] is an upper bound of the array. *)
Lemma max_upper_bound xs m :
  Forall (fun x => is_nan x = false) xs -> max xs = Return m ->
  Forall (fun x => (x <=? m) = true) xs.
Proof.
  destruct xs as [|x rest]; intros H E; [constructor|].
  inversion H as [|? ? Hx Hrest]; subst. injection E as <-.
  destruct (@fold_maximum_bound rest x Hx Hrest) as [H1 H2]. constructor; assumption.
Qed.

End NumpyFacts.

(* ================================================================== *)
(** ** The predictor: claims C1, C2, C5 and C10 *)

Section PredictorFacts.
Context {U : UnicodeData}.

Lemma split_from_token cur s : cur <> [] -> (1 <= List.length (split_from cur s))%nat.
Proof.
  revert cur. induction s as [|c s IH]; intros cur H.
  - destruct cur; [congruence|simpl; lia].
  - cbn [split_from]. destruct (is_space c).
    + destruct cur; [congruence|simpl; lia].
    + apply IH. destruct cur; discriminate.
Qed.

Lemma is_empty_false (t : str) : t <> [] -> is_empty t = false.
Proof. destruct t; [congruence|reflexivity]. Qed.

(** Feature text is trimmed, so a non-empty one has a token. *)
Lemma combine_has_token description merchant :
  _combine description merchant <> [] ->
  (1 <= List.length (split (_combine description merchant)))%nat.
Proof.
  intros H.
  assert (Hl : no_leading_space (_combine description merchant))
    by (unfold _combine, strip; apply rstrip_lead, lstrip_lead).
  destruct (_combine description merchant) as [|c rest]; [congruence|].
  unfold split. cbn [split_from]. rewrite (Hl c rest eq_refl).
  apply split_from_token. discriminate.
Qed.

(** What [predict] does when a model is loaded and the feature text is
    empty. *)
Lemma predict_no_text st model description merchant :
  pipeline st = Some model ->
  _combine description merchant = [] ->
  predict description merchant st = (Return (OTHER, 0.0%float), st).
Proof.
  intros Hp Ht. unfold predict, bind, get_pipeline. rewrite Hp. cbv zeta.
  rewrite Ht. reflexivity.
Qed.

(** What [predict] does when a model is loaded and the feature text is not
    empty. *)
Lemma predict_run st model description merchant :
  let text := _combine description merchant in
  let proba := predict_proba model text in
  pipeline st = Some model ->
  text <> [] ->
  answers model text ->
  exists i label raw,
    Numpy.argmax proba = Return i /\
    Numpy.max proba = Return raw /\
    nth_error proba i = Some raw /\
    nth_error (classes_ model) i = Some label /\
    predict description merchant st =
      (Return (if (discount (List.length (split text)) raw <? CONFIDENCE_THRESHOLD)%float
               then OTHER else label,
               discount (List.length (split text)) raw),
       log_proba_call text st).
Proof.
  intros text proba Hp Htext [Hne Hlen]. subst proba.
  destruct (NumpyFacts.argmax_max Hne) as (i & raw & Ha & Hm & Hnth).
  assert (Hi : (i < List.length (classes_ model))%nat).
  { rewrite <- Hlen. apply nth_error_Some. rewrite Hnth. discriminate. }
  destruct (nth_error (classes_ model) i) as [label|] eqn:Hc;
    [|apply nth_error_None in Hc; lia].
  exists i, label, raw. repeat (split; [assumption|]).
  unfold predict, bind, get_pipeline. rewrite Hp. cbv zeta.
  fold text. rewrite (is_empty_false Htext).
  unfold call_predict_proba, lift. rewrite Ha.
  unfold getitem. rewrite Hc, Hm.
  destruct (discount _ raw <? CONFIDENCE_THRESHOLD)%float; reflexivity.
Qed.

End PredictorFacts.

Section PredictorClaims.
Context {U : UnicodeData}.

Local Open Scope float_scope.


(** C2. With a model loaded and a non-empty feature text, the confidence
    [predict] returns is the largest probability times 0.70 when the feature
    text has exactly one token, times 0.85 when it has exactly two, and the
    largest probability itself when it has three or more; a non-empty
    feature text has at least one token. *)
Theorem predict_length_discount st model description merchant :
  let text := _combine description merchant in
  let proba := predict_proba model text in
  let n := List.length (split text) in
  pipeline st = Some model ->
  text <> [] ->
  answers model text ->
  exists raw label confidence,
    Numpy.max proba = Return raw /\
    fst (predict description merchant st) = Return (label, confidence) /\
    (1 <= n)%nat /\
    (n = 1%nat -> confidence = raw * 0.70) /\
    (n = 2%nat -> confidence = raw * 0.85) /\
    ((3 <= n)%nat -> confidence = raw).
Proof.
  intros text proba n Hp Htext Hans.
  destruct (predict_run st description merchant Hp Htext Hans)
    as (i & label & raw & Ha & Hm & Hnth & Hc & Hrun).
  fold text in Hrun. fold n in Hrun.
  exists raw. eexists. exists (discount n raw).
  split; [exact Hm|]. split; [rewrite Hrun; reflexivity|].
  split; [apply combine_has_token; exact Htext|].
  unfold discount. repeat split.
  - intros ->. reflexivity.
  - intros ->. reflexivity.
  - intros Hn. destruct n as [|[|[|n']]]; try lia. reflexivity.
Qed.

(** C5. With a model loaded, [predict] on a description and merchant whose
    feature text is empty returns the catch-all category with confidence 0.0
    and leaves the state as it was: the model is not called.  The empty
    description with the empty merchant is such an input. *)
Theorem predict_empty_short_circuit st model :
  pipeline st = Some model ->
  (forall description merchant,
      _combine description merchant = [] ->
      predict description merchant st = (Return (OTHER, 0.0), st)) /\
  predict [] [] st = (Return (OTHER, 0.0), st).
Proof.
  intros Hp. split.
  - intros description merchant Ht. eapply predict_no_text; eauto.
  - eapply predict_no_text; eauto.
Qed.

(** C10. With a model loaded, a label that [predict] returns is one of the
    model's classes or the catch-all "Other"; and [predict] does return a
    label whenever the model answers the feature text with one probability
    per class. *)
Theorem predict_label_in_vocabulary st model description merchant :
  pipeline st = Some model ->
  (forall label confidence st',
      predict description merchant st = (Return (label, confidence), st') ->
      In label (classes_ model) \/ label = OTHER) /\
  (answers model (_combine description merchant) ->
   exists label confidence,
     fst (predict description merchant st) = Return (label, confidence) /\
     (In label (classes_ model) \/ label = OTHER)).
Proof.
  intros Hp.
  assert (Hsafe : forall label confidence st',
             predict description merchant st = (Return (label, confidence), st') ->
             In label (classes_ model) \/ label = OTHER).
  { intros label confidence st'. unfold predict, bind, get_pipeline.
    rewrite Hp. cbv zeta.
    destruct (is_empty (_combine description merchant)).
    - unfold ret. intros E. injection E as <- _ _. right. reflexivity.
    - unfold call_predict_proba, lift, getitem.
      destruct (Numpy.argmax _) as [i|]; [|discriminate].
      destruct (nth_error (classes_ model) i) as [pred|] eqn:Hc; [|discriminate].
      destruct (Numpy.max _) as [raw|]; [|discriminate].
      destruct (_ <? CONFIDENCE_THRESHOLD); unfold ret; intros E;
        injection E as <- _ _; [right; reflexivity|left].
      eapply nth_error_In; eauto. }
  split; [exact Hsafe|]. intros Hans.
  destruct (predict description merchant st) as [[[label confidence]|e] st'] eqn:E.
  - exists label, confidence. split; [reflexivity|]. eapply Hsafe; reflexivity.
  - exfalso. destruct (_combine description merchant) as [|c rest] eqn:Et.
    + rewrite (predict_no_text st description merchant Hp Et) in E. discriminate.
    + assert (Hne : _combine description merchant <> []) by (rewrite Et; discriminate).
      rewrite <- Et in Hans.
      destruct (predict_run st description merchant Hp Hne Hans)
        as (i & label & raw & _ & _ & _ & _ & Hrun).
      rewrite Hrun in E. discriminate.
Qed.

End PredictorClaims.

(** The claims at the three-class toy model. *)


Lemma predict_length_discount_witness :
  exists label,
    fst (@predict uncased [] (lit "Uber") (Toy.loaded Toy.model))
    = Return (label, (0.35 * 0.70)%float).
Proof.
  destruct (@predict_length_discount uncased (Toy.loaded Toy.model) Toy.model
              [] (lit "Uber"))
    as (raw & label & confidence & Hm & Hp & _ & H1 & _ & _).
  - reflexivity.
  - vm_compute. discriminate.
  - split; vm_compute; [discriminate|reflexivity].
  - exists label. rewrite Hp, H1 by reflexivity.
    vm_compute in Hm. injection Hm as <-. reflexivity.
Defined.

Lemma predict_empty_short_circuit_witness :
  @predict uncased (lit "?!") (lit "...") (Toy.loaded Toy.model)
  = (Return (OTHER, 0.0%float), Toy.loaded Toy.model).
Proof.
  apply (proj1 (@predict_empty_short_circuit uncased (Toy.loaded Toy.model)
                  Toy.model eq_refl)).
  reflexivity.
Defined.

Lemma predict_label_in_vocabulary_witness :
  exists label confidence,
    fst (@predict uncased (lit "rent payment") (lit "Apartment") (Toy.loaded Toy.model))
    = Return (label, confidence) /\
    (In label [Toy.FOOD; Toy.RENT; Toy.FUN] \/ label = OTHER).
Proof.
  apply (proj2 (@predict_label_in_vocabulary uncased (Toy.loaded Toy.model)
                  Toy.model (lit "rent payment") (lit "Apartment") eq_refl)).
  split; vm_compute; [discriminate|reflexivity].
Defined.

(* ================================================================== *)
(** ** [np.argsort] *)

Module SortFacts.

Import Numpy FloatOrder.
Local Open Scope float_scope.

Lemma argsort_pairs xs : argsort xs = map fst (sorted_pairs xs).
Proof. reflexivity. Qed.

Lemma insert_Forall (P : nat * float -> Prop) x l :
  Forall P (insert_sorted x l) <-> P x /\ Forall P l.
Proof.
  induction l as [|y l IH]; simpl.
  - split; [intros H; inversion H; auto|intros [H1 H2]; auto].
  - destruct (sort_lt (snd y) (snd x)).
    + rewrite !Forall_cons_iff, IH. tauto.
    + rewrite !Forall_cons_iff. tauto.
Qed.

Lemma sort_Forall (P : nat * float -> Prop) l :
  Forall P (fold_right insert_sorted [] l) <-> Forall P l.
Proof.
  induction l as [|x l IH]; simpl; [tauto|].
  rewrite insert_Forall, Forall_cons_iff, IH. tauto.
Qed.

Lemma insert_length x l : List.length (insert_sorted x l) = S (List.length l).
Proof.
  induction l as [|y l IH]; simpl; [reflexivity|].
  destruct (sort_lt (snd y) (snd x)); simpl; [rewrite IH|]; reflexivity.
Qed.

Lemma enumerate_length {A} i (xs : list A) :
  List.length (enumerate_from i xs) = List.length xs.
Proof. revert i. induction xs as [|x xs IH]; intros i; simpl; [|rewrite IH]; reflexivity. Qed.

Lemma sorted_pairs_length xs : List.length (sorted_pairs xs) = List.length xs.
Proof.
  unfold sorted_pairs. rewrite <- (enumerate_length 0 xs).
  induction (enumerate_from 0 xs) as [|p l IH]; simpl; [reflexivity|].
  rewrite insert_length, IH. reflexivity.
Qed.

(** Every pair holds a position of the array and the value there. *)
Lemma enumerate_lookup (seen xs : list float) :
  Forall (fun p => nth_error (seen ++ xs) (fst p) = Some (snd p))
         (enumerate_from (List.length seen) xs).
Proof.
  revert seen. induction xs as [|x xs IH]; intros seen; simpl; constructor.
  - simpl. rewrite nth_error_app2, Nat.sub_diag by lia. reflexivity.
  - specialize (IH (seen ++ [x])).
    rewrite length_app, <- app_assoc in IH. simpl in IH.
    rewrite Nat.add_1_r in IH. exact IH.
Qed.

Lemma sorted_pairs_lookup xs :
  Forall (fun p => nth_error xs (fst p) = Some (snd p)) (sorted_pairs xs).
Proof. apply sort_Forall. apply (enumerate_lookup [] xs). Qed.

Lemma insert_ascending x l :
  is_nan (snd x) = false ->
  Forall (fun p => is_nan (snd p) = false) l ->
  ascending (map snd l) -> ascending (map snd (insert_sorted x l)).
Proof.
  intros Hx. induction l as [|y l IH]; intros Hl Hasc; simpl.
  - split; [constructor|exact I].
  - inversion Hl as [|? ? Hy Hl']; subst. destruct Hasc as [Hy_le Hasc].
    unfold sort_lt. rewrite Hx. simpl. rewrite orb_false_r.
    destruct (snd y <? snd x) eqn:Elt; simpl.
    + split; [|apply IH; assumption].
      apply Forall_map. apply insert_Forall. split.
      * rewrite FloatAxioms.ltb_spec in Elt. rewrite FloatAxioms.leb_spec.
        apply SFltb_leb. exact Elt.
      * apply Forall_map in Hy_le. exact Hy_le.
    + assert (Hxy : (snd x <=? snd y) = true) by (apply not_ltb_leb; assumption).
      split; [|split; assumption].
      constructor; [exact Hxy|].
      eapply Forall_impl; [|exact Hy_le].
      intros r Hr. eapply leb_trans; eauto.
Qed.

Lemma sorted_pairs_ascending xs :
  Forall (fun x => is_nan x = false) xs -> ascending (map snd (sorted_pairs xs)).
Proof.
  intros H. unfold sorted_pairs.
  assert (Hp : Forall (fun p => is_nan (snd p) = false) (enumerate_from 0 xs)).
  { generalize 0%nat. induction H as [|x xs Hx Hxs IH]; intros i; simpl; constructor; auto. }
  induction Hp as [|p l Hp Hl IH]; simpl; [exact I|].
  apply insert_ascending; [assumption| |assumption].
  apply sort_Forall. exact Hl.
Qed.

Lemma ascending_skipn k qs : ascending qs -> ascending (skipn k qs).
Proof.
  revert qs. induction k as [|k IH]; intros qs H; [exact H|].
  destruct qs as [|q qs]; [exact I|]. simpl. apply IH. apply H.
Qed.

Lemma descending_snoc qs q :
  descending qs -> Forall (fun r => (q <=? r) = true) qs -> descending (qs ++ [q]).
Proof.
  induction qs as [|r qs IH]; intros Hd Hq; simpl.
  - split; [constructor|exact I].
  - destruct Hd as [Hr Hd]. inversion Hq as [|? ? Hqr Hq']; subst.
    split; [|apply IH; assumption].
    apply Forall_app. split; [exact Hr|]. constructor; [exact Hqr|constructor].
Qed.

Lemma ascending_rev qs : ascending qs -> descending (rev qs).
Proof.
  induction qs as [|q qs IH]; intros H; [exact I|].
  destruct H as [Hq H]. simpl. apply descending_snoc; [apply IH; exact H|].
  apply Forall_rev. exact Hq.
Qed.

End SortFacts.

(* ================================================================== *)
(** ** The ranked predictions: claim C9 *)

Section TopPredictionsFacts.

Lemma slice_from_map {A B} (f : A -> B) start l :
  slice_from start (map f l) = map f (slice_from start l).
Proof. unfold slice_from. rewrite length_map, skipn_map. reflexivity. Qed.

Lemma slice_from_Forall {A} (P : A -> Prop) start l :
  Forall P l -> Forall P (slice_from start l).
Proof.
  intros H. unfold slice_from.
  match goal with |- Forall P (skipn ?k l) =>
    rewrite <- (firstn_skipn k l) in H end.
  apply Forall_app in H. apply H.
Qed.

(** [seq[-k:]] for a positive [k]: the last [k] items, or all of them. *)
Lemma slice_from_last_length {A} (k : Z) (l : list A) :
  (1 <= k)%Z ->
  List.length (slice_from (- k) l) = Nat.min (Z.to_nat k) (List.length l).
Proof.
  intros Hk. unfold slice_from.
  destruct (- k <? 0)%Z eqn:E; [|apply Z.ltb_ge in E; lia].
  rewrite length_skipn. lia.
Qed.

(** The comprehension over the chosen positions looks every one of them up. *)
Lemma mapM_lookup (classes : list str) (proba : list float) tp st :
  Forall (fun p => nth_error proba (fst p) = Some (snd p)) tp ->
  Forall (fun p => (fst p < List.length classes)%nat) tp ->
  exists result,
    mapM (fun i => c <- lift (getitem classes i) ;;
                   q <- lift (getitem proba i) ;;
                   ret (c, q))
         (map fst tp) st = (Return result, st) /\
    map snd result = map snd tp /\
    Forall (fun cq => exists i, nth_error classes i = Some (fst cq) /\
                                nth_error proba i = Some (snd cq)) result.
Proof.
  induction tp as [|[i q] tp IH]; intros Hq Hc.
  - exists []. repeat split; constructor.
  - inversion Hq as [|? ? Hq1 Hq2]; inversion Hc as [|? ? Hc1 Hc2]; subst.
    destruct (IH Hq2 Hc2) as (result & Hrun & Hsnd & Hall).
    simpl in Hq1, Hc1.
    destruct (nth_error classes i) as [c|] eqn:Ec;
      [|apply nth_error_None in Ec; lia].
    exists ((c, q) :: result). split; [|split].
    + cbn [map mapM fst]. unfold bind, lift, getitem, ret in *.
      rewrite Ec, Hq1, Hrun. reflexivity.
    + simpl. rewrite Hsnd. reflexivity.
    + constructor; [exists i; auto|exact Hall].
Qed.

Context {U : UnicodeData}.

(** What [get_top_predictions] does when a model is loaded and the feature
    text is not empty: the last [top_n] of the sorted pairs, last one first,
    each under its class. *)
Lemma top_predictions_run st model description merchant top_n :
  let text := _combine description merchant in
  let proba := predict_proba model text in
  pipeline st = Some model ->
  text <> [] ->
  answers model text ->
  exists result,
    get_top_predictions description merchant top_n st
    = (Return result, log_proba_call text st) /\
    map snd result = map snd (rev (slice_from (- top_n) (sorted_pairs proba))) /\
    Forall (fun cq => exists i, nth_error (classes_ model) i = Some (fst cq) /\
                                nth_error proba i = Some (snd cq)) result.
Proof.
  intros text proba Hp Htext [Hne Hlen].
  set (tp := rev (slice_from (- top_n) (sorted_pairs proba))).
  assert (Hq : Forall (fun p => nth_error proba (fst p) = Some (snd p)) tp).
  { apply Forall_rev, slice_from_Forall, SortFacts.sorted_pairs_lookup. }
  assert (Hc : Forall (fun p => (fst p < List.length (classes_ model))%nat) tp).
  { eapply Forall_impl; [|exact Hq]. intros p Hnth. cbv beta in Hnth.
    fold proba in Hlen. rewrite <- Hlen. apply nth_error_Some. rewrite Hnth. discriminate. }
  destruct (@mapM_lookup (classes_ model) proba tp (log_proba_call text st) Hq Hc)
    as (result & Hrun & Hsnd & Hall).
  exists result. split; [|split; assumption].
  unfold get_top_predictions, bind at 1, get_pipeline. rewrite Hp. cbv zeta.
  fold text. rewrite (is_empty_false Htext).
  unfold bind at 1, call_predict_proba. fold proba.
  rewrite SortFacts.argsort_pairs, slice_from_map, <- map_rev. exact Hrun.
Qed.

End TopPredictionsFacts.

Section TopPredictionsClaims.
Context {U : UnicodeData}.

(** C9, as amended.  With a model loaded, [get_top_predictions] returns the
    single entry (catch-all, 0.0) when the feature text is empty.  Otherwise
    it returns (category, probability) pairs, each a class of the model with
    the probability the model gave it (no length discount, no threshold, no
    catch-all), in non-increasing order of probability; for [top_n >= 1]
    their number is the smaller of [top_n] and the number of classes, hence
    exactly [top_n] when the model has that many classes. *)
Theorem top_predictions_ranked st model description merchant (top_n : Z) :
  let text := _combine description merchant in
  let proba := predict_proba model text in
  pipeline st = Some model ->
  (text = [] ->
   get_top_predictions description merchant top_n st
   = (Return [(OTHER, 0.0%float)], st)) /\
  (text <> [] -> answers model text ->
   exists result,
     get_top_predictions description merchant top_n st
     = (Return result, log_proba_call text st) /\
     ((1 <= top_n)%Z ->
      List.length result = Nat.min (Z.to_nat top_n) (List.length (classes_ model))) /\
     ((1 <= top_n <= Z.of_nat (List.length (classes_ model)))%Z ->
      List.length result = Z.to_nat top_n) /\
     (no_nan proba -> descending (map snd result)) /\
     Forall (fun cq => exists i, nth_error (classes_ model) i = Some (fst cq) /\
                                 nth_error proba i = Some (snd cq)) result).
Proof.
  intros text proba Hp. split.
  - intros Ht. unfold get_top_predictions, bind, get_pipeline.
    rewrite Hp. cbv zeta. fold text. rewrite Ht. reflexivity.
  - intros Htext Hans.
    destruct (top_predictions_run st description merchant top_n Hp Htext Hans)
      as (result & Hrun & Hsnd & Hall).
    fold text in Hrun. fold proba in Hsnd, Hall.
    assert (Hlen : (1 <= top_n)%Z ->
              List.length result
              = Nat.min (Z.to_nat top_n) (List.length (classes_ model))).
    { intros Hk. rewrite <- (length_map snd result), Hsnd, length_map, length_rev.
      rewrite slice_from_last_length by exact Hk.
      rewrite SortFacts.sorted_pairs_length. destruct Hans as [_ <-]. reflexivity. }
    exists result. split; [exact Hrun|]. split; [exact Hlen|].
    split; [intros Hk; rewrite Hlen by lia; lia|].
    split; [|exact Hall].
    intros Hnan. rewrite Hsnd, map_rev. apply SortFacts.ascending_rev.
    rewrite <- slice_from_map. unfold slice_from.
    apply SortFacts.ascending_skipn, SortFacts.sorted_pairs_ascending, Hnan.
Qed.

End TopPredictionsClaims.

(** C9 as stated fails: asked for three predictions, a model with two
    classes returns two. *)
Lemma top_predictions_fewer_than_asked :
  exists result,
    fst (@get_top_predictions uncased (lit "coffee") (lit "Starbucks") 3
           (Toy.loaded Toy.model2))
    = Return result /\
    result = [(Toy.RENT, 0.75%float); (Toy.FOOD, 0.25%float)] /\
    List.length result <> Z.to_nat 3.
Proof.
  eexists. split; [vm_compute; reflexivity|]. split; [reflexivity|].
  vm_compute. discriminate.
Qed.

Lemma top_predictions_ranked_witness :
  exists result,
    @get_top_predictions uncased (lit "coffee") (lit "Starbucks") 2
      (Toy.loaded Toy.model)
    = (Return result,
       log_proba_call (lit "coffee coffee starbucks") (Toy.loaded Toy.model)) /\
    List.length result = 2%nat /\
    descending (map snd result).
Proof.
  destruct (proj2 (@top_predictions_ranked uncased (Toy.loaded Toy.model) Toy.model
                     (lit "coffee") (lit "Starbucks") 2%Z eq_refl))
    as (result & Hrun & _ & Hlen & Hdesc & _).
  - vm_compute. discriminate.
  - split; vm_compute; [discriminate|reflexivity].
  - exists result. split; [exact Hrun|]. split.
    + apply Hlen. vm_compute. split; discriminate.
    + apply Hdesc. repeat constructor.
Defined.

(* ================================================================== *)
(** ** The trainer: claims C3 and C4 *)

Section DistinctFacts.

Lemma str_eqb_eq a b : str_eqb a b = true <-> a = b.
Proof.
  revert b. induction a as [|x a IH]; intros [|y b]; simpl;
    try (split; [discriminate|congruence]); [tauto|].
  rewrite andb_true_iff, N.eqb_eq, IH. split; [intros [-> ->]; reflexivity|].
  intros E. injection E as -> ->. auto.
Qed.

Lemma existsb_str_In c l : existsb (str_eqb c) l = true <-> In c l.
Proof.
  rewrite existsb_exists. split.
  - intros (x & Hx & E). apply str_eqb_eq in E. subst. exact Hx.
  - intros H. exists c. split; [exact H|]. apply str_eqb_eq. reflexivity.
Qed.

Lemma distinct_In c l : In c (distinct l) <-> In c l.
Proof.
  induction l as [|x l IH]; simpl; [tauto|].
  destruct (existsb (str_eqb x) l) eqn:E.
  - rewrite IH. split; [auto|]. intros [<-|H]; [|exact H].
    apply existsb_str_In. exact E.
  - simpl. rewrite IH. tauto.
Qed.

Lemma distinct_NoDup l : NoDup (distinct l).
Proof.
  induction l as [|x l IH]; simpl; [constructor|].
  destruct (existsb (str_eqb x) l) eqn:E; [exact IH|].
  constructor; [|exact IH]. rewrite distinct_In. intros H.
  apply existsb_str_In in H. congruence.
Qed.

(** Fewer than two distinct labels: all labels are the same. *)
Lemma distinct_few l :
  (List.length (distinct l) < 2)%nat <->
  (forall a b, In a l -> In b l -> a = b).
Proof.
  split.
  - intros Hlen a b Ha Hb. apply distinct_In in Ha, Hb.
    destruct (distinct l) as [|x [|y rest]]; simpl in *; try lia; try tauto.
    destruct Ha as [<-|[]], Hb as [<-|[]]. reflexivity.
  - intros Hall. pose proof (distinct_NoDup l) as Hnd.
    destruct (distinct l) as [|x [|y rest]] eqn:E; simpl; try lia.
    exfalso. inversion Hnd as [|? ? Hx _]; subst. apply Hx.
    assert (x = y) as ->; [|left; reflexivity].
    apply Hall; apply distinct_In; rewrite E; simpl; auto.
Qed.

Lemma distinct_few_incl a b :
  incl a b -> (List.length (distinct b) < 2)%nat -> (List.length (distinct a) < 2)%nat.
Proof.
  intros Hincl Hb. apply distinct_few. intros x y Hx Hy.
  eapply distinct_few; eauto.
Qed.

End DistinctFacts.

Section TrainerFacts.
Context {U : UnicodeData} {E : Environment}.

(** A turn of the loop only calls the library: it leaves the classifier and
    the model file alone. *)
Lemma train_iteration_state X_train X_test y_train y_test best iteration st :
  snd (train_iteration X_train X_test y_train y_test best iteration st) = st.
Proof.
  unfold train_iteration. destruct best as [[bp ba] bc].
  unfold bind, lift, ret.
  destruct (fit _ _ _); [|reflexivity].
  destruct (cross_val_mean _ _ _); [|reflexivity].
  destruct (_ <? _)%float; reflexivity.
Qed.

Lemma foldM_state {A B} (f : B -> A -> Py B) l :
  (forall b a st, snd (f b a st) = st) ->
  forall b st, snd (foldM f l b st) = st.
Proof.
  intros Hf. induction l as [|a l IH]; intros b st; [reflexivity|].
  cbn [foldM]. unfold bind. specialize (Hf b a st).
  destruct (f b a st) as [[b'|e] st']; simpl in Hf; subst; [apply IH|reflexivity].
Qed.

(** The two ways [_train_and_save] ends.  When it raises, [self.pipeline]
    and the record of model calls are as before.  When it returns, an
    artifact was written without error and [self.pipeline] is the
    artifact's pipeline. *)
Lemma train_outcome st :
  match _train_and_save st with
  | (Raise _, st') =>
      pipeline st' = pipeline st /\ proba_calls st' = proba_calls st
  | (Return _, st') =>
      exists a,
        joblib_dump a (model_file st) = (Return tt, model_file st') /\
        pipeline st' = Some (art_pipeline a)
  end.
Proof.
  unfold _train_and_save, bind at 1, lift at 1.
  destruct read_csv as [df|e]; [|auto].
  destruct (negb (has_required_columns df)); [unfold raise; auto|].
  cbv zeta. unfold bind at 1, lift at 1.
  destruct (train_test_split _ _) as [[[[X_train X_test] y_train] y_test]|e]; [|auto].
  unfold bind at 1.
  pose proof (foldM_state (train_iteration X_train X_test y_train y_test)
                (seq 0 N_TRAINING_ITERATIONS)
                (train_iteration_state X_train X_test y_train y_test)
                (None, 0%float, 0%float) st) as Hst.
  destruct (foldM _ _ _ st) as [[[[[best|] acc] cv]|e] st1]; simpl in Hst; subst st1;
    [|unfold raise; auto|auto].
  unfold bind, call_joblib_dump, assign_pipeline.
  destruct (joblib_dump _ (model_file st)) as [[[]|e] written] eqn:Hdump; simpl.
  - eexists. split; [exact Hdump|reflexivity].
  - auto.
Qed.

End TrainerFacts.

Section TrainerClaims.
Context {U : UnicodeData} {E : Environment}.

(** C3.  The trainer has no check of its own on the number of categories;
    it hands the filtered lines to the stratified split and to the fit.
    Stated with what scikit-learn documents of the two: the training labels
    of a split are among the labels it was given, and the fit of the
    logistic regression raises on labels of fewer than two classes.  Then,
    when fewer than two distinct categories are left after the lines without
    feature text and the categories below [MIN_SAMPLES_PER_CLASS] are
    dropped, [_train_and_save] raises: the error of the split, or else the
    error of the first fit.  Nothing is written and no pipeline is set. *)
Theorem train_needs_two_classes st df :
  (forall X y X_train X_test y_train y_test,
      train_test_split X y = Return (X_train, X_test, y_train, y_test) ->
      incl y_train y) ->
  (forall seed X y,
      (List.length (distinct y) < 2)%nat -> exists e, fit seed X y = Raise e) ->
  read_csv = Return df ->
  has_required_columns df = true ->
  (List.length (distinct (map category (training_rows df))) < 2)%nat ->
  exists e,
    _train_and_save st = (Raise e, st) /\
    let X := map text (training_rows df) in
    let y := map category (training_rows df) in
    (train_test_split X y = Raise e \/
     exists X_train X_test y_train y_test,
       train_test_split X y = Return (X_train, X_test, y_train, y_test) /\
       fit 42 X_train y_train = Raise e).
Proof.
  intros Hsplit Hfit Hread Hcols Hfew.
  unfold _train_and_save, bind at 1, lift at 1. rewrite Hread, Hcols.
  cbv zeta. cbn [negb]. unfold bind at 1, lift at 1.
  destruct (train_test_split _ _) as [[[[X_train X_test] y_train] y_test]|e] eqn:Es.
  - assert (Hy : (List.length (distinct y_train) < 2)%nat).
    { eapply distinct_few_incl; [|exact Hfew]. eapply Hsplit; eauto. }
    destruct (Hfit 42%nat X_train y_train Hy) as [e He].
    exists e. split.
    + unfold bind at 1. cbn [N_TRAINING_ITERATIONS seq foldM].
      unfold bind at 1. unfold train_iteration at 1, bind at 1, lift at 1.
      cbn [Nat.add]. rewrite He. reflexivity.
    + right. do 4 eexists. split; [reflexivity|exact He].
  - exists e. split; [reflexivity|left; reflexivity].
Qed.

(** C4, as amended.  When [_train_and_save] raises, whatever the cause and
    so also when writing the artifact fails, [self.pipeline] is what it was
    before training: the best candidate is not adopted.  When the data set
    is read, the split and the loop succeed and select a best candidate, and
    [joblib.dump] of the artifact with that candidate raises [e], then
    [_train_and_save] raises that same [e]: nothing has changed but the
    model file, which is what the failed write left, and [self.pipeline] is
    as before.  When [_train_and_save] returns, the artifact has been
    written without error and [self.pipeline] is the pipeline in it. *)
Theorem train_adopts_after_write st :
  (forall e st', _train_and_save st = (Raise e, st') -> pipeline st' = pipeline st) /\
  (forall df X_train X_test y_train y_test best_pipeline best_accuracy best_cv_score
          e written,
      read_csv = Return df ->
      has_required_columns df = true ->
      train_test_split (map text (training_rows df)) (map category (training_rows df))
      = Return (X_train, X_test, y_train, y_test) ->
      fst (foldM (train_iteration X_train X_test y_train y_test)
                 (seq 0 N_TRAINING_ITERATIONS) (None, 0%float, 0%float) st)
      = Return (Some best_pipeline, best_accuracy, best_cv_score) ->
      joblib_dump {| art_pipeline := best_pipeline;
                     art_accuracy := best_accuracy;
                     art_cv_score := best_cv_score |} (model_file st)
      = (Raise e, written) ->
      _train_and_save st = (Raise e, set_model_file written st) /\
      pipeline (set_model_file written st) = pipeline st) /\
  (forall st',
      _train_and_save st = (Return tt, st') ->
      exists a,
        joblib_dump a (model_file st) = (Return tt, model_file st') /\
        pipeline st' = Some (art_pipeline a)).
Proof.
  split; [|split].
  - intros e st' Hrun. pose proof (train_outcome st) as H.
    rewrite Hrun in H. apply H.
  - intros df X_train X_test y_train y_test best_pipeline best_accuracy best_cv_score
           e written Hread Hcols Hsplit Hloop Hdump.
    split; [|reflexivity].
    pose proof (foldM_state (train_iteration X_train X_test y_train y_test)
                  (seq 0 N_TRAINING_ITERATIONS)
                  (train_iteration_state X_train X_test y_train y_test)
                  (None, 0%float, 0%float) st) as Hst.
    unfold _train_and_save, bind at 1, lift at 1. rewrite Hread, Hcols.
    cbn [negb]. cbv zeta. unfold bind at 1, lift at 1. rewrite Hsplit.
    unfold bind at 1.
    destruct (foldM _ _ _ st) as [outcome st1]. cbn [fst snd] in Hloop, Hst.
    subst outcome st1.
    unfold bind, call_joblib_dump. rewrite Hdump. reflexivity.
  - intros st' Hrun. pose proof (train_outcome st) as H.
    rewrite Hrun in H. exact H.
Qed.

End TrainerClaims.

(** The spec's data set with categories A (five lines) and B (one line):
    B is dropped, one category is left, and training raises. *)
Lemma train_needs_two_classes_witness :
  map category (@training_rows uncased ToyEnv.lopsided)
  = [lit "A"; lit "A"; lit "A"; lit "A"; lit "A"] /\
  exists e,
    @_train_and_save uncased (ToyEnv.env ToyEnv.lopsided ToyEnv.dump_ok) Toy.fresh
    = (Raise e, Toy.fresh).
Proof.
  split; [reflexivity|].
  destruct (@train_needs_two_classes uncased (ToyEnv.env ToyEnv.lopsided ToyEnv.dump_ok)
              Toy.fresh ToyEnv.lopsided) as (e & Hrun & _).
  - intros X y X_train X_test y_train y_test Eq. simpl in Eq.
    injection Eq as _ _ <- _. apply incl_refl.
  - intros seed X y Hy. simpl. apply Nat.ltb_lt in Hy. rewrite Hy. eexists. reflexivity.
  - reflexivity.
  - reflexivity.
  - vm_compute. lia.
  - exists e. exact Hrun.
Defined.

(** C4 as stated fails: on a data set of two categories every fit and score
    succeeds and the write fails; training raises the write's error,
    [self.pipeline] is still unset and [predict] finds no model, although
    the same run with a working write adopts the best candidate. *)
Lemma train_write_failure_loses_best :
  fst (@_train_and_save uncased (ToyEnv.env ToyEnv.balanced ToyEnv.dump_fails) Toy.fresh)
  = Raise (OSError "No space left on device") /\
  pipeline (snd (@_train_and_save uncased
                   (ToyEnv.env ToyEnv.balanced ToyEnv.dump_fails) Toy.fresh))
  = None /\
  fst (@predict uncased (lit "coffee") (lit "Starbucks")
         (snd (@_train_and_save uncased
                 (ToyEnv.env ToyEnv.balanced ToyEnv.dump_fails) Toy.fresh)))
  = Raise (RuntimeError "Model not loaded") /\
  pipeline (snd (@_train_and_save uncased
                   (ToyEnv.env ToyEnv.balanced ToyEnv.dump_ok) Toy.fresh))
  = Some Toy.model2.
Proof. repeat split; vm_compute; reflexivity. Qed.

(** On the data set of two categories with a write that fails, training
    raises the error of the write and leaves the pipeline unset. *)
Lemma train_adopts_after_write_witness :
  @_train_and_save uncased (ToyEnv.env ToyEnv.balanced ToyEnv.dump_fails) Toy.fresh
  = (Raise (OSError "No space left on device"), set_model_file Damaged Toy.fresh) /\
  pipeline (set_model_file Damaged Toy.fresh) = pipeline Toy.fresh.
Proof.
  apply (proj1 (proj2 (@train_adopts_after_write uncased
                         (ToyEnv.env ToyEnv.balanced ToyEnv.dump_fails) Toy.fresh))
           ToyEnv.balanced
           (map text (@training_rows uncased ToyEnv.balanced)) []
           (map category (@training_rows uncased ToyEnv.balanced)) []
           Toy.model2 1.0%float 0.9%float).
  - reflexivity.
  - reflexivity.
  - vm_compute. reflexivity.
  - vm_compute. reflexivity.
  - reflexivity.
Defined.

(* ================================================================== *)
(** ** Runs on concrete inputs *)

Example clean_text_hello :
  @_clean_text uncased (lit "  Hello,   World!! ") = lit "hello world".
Proof. reflexivity. Qed.

(** Lower-casing comes before the filter, so what a code point beyond ASCII
    leaves behind depends on the Unicode table. *)
Example clean_text_kelvin :
  @_clean_text kelvin_cased [8490%N] = lit "k" /\
  @_clean_text uncased [8490%N] = [].
Proof. split; reflexivity. Qed.

(** A description alone makes two tokens, since it is repeated. *)
Example predict_two_tokens :
  fst (@predict uncased (lit "Taxi") [] (Toy.loaded Toy.model2))
  = Return (Toy.RENT, (0.75 * 0.85)%float).
Proof. vm_compute. reflexivity. Qed.

(** [top_n = 0] slices from position 0 and returns every class. *)
Example top_predictions_zero :
  fst (@get_top_predictions uncased (lit "coffee") (lit "Starbucks") 0
         (Toy.loaded Toy.model))
  = Return [(Toy.FOOD, 0.35%float); (Toy.RENT, 0.33%float); (Toy.FUN, 0.32%float)].
Proof. vm_compute. reflexivity. Qed.

(** Training on two categories with a working write. *)
Example train_balanced :
  @_train_and_save uncased (ToyEnv.env ToyEnv.balanced ToyEnv.dump_ok) Toy.fresh
  = (Return tt,
     {| pipeline := Some Toy.model2;
        model_file := Stored {| art_pipeline := Toy.model2;
                                art_accuracy := 1.0%float;
                                art_cv_score := 0.9%float |};
        proba_calls := [] |}).
Proof. vm_compute. reflexivity. Qed.

(* ================================================================== *)
(** * Further properties of the classifier *)

(** ** Tokens of normalised text *)

Section TokenFacts.

Lemma split_from_app_space cur a c b :
  is_space c = true ->
  split_from cur (a ++ c :: b) = split_from cur a ++ split b.
Proof.
  intros Hc. revert cur. induction a as [|x a IH]; intros cur.
  - cbn [app split_from]. rewrite Hc. destruct cur; reflexivity.
  - cbn [app split_from]. destruct (is_space x).
    + destruct cur; [apply IH|]. cbn [app]. f_equal. apply IH.
    + apply IH.
Qed.

Lemma split_lstrip s : split (lstrip s) = split s.
Proof.
  unfold split. induction s as [|c s IH]; [reflexivity|].
  cbn [lstrip split_from]. destruct (is_space c) eqn:Ec; [exact IH|].
  cbn [split_from]. rewrite Ec. reflexivity.
Qed.

Lemma split_from_spaces cur dropped :
  Forall (fun c => is_space c = true) dropped ->
  split_from cur dropped = split_from cur [].
Proof.
  intros H. revert cur. induction H as [|c dropped Hc Hd IH]; intros cur; [reflexivity|].
  cbn [split_from]. rewrite Hc. destruct cur; [apply IH|].
  rewrite IH. reflexivity.
Qed.

Lemma split_from_app_spaces cur t dropped :
  Forall (fun c => is_space c = true) dropped ->
  split_from cur (t ++ dropped) = split_from cur t.
Proof.
  intros H. revert cur. induction t as [|c t IH]; intros cur.
  - apply split_from_spaces. exact H.
  - cbn [app split_from]. destruct (is_space c); [|apply IH].
    destruct cur; [apply IH|]. f_equal. apply IH.
Qed.

Lemma split_rstrip s : split (rstrip s) = split s.
Proof.
  destruct (rstrip_prefix s) as (dropped & E & Hd).
  rewrite E at 2. unfold split. symmetry. apply split_from_app_spaces. exact Hd.
Qed.

Lemma split_strip s : split (strip s) = split s.
Proof. unfold strip. rewrite split_rstrip. apply split_lstrip. Qed.

(** Collapsing runs of whitespace keeps the tokens.  Inside a run no token
    is being read. *)
Lemma split_from_collapse b cur s :
  (b = true -> cur = []) ->
  split_from cur (collapse_ws b s) = split_from cur s.
Proof.
  revert b cur. induction s as [|c s IH]; intros b cur Hb; [reflexivity|].
  cbn [collapse_ws split_from]. destruct (is_space c) eqn:Ec.
  - destruct b.
    + rewrite (Hb eq_refl). apply IH. reflexivity.
    + cbn [split_from]. rewrite space_is_space.
      destruct cur; [|f_equal]; apply IH; reflexivity.
  - cbn [split_from]. rewrite Ec. apply IH. discriminate.
Qed.

Lemma join_space_cons p parts :
  parts <> [] -> join_space (p :: parts) = p ++ SPACE :: join_space parts.
Proof. destruct parts; [congruence|reflexivity]. Qed.

(** Clean single-spaced text without a trailing space is read back by
    joining its tokens; between tokens it must not start with a space. *)
Lemma join_split_from cur s :
  (cur = [] -> no_leading_space s) ->
  Forall clean_char s -> single_spaced s -> no_trailing_space s ->
  join_space (split_from cur s) = cur ++ s.
Proof.
  intros Hcur Hc. revert cur Hcur.
  induction Hc as [|c s Hc Hs IH]; intros cur Hcur Hsing Htrail.
  - destruct cur; [reflexivity|]. cbn [split_from join_space].
    rewrite app_nil_r. reflexivity.
  - assert (Htrail' : no_trailing_space s).
    { intros front d Eq. apply (Htrail (c :: front) d). rewrite Eq. reflexivity. }
    pose proof (single_spaced_tail _ _ Hsing) as Hsing'.
    cbn [split_from]. destruct Hc as [Hc| ->].
    + rewrite (alnum_not_space _ Hc).
      rewrite IH by (auto; destruct cur; discriminate).
      rewrite <- app_assoc. reflexivity.
    + rewrite space_is_space. destruct cur as [|k cur].
      { specialize (Hcur eq_refl SPACE s eq_refl). discriminate. }
      destruct s as [|d s].
      { specialize (Htrail [] SPACE eq_refl). discriminate. }
      assert (Hd : is_space d = false).
      { inversion Hs as [|? ? Hdc _]; subst. destruct Hdc as [Hdc| ->].
        - apply alnum_not_space. exact Hdc.
        - simpl in Hsing. tauto. }
      assert (Hlead : no_leading_space (d :: s)).
      { intros d' rest Eq. injection Eq as <- _. exact Hd. }
      rewrite join_space_cons.
      * rewrite (IH [] (fun _ => Hlead) Hsing' Htrail'). reflexivity.
      * cbn [split_from]. rewrite Hd. intros E.
        assert (Hne : [] ++ [d] <> []) by discriminate.
        pose proof (@split_from_token ([] ++ [d]) s Hne) as Hlen.
        rewrite E in Hlen. simpl in Hlen. lia.
Qed.

Lemma join_split_normalised s : normalised s -> join_space (split s) = s.
Proof.
  intros [Hc Hs Hl Ht]. apply (@join_split_from [] s); auto.
Qed.

End TokenFacts.

Section TokenShape.

(** Every token is non-empty, free of whitespace, and made of code points
    of the text (or of the token that was being read). *)
Lemma split_from_tokens (P : codepoint -> Prop) cur s :
  Forall (fun c => is_space c = false /\ P c) cur ->
  Forall P s ->
  Forall (fun tok => tok <> [] /\ Forall (fun c => is_space c = false /\ P c) tok)
         (split_from cur s).
Proof.
  intros Hcur Hs. revert cur Hcur.
  induction Hs as [|c s Hc Hs IH]; intros cur Hcur.
  - destruct cur; cbn [split_from]; constructor; [|constructor].
    split; [discriminate|exact Hcur].
  - cbn [split_from]. destruct (is_space c) eqn:Ec.
    + destruct cur; [apply IH; constructor|].
      constructor; [split; [discriminate|exact Hcur]|apply IH; constructor].
    + apply IH. apply Forall_app. split; [exact Hcur|].
      constructor; [split; assumption|constructor].
Qed.

End TokenShape.

(** ** The text normaliser, further *)

Section NormaliserExtras.
Context {U : UnicodeData}.

(** X1. [_clean_text] is the space-join of the tokens of the lower-cased,
    filtered text: the output is [" ".join(t.split())] for
    [t = re.sub(r"[^a-z0-9\s]", " ", text.lower())], it has exactly those
    tokens, and each token is a non-empty run of [[a-z0-9]]. *)
Theorem clean_text_joins_tokens text :
  _clean_text text = join_space (split (sub_non_alnum (lower text))) /\
  split (_clean_text text) = split (sub_non_alnum (lower text)) /\
  Forall (fun tok => tok <> [] /\ Forall (fun c => is_lower_alnum c = true) tok)
         (split (_clean_text text)).
Proof.
  assert (Htok : split (_clean_text text) = split (sub_non_alnum (lower text))).
  { unfold _clean_text. destruct text as [|c text]; [reflexivity|].
    cbn [is_empty]. cbv zeta. rewrite split_strip. unfold sub_ws, split.
    apply split_from_collapse. discriminate. }
  split; [|split; [exact Htok|]].
  - rewrite <- Htok. symmetry. apply join_split_normalised, clean_text_normalised.
  - pose proof (norm_chars (clean_text_normalised text)) as Hc.
    pose proof (@split_from_tokens clean_char [] (_clean_text text)
                  (Forall_nil _) Hc) as H.
    eapply Forall_impl; [|exact H]. intros tok [Hne Htk]. split; [exact Hne|].
    eapply Forall_impl; [|exact Htk]. intros c [Hs [Ha| ->]]; [exact Ha|discriminate].
Qed.

(** X3. The tokens of the feature text are the tokens of the normalised
    description, the same tokens again, and the tokens of the normalised
    merchant. *)
Theorem combine_tokens description merchant :
  split (_combine description merchant)
  = split (_clean_text description) ++ split (_clean_text description)
    ++ split (_clean_text merchant).
Proof.
  unfold _combine. cbv zeta. rewrite split_strip. unfold split at 1.
  rewrite split_from_app_space by reflexivity. f_equal.
  unfold split at 1. rewrite split_from_app_space by reflexivity. reflexivity.
Qed.

Lemma lower_ascii_case s t :
  Forall (fun c => (c <? 128)%N = true) s ->
  Forall (fun c => (c <? 128)%N = true) t ->
  map ascii_lower s = map ascii_lower t ->
  _clean_text s = _clean_text t.
Proof.
  intros Hs Ht Heq. unfold _clean_text, lower.
  rewrite (lower_from_ascii [] Hs), (lower_from_ascii [] Ht), Heq.
  destruct s, t; try discriminate; reflexivity.
Qed.

End NormaliserExtras.

(** ** The predictor, further *)

Section PredictorExtras.
Context {U : UnicodeData}.

Local Open Scope float_scope.

Lemma predict_by_feature_text d m d' m' :
  _combine d m = _combine d' m' ->
  (forall st, predict d m st = predict d' m' st) /\
  (forall top_n st,
      get_top_predictions d m top_n st = get_top_predictions d' m' top_n st).
Proof.
  intros E. split; intros; [unfold predict|unfold get_top_predictions];
    unfold bind, get_pipeline; destruct (pipeline st); try reflexivity;
    cbv zeta; rewrite E; reflexivity.
Qed.

Lemma is_ascii_Forall s :
  is_ascii s = true -> Forall (fun c => (c <? 128)%N = true) s.
Proof. unfold is_ascii. intros H. apply Forall_forall. apply forallb_forall. exact H. Qed.

(** X2. Letter case of ASCII text does not matter: a description and a
    merchant that differ from another pair only in the case of ASCII
    letters give the same feature text, the same answer of [predict] and
    the same answer of [get_top_predictions]. *)
Theorem predict_ignores_ascii_case d m d' m' :
  is_ascii d = true -> is_ascii d' = true ->
  is_ascii m = true -> is_ascii m' = true ->
  map ascii_lower d = map ascii_lower d' ->
  map ascii_lower m = map ascii_lower m' ->
  _combine d m = _combine d' m' /\
  (forall st, predict d m st = predict d' m' st) /\
  (forall top_n st,
      get_top_predictions d m top_n st = get_top_predictions d' m' top_n st).
Proof.
  intros Hd Hd' Hm Hm' Ed Em.
  assert (E : _combine d m = _combine d' m').
  { unfold _combine.
    rewrite (lower_ascii_case (is_ascii_Forall _ Hd) (is_ascii_Forall _ Hd') Ed).
    rewrite (lower_ascii_case (is_ascii_Forall _ Hm) (is_ascii_Forall _ Hm') Em).
    reflexivity. }
  split; [exact E|]. apply predict_by_feature_text. exact E.
Qed.

Lemma token_count_zero text : token_count (_clean_text text) = 0%nat <-> _clean_text text = [].
Proof.
  unfold token_count. split.
  - intros H. rewrite <- (join_split_normalised (clean_text_normalised text)).
    destruct (split (_clean_text text)); [reflexivity|discriminate].
  - intros ->. reflexivity.
Qed.

(** X4. The number of tokens that [predict] counts is twice the number of
    tokens of the normalised description plus that of the normalised
    merchant.  So the factor 0.70 is applied exactly when the description
    normalises to nothing and the merchant to one token; the factor 0.85
    when the description has one token and the merchant none, or the
    description none and the merchant two; and any description with a
    letter or digit makes at least two tokens. *)
Theorem predict_counts_description_twice st model description merchant :
  let text := _combine description merchant in
  let proba := predict_proba model text in
  let td := token_count (_clean_text description) in
  let tm := token_count (_clean_text merchant) in
  pipeline st = Some model ->
  text <> [] ->
  answers model text ->
  token_count text = (2 * td + tm)%nat /\
  (_clean_text description <> [] -> (2 <= token_count text)%nat) /\
  exists raw label confidence,
    Numpy.max proba = Return raw /\
    fst (predict description merchant st) = Return (label, confidence) /\
    (td = 0%nat /\ tm = 1%nat -> confidence = raw * 0.7) /\
    ((td = 1%nat /\ tm = 0%nat) \/ (td = 0%nat /\ tm = 2%nat) ->
     confidence = raw * 0.85) /\
    ((3 <= 2 * td + tm)%nat -> confidence = raw).
Proof.
  intros text proba td tm Hp Htext Hans.
  assert (Hn : token_count text = (2 * td + tm)%nat).
  { unfold token_count, text. rewrite combine_tokens, !length_app.
    unfold td, tm, token_count. lia. }
  split; [exact Hn|]. split.
  - intros Hd. rewrite Hn.
    assert (td <> 0%nat) by (unfold td; rewrite token_count_zero; exact Hd). lia.
  - destruct (predict_run st description merchant Hp Htext Hans)
      as (i & label & raw & _ & Hm & _ & _ & Hrun).
    fold text in Hrun. fold (token_count text) in Hrun. rewrite Hn in Hrun.
    exists raw. eexists. exists (discount (2 * td + tm) raw).
    split; [exact Hm|]. split; [rewrite Hrun; reflexivity|].
    repeat split.
    + intros [-> ->]. reflexivity.
    + intros [[-> ->]|[-> ->]]; reflexivity.
    + intros H3. unfold discount.
      destruct (2 * td + tm)%nat as [|[|[|n]]]; try lia. reflexivity.
Qed.

(** X5. With no model loaded, [predict], [predict_simple] and
    [get_top_predictions] raise [RuntimeError("Model not loaded")] and
    change nothing; the check comes before the feature text is looked at,
    so this also holds for an empty description and merchant. *)
Theorem predict_without_model st description merchant top_n :
  pipeline st = None ->
  predict description merchant st = (Raise (RuntimeError "Model not loaded"), st) /\
  predict_simple description merchant st
  = (Raise (RuntimeError "Model not loaded"), st) /\
  get_top_predictions description merchant top_n st
  = (Raise (RuntimeError "Model not loaded"), st).
Proof.
  intros Hp. unfold predict_simple, predict, get_top_predictions, bind, get_pipeline.
  rewrite Hp. repeat split.
Qed.

End PredictorExtras.

Lemma predict_ignores_ascii_case_witness :
  @_combine uncased (lit "COFFEE!") (lit "StarBucks")
  = @_combine uncased (lit "Coffee!") (lit "starbucks").
Proof.
  apply (@predict_ignores_ascii_case uncased); reflexivity.
Defined.

Lemma predict_counts_description_twice_witness :
  @token_count (@_combine uncased (lit "Taxi") []) = 2%nat /\
  (2 <= @token_count (@_combine uncased (lit "Taxi") []))%nat.
Proof.
  destruct (@predict_counts_description_twice uncased (Toy.loaded Toy.model)
              Toy.model (lit "Taxi") []) as (Hn & H2 & _).
  - reflexivity.
  - vm_compute. discriminate.
  - split; vm_compute; [discriminate|reflexivity].
  - split; [exact Hn|]. apply H2. vm_compute. discriminate.
Defined.

Lemma predict_without_model_witness :
  @predict uncased [] [] Toy.fresh
  = (Raise (RuntimeError "Model not loaded"), Toy.fresh).
Proof.
  apply (proj1 (@predict_without_model uncased Toy.fresh [] [] 3%Z eq_refl)).
Defined.

(** ** The ranked predictions, further *)

Module SortPermutation.

Import Numpy FloatOrder.
Local Open Scope float_scope.

Lemma insert_sorted_perm x l : Permutation (insert_sorted x l) (x :: l).
Proof.
  induction l as [|y l IH]; simpl; [reflexivity|].
  destruct (sort_lt (snd y) (snd x)); [|reflexivity].
  rewrite IH. apply perm_swap.
Qed.

(** Sorting rearranges the pairs and loses none. *)
Lemma sorted_pairs_perm xs : Permutation (sorted_pairs xs) (enumerate_from 0 xs).
Proof.
  unfold sorted_pairs. induction (enumerate_from 0 xs) as [|p l IH]; simpl; [reflexivity|].
  rewrite insert_sorted_perm, IH. reflexivity.
Qed.

Lemma enumerate_values {A} i (xs : list A) : map snd (enumerate_from i xs) = xs.
Proof. revert i. induction xs as [|x xs IH]; intros i; simpl; [|rewrite IH]; reflexivity. Qed.

Lemma sorted_values_perm xs : Permutation (map snd (sorted_pairs xs)) xs.
Proof.
  rewrite <- (enumerate_values 0 xs) at 2. apply Permutation_map, sorted_pairs_perm.
Qed.

Lemma SFleb_antisym x y : SFleb x y = true -> SFleb y x = true -> SFeqb x y = true.
Proof.
  unfold SFleb, SFeqb, SFcompare.
  change (Pos.compare_cont Eq) with Pos.compare.
  by_cases x; by_cases y; intros H1 H2;
    compare_cases; try reflexivity; try discriminate; lia.
Qed.

(** Two numbers that are each at most the other are equal as numbers. *)
Lemma leb_antisym x y : (x <=? y) = true -> (y <=? x) = true -> (x =? y) = true.
Proof. rewrite !FloatAxioms.leb_spec, FloatAxioms.eqb_spec. apply SFleb_antisym. Qed.

Lemma ascending_last vs v :
  ascending (vs ++ [v]) -> Forall (fun r => (r <=? v) = true) vs.
Proof.
  induction vs as [|r vs IH]; intros H; [constructor|].
  destruct H as [Hr H]. constructor; [|apply IH; exact H].
  apply Forall_app in Hr. destruct Hr as [_ Hr]. inversion Hr; assumption.
Qed.

End SortPermutation.

Section TopPredictionsExtras.

Lemma mapM_lookup_map (classes : list str) (proba : list float) tp st :
  Forall (fun p => nth_error proba (fst p) = Some (snd p)) tp ->
  Forall (fun p => (fst p < List.length classes)%nat) tp ->
  mapM (fun i => c <- lift (getitem classes i) ;;
                 q <- lift (getitem proba i) ;;
                 ret (c, q))
       (map fst tp) st
  = (Return (map (fun p => (nth (fst p) classes [], snd p)) tp), st).
Proof.
  induction tp as [|[i q] tp IH]; intros Hq Hc; [reflexivity|].
  inversion Hq as [|? ? Hq1 Hq2]; inversion Hc as [|? ? Hc1 Hc2]; subst.
  specialize (IH Hq2 Hc2). simpl in Hq1, Hc1.
  destruct (nth_error classes i) as [c|] eqn:Ec;
    [|apply nth_error_None in Ec; lia].
  cbn [map mapM fst snd]. unfold bind, lift, getitem, ret in *.
  rewrite Ec, Hq1, IH. rewrite (nth_error_nth _ _ _ Ec). reflexivity.
Qed.

Lemma skipn_cons_nth {A} (d : A) (l : list A) i :
  (i < List.length l)%nat -> skipn i l = nth i l d :: skipn (S i) l.
Proof.
  revert i. induction l as [|x l IH]; intros i Hi; [simpl in Hi; lia|].
  destruct i as [|i]; [reflexivity|].
  simpl in Hi. cbn [skipn nth]. apply IH. lia.
Qed.

Lemma lookup_enumerate (classes : list str) (xs : list float) i :
  (i + List.length xs <= List.length classes)%nat ->
  map (fun p => (nth (fst p) classes [], snd p)) (Numpy.enumerate_from i xs)
  = combine (skipn i classes) xs.
Proof.
  revert i. induction xs as [|x xs IH]; intros i Hlen.
  - simpl. destruct (skipn i classes); reflexivity.
  - cbn [Numpy.enumerate_from map fst snd]. simpl in Hlen.
    rewrite IH by lia.
    rewrite (@skipn_cons_nth str [] classes i) by lia. reflexivity.
Qed.

Context {U : UnicodeData}.

(** The answer of [get_top_predictions], written out. *)
Lemma top_predictions_exact st model description merchant top_n :
  let text := _combine description merchant in
  let proba := predict_proba model text in
  pipeline st = Some model ->
  text <> [] ->
  answers model text ->
  get_top_predictions description merchant top_n st
  = (Return (map (fun p => (nth (fst p) (classes_ model) [], snd p))
                 (rev (slice_from (- top_n) (sorted_pairs proba)))),
     log_proba_call text st).
Proof.
  intros text proba Hp Htext [Hne Hlen].
  set (tp := rev (slice_from (- top_n) (sorted_pairs proba))).
  assert (Hq : Forall (fun p => nth_error proba (fst p) = Some (snd p)) tp).
  { apply Forall_rev, slice_from_Forall, SortFacts.sorted_pairs_lookup. }
  assert (Hc : Forall (fun p => (fst p < List.length (classes_ model))%nat) tp).
  { eapply Forall_impl; [|exact Hq]. intros p Hnth. cbv beta in Hnth.
    fold proba in Hlen. rewrite <- Hlen. apply nth_error_Some. rewrite Hnth. discriminate. }
  unfold get_top_predictions, bind at 1, get_pipeline. rewrite Hp. cbv zeta.
  fold text. rewrite (is_empty_false Htext).
  unfold bind at 1, call_predict_proba. fold proba.
  rewrite SortFacts.argsort_pairs, slice_from_map, <- map_rev.
  apply mapM_lookup_map; assumption.
Qed.

End TopPredictionsExtras.

Section TopPredictionsExtraClaims.
Context {U : UnicodeData}.

Local Open Scope float_scope.

(** X6. With a model loaded, a non-empty feature text and probabilities
    that are numbers, the first entry of [get_top_predictions], for any
    [top_n >= 1], is a class of the model with its probability, and that
    probability equals the raw confidence of [predict], the maximum that
    [np.max] returns. *)
Theorem top_prediction_is_maximum st model description merchant top_n :
  let text := _combine description merchant in
  let proba := predict_proba model text in
  pipeline st = Some model ->
  text <> [] ->
  answers model text ->
  no_nan proba ->
  (1 <= top_n)%Z ->
  exists label q rest raw i,
    fst (get_top_predictions description merchant top_n st)
    = Return ((label, q) :: rest) /\
    nth_error (classes_ model) i = Some label /\
    nth_error proba i = Some q /\
    Numpy.max proba = Return raw /\
    (q =? raw) = true.
Proof.
  intros text proba Hp Htext Hans Hnan Hk.
  pose proof (top_predictions_exact st description merchant top_n Hp Htext Hans) as Hrun.
  fold text in Hrun. fold proba in Hrun.
  destruct Hans as [Hne Hlen]. fold proba in Hne, Hlen.
  destruct (NumpyFacts.argmax_max Hne) as (imax & raw & _ & Hmax & Hraw).
  (* the sorted pairs end with some pair [x] *)
  assert (Hsp : sorted_pairs proba <> []).
  { intros E. pose proof (SortFacts.sorted_pairs_length proba) as Hl.
    rewrite E in Hl. destruct proba; [congruence|discriminate]. }
  destruct (exists_last Hsp) as (front & [ix q] & Esp).
  assert (Hslice : slice_from (- top_n) (sorted_pairs proba)
                   = skipn (Z.to_nat (Z.max 0 (Z.of_nat (List.length (sorted_pairs proba)) + - top_n)))
                           front ++ [(ix, q)]).
  { unfold slice_from. destruct (- top_n <? 0)%Z eqn:E; [|apply Z.ltb_ge in E; lia].
    rewrite Esp at 2. rewrite skipn_app.
    replace (Z.to_nat _ - List.length front)%nat with 0%nat; [reflexivity|].
    rewrite Esp, length_app. simpl. lia. }
  rewrite Hslice, rev_app_distr in Hrun. cbn [rev app map fst snd] in Hrun.
  (* [x] is a position of the array with its value *)
  pose proof (SortFacts.sorted_pairs_lookup proba) as Hlook.
  rewrite Esp in Hlook. apply Forall_app in Hlook. destruct Hlook as [_ Hlook].
  inversion Hlook as [|? ? Hx _]; subst. cbn [fst snd] in Hx.
  assert (Hix : (ix < List.length (classes_ model))%nat).
  { rewrite <- Hlen. apply nth_error_Some. rewrite Hx. discriminate. }
  destruct (nth_error (classes_ model) ix) as [label|] eqn:Ec;
    [|apply nth_error_None in Ec; lia].
  exists label, q. eexists. exists raw, ix.
  split; [rewrite Hrun; cbn [fst]; rewrite (nth_error_nth _ _ _ Ec); reflexivity|].
  split; [exact Ec|]. split; [exact Hx|]. split; [exact Hmax|].
  apply SortPermutation.leb_antisym.
  - pose proof (NumpyFacts.max_upper_bound Hnan Hmax) as Hub.
    rewrite Forall_forall in Hub. apply Hub. eapply nth_error_In; eauto.
  - pose proof (SortFacts.sorted_pairs_ascending Hnan) as Hasc.
    rewrite Esp, map_app in Hasc. cbn [map snd] in Hasc.
    pose proof (SortPermutation.ascending_last _ _ Hasc) as Hle.
    assert (Hin : In raw (map snd (sorted_pairs proba))).
    { eapply Permutation_in; [symmetry; apply SortPermutation.sorted_values_perm|].
      eapply nth_error_In; eauto. }
    rewrite Esp, map_app in Hin. cbn [map snd] in Hin.
    apply in_app_or in Hin. destruct Hin as [Hin|[<-|[]]].
    + rewrite Forall_forall in Hle. apply Hle. exact Hin.
    + apply FloatOrder.leb_refl.
      unfold no_nan in Hnan. rewrite Forall_forall in Hnan.
      apply Hnan. eapply nth_error_In; eauto.
Qed.

(** X7. Asked for at least as many predictions as the model has classes,
    or for none at all ([top_n = 0], a slice from position 0),
    [get_top_predictions] returns every class exactly once, each with its
    own probability: the answer is a rearrangement of the classes paired
    with the probabilities. *)
Theorem top_predictions_all_classes st model description merchant top_n :
  let text := _combine description merchant in
  let proba := predict_proba model text in
  pipeline st = Some model ->
  text <> [] ->
  answers model text ->
  (top_n = 0 \/ Z.of_nat (List.length (classes_ model)) <= top_n)%Z ->
  exists result,
    fst (get_top_predictions description merchant top_n st) = Return result /\
    Permutation result (combine (classes_ model) proba).
Proof.
  intros text proba Hp Htext Hans Hk.
  pose proof (top_predictions_exact st description merchant top_n Hp Htext Hans) as Hrun.
  fold text in Hrun. fold proba in Hrun.
  destruct Hans as [Hne Hlen]. fold proba in Hne, Hlen.
  assert (Hslice : slice_from (- top_n) (sorted_pairs proba) = sorted_pairs proba).
  { unfold slice_from. rewrite SortFacts.sorted_pairs_length, Hlen.
    destruct (- top_n <? 0)%Z eqn:E.
    - replace (Z.to_nat _) with 0%nat by lia. reflexivity.
    - apply Z.ltb_ge in E. replace (Z.to_nat _) with 0%nat by lia. reflexivity. }
  rewrite Hslice in Hrun. eexists. split; [rewrite Hrun; reflexivity|].
  assert (Hcomb : (0 + List.length proba <= List.length (classes_ model))%nat)
    by (simpl; lia).
  apply lookup_enumerate in Hcomb. cbn [skipn] in Hcomb. rewrite <- Hcomb.
  apply Permutation_map. rewrite <- Permutation_rev.
  apply SortPermutation.sorted_pairs_perm.
Qed.

End TopPredictionsExtraClaims.

Lemma top_prediction_is_maximum_witness :
  exists label q rest,
    fst (@get_top_predictions uncased (lit "coffee") (lit "Starbucks") 2
           (Toy.loaded Toy.model2))
    = Return ((label, q) :: rest) /\
    (q =? 0.75)%float = true.
Proof.
  destruct (@top_prediction_is_maximum uncased (Toy.loaded Toy.model2) Toy.model2
              (lit "coffee") (lit "Starbucks") 2%Z)
    as (label & q & rest & raw & i & Hrun & _ & _ & Hmax & Heq).
  - reflexivity.
  - vm_compute. discriminate.
  - split; vm_compute; [discriminate|reflexivity].
  - repeat constructor.
  - lia.
  - exists label, q, rest. split; [exact Hrun|].
    vm_compute in Hmax. injection Hmax as <-. exact Heq.
Defined.

Lemma top_predictions_all_classes_witness :
  exists result,
    fst (@get_top_predictions uncased (lit "coffee") (lit "Starbucks") 0
           (Toy.loaded Toy.model))
    = Return result /\
    Permutation result
      [(Toy.FOOD, 0.35%float); (Toy.RENT, 0.33%float); (Toy.FUN, 0.32%float)].
Proof.
  apply (@top_predictions_all_classes uncased (Toy.loaded Toy.model) Toy.model
           (lit "coffee") (lit "Starbucks") 0%Z).
  - reflexivity.
  - vm_compute. discriminate.
  - split; vm_compute; [discriminate|reflexivity].
  - left. reflexivity.
Defined.

(** ** The trainer, further *)

Section TrainingRowsFacts.
Context {U : UnicodeData}.

Lemma filter_filter {A} (f g : A -> bool) l :
  filter f (filter g l) = filter (fun x => g x && f x) l.
Proof.
  induction l as [|x l IH]; [reflexivity|].
  simpl. destruct (g x); simpl; [destruct (f x)|]; rewrite IH; reflexivity.
Qed.

(** Counting a category after the weak categories are dropped: all of its
    lines, or none. *)
Lemma value_count_supported c (data : list Example) :
  value_count c
    (filter (fun r => (MIN_SAMPLES_PER_CLASS <=? value_count (category r) data)%nat) data)
  = if (MIN_SAMPLES_PER_CLASS <=? value_count c data)%nat
    then value_count c data else 0%nat.
Proof.
  unfold value_count at 1. rewrite filter_filter.
  rewrite (filter_ext _
             (fun r => (MIN_SAMPLES_PER_CLASS <=? value_count c data)%nat
                       && str_eqb (category r) c)).
  - destruct (MIN_SAMPLES_PER_CLASS <=? value_count c data)%nat; simpl.
    + reflexivity.
    + induction data; [reflexivity|assumption].
  - intros r. destruct (str_eqb (category r) c) eqn:E.
    + apply str_eqb_eq in E. rewrite E. reflexivity.
    + rewrite !andb_false_r. reflexivity.
Qed.

(** X8. Every line that is left for training has feature text and a
    trimmed category, and every category is either gone or still has at
    least [MIN_SAMPLES_PER_CLASS] lines: dropping the weak categories does
    not make another category weak, and doing it again changes nothing. *)
Theorem training_rows_supported df :
  Forall (fun r => text r <> [] /\ strip (category r) = category r) (training_rows df) /\
  (forall c,
      value_count c (training_rows df) = 0%nat \/
      (MIN_SAMPLES_PER_CLASS <= value_count c (training_rows df))%nat) /\
  Forall (fun r =>
            (MIN_SAMPLES_PER_CLASS <= value_count (category r) (training_rows df))%nat)
         (training_rows df) /\
  filter (fun r => (MIN_SAMPLES_PER_CLASS
                    <=? value_count (category r) (training_rows df))%nat)
         (training_rows df)
  = training_rows df.
Proof.
  assert (Hcount : forall c,
             value_count c (training_rows df) = 0%nat \/
             (MIN_SAMPLES_PER_CLASS <= value_count c (training_rows df))%nat).
  { intros c. unfold training_rows. cbv zeta. rewrite value_count_supported.
    destruct (MIN_SAMPLES_PER_CLASS <=? _)%nat eqn:E; [right|left; reflexivity].
    apply Nat.leb_le. exact E. }
  assert (Hkept : Forall (fun r =>
              (MIN_SAMPLES_PER_CLASS <= value_count (category r) (training_rows df))%nat)
            (training_rows df)).
  { apply Forall_forall. intros r Hr.
    destruct (Hcount (category r)) as [H0|H]; [exfalso|exact H].
    unfold value_count in H0.
    assert (Hin : In r (filter (fun r' => str_eqb (category r') (category r))
                               (training_rows df))).
    { apply filter_In. split; [exact Hr|]. apply str_eqb_eq. reflexivity. }
    destruct (filter _ (training_rows df)); [destruct Hin|discriminate]. }
  split; [|split; [exact Hcount|split; [exact Hkept|]]].
  - apply Forall_forall. intros r Hr. unfold training_rows in Hr. cbv zeta in Hr.
    apply filter_In in Hr. destruct Hr as [Hr _].
    apply filter_In in Hr. destruct Hr as [Hr Htext].
    apply in_map_iff in Hr. destruct Hr as (raw & <- & _). split.
    + destruct (text (prepare raw)); [discriminate|discriminate].
    + cbn [category prepare]. unfold strip at 1.
      apply strip_fixed; unfold strip; [apply rstrip_lead, lstrip_lead|apply rstrip_trail].
  - apply forallb_filter_id. apply forallb_forall. intros r Hr.
    rewrite Forall_forall in Hkept. apply Nat.leb_le. apply Hkept. exact Hr.
Qed.

End TrainingRowsFacts.

Module FloatStrict.

Import FloatOrder.
Local Open Scope float_scope.

Lemma SFleb_ltb_trans x y z :
  SFleb x y = true -> SFltb y z = true -> SFltb x z = true.
Proof.
  unfold SFleb, SFltb, SFcompare.
  change (Pos.compare_cont Eq) with Pos.compare.
  by_cases x; by_cases y; by_cases z; intros H1 H2;
    compare_cases; try reflexivity; try discriminate; lia.
Qed.

Lemma leb_ltb_trans x y z :
  (x <=? y) = true -> (y <? z) = true -> (x <? z) = true.
Proof. rewrite FloatAxioms.leb_spec, !FloatAxioms.ltb_spec. apply SFleb_ltb_trans. Qed.

Lemma ltb_leb x y : (x <? y) = true -> (x <=? y) = true.
Proof. rewrite FloatAxioms.ltb_spec, FloatAxioms.leb_spec. apply SFltb_leb. Qed.

(** A comparison that holds has numbers on both sides. *)
Lemma ltb_not_nan x y : (x <? y) = true -> is_nan x = false /\ is_nan y = false.
Proof.
  unfold is_nan. rewrite FloatAxioms.ltb_spec, !FloatAxioms.eqb_spec.
  unfold SFltb, SFeqb, SFcompare.
  change (Pos.compare_cont Eq) with Pos.compare.
  destruct (Prim2SF x) as [[|]|[|]| |[|] ? ?];
    destruct (Prim2SF y) as [[|]|[|]| |[|] ? ?]; simpl;
    try discriminate; intros _;
    rewrite ?Z.compare_refl, ?Pos.compare_refl; split; reflexivity.
Qed.

End FloatStrict.

Section SelectionFacts.
Context {U : UnicodeData} {E : Environment}.

Local Open Scope float_scope.

(** What [_train_and_save] went through when it returns. *)
Lemma train_success_inv st st' :
  _train_and_save st = (Return tt, st') ->
  exists df X_train X_test y_train y_test best acc cv written,
    read_csv = Return df /\
    has_required_columns df = true /\
    train_test_split (map text (training_rows df)) (map category (training_rows df))
    = Return (X_train, X_test, y_train, y_test) /\
    foldM (train_iteration X_train X_test y_train y_test)
          (seq 0 N_TRAINING_ITERATIONS) (None, 0, 0) st
    = (Return (Some best, acc, cv), st) /\
    joblib_dump {| art_pipeline := best; art_accuracy := acc; art_cv_score := cv |}
                (model_file st)
    = (Return tt, written) /\
    st' = set_pipeline (Some best) (set_model_file written st).
Proof.
  unfold _train_and_save, bind at 1, lift at 1.
  destruct read_csv as [df|e]; [|discriminate].
  destruct (has_required_columns df) eqn:Hcols; [|discriminate].
  cbn [negb]. cbv zeta. unfold bind at 1, lift at 1.
  destruct (train_test_split _ _) as [[[[X_train X_test] y_train] y_test]|e] eqn:Es;
    [|discriminate].
  unfold bind at 1.
  pose proof (foldM_state (train_iteration X_train X_test y_train y_test)
                (seq 0 N_TRAINING_ITERATIONS)
                (train_iteration_state X_train X_test y_train y_test)
                (None, 0, 0) st) as Hst.
  destruct (foldM _ _ _ st) as [[[[[best|] acc] cv]|e] st1] eqn:Eloop;
    simpl in Hst; subst st1; [|discriminate|discriminate].
  unfold bind, call_joblib_dump, assign_pipeline.
  destruct (joblib_dump _ (model_file st)) as [[[]|e] written] eqn:Hdump;
    [|discriminate].
  intros Eq. injection Eq as <-.
  exists df, X_train, X_test, y_train, y_test, best, acc, cv, written.
  repeat split; auto.
Qed.

End SelectionFacts.

Section SelectionLoop.
Context {U : UnicodeData} {E : Environment}.
Variables X_train X_test y_train y_test : list str.

Local Open Scope float_scope.

Lemma train_iteration_selected best i best' st st' :
  train_iteration X_train X_test y_train y_test best i st = (Return best', st') ->
  selected X_train X_test y_train y_test i best ->
  selected X_train X_test y_train y_test (S i) best'.
Proof.
  unfold train_iteration. destruct best as [[choice acc] cv].
  unfold bind, lift, ret.
  destruct (fit (42 + i) X_train y_train) as [p|e] eqn:Efit; [|discriminate].
  destruct (cross_val_mean (42 + i) X_train y_train) as [c|e] eqn:Ecv; [|discriminate].
  intros Hstep (Hnan & Hpos & Hub & Hchoice).
  destruct (cv <? c) eqn:Elt; injection Hstep as <- _.
  - destruct (FloatStrict.ltb_not_nan Elt) as [_ Hc].
    split; [exact Hc|]. split.
    { apply FloatStrict.ltb_leb. eapply FloatStrict.leb_ltb_trans; eauto. }
    split.
    + intros j d Hj Hd Hdn. destruct (Nat.eq_dec j i) as [->|Hne].
      * rewrite Ecv in Hd. injection Hd as <-. apply FloatOrder.leb_refl. exact Hc.
      * eapply FloatOrder.leb_trans; [apply (Hub j d); [lia|assumption..]|].
        apply FloatStrict.ltb_leb. exact Elt.
    + exists i. repeat split; auto.
      eapply FloatStrict.leb_ltb_trans; eauto.
  - split; [exact Hnan|]. split; [exact Hpos|]. split.
    + intros j d Hj Hd Hdn. destruct (Nat.eq_dec j i) as [->|Hne].
      * rewrite Ecv in Hd. injection Hd as <-.
        apply FloatOrder.not_ltb_leb; assumption.
      * apply (Hub j d); [lia|assumption..].
    + destruct choice as [p0|]; [|exact Hchoice].
      destruct Hchoice as (i0 & Hi0 & H). exists i0. split; [lia|exact H].
Qed.

Lemma loop_selected k :
  forall s best best' st st',
    foldM (train_iteration X_train X_test y_train y_test) (seq s k) best st
    = (Return best', st') ->
    selected X_train X_test y_train y_test s best ->
    selected X_train X_test y_train y_test (s + k) best'.
Proof.
  induction k as [|k IH]; intros s best best' st st' Hrun Hsel.
  - cbn [seq foldM] in Hrun. unfold ret in Hrun. injection Hrun as <- _.
    rewrite Nat.add_0_r. exact Hsel.
  - cbn [seq foldM] in Hrun. unfold bind in Hrun.
    destruct (train_iteration X_train X_test y_train y_test best s st)
      as [[b1|e] st1] eqn:Estep; [|discriminate].
    replace (s + S k)%nat with (S s + k)%nat by lia.
    eapply IH; [exact Hrun|]. eapply train_iteration_selected; eauto.
Qed.

(** While no cross-validation mean is positive the loop selects nothing. *)
Lemma loop_selects_nothing k :
  forall s st,
    (forall i, (s <= i < s + k)%nat ->
       (exists p, fit (42 + i) X_train y_train = Return p) /\
       (exists c, cross_val_mean (42 + i) X_train y_train = Return c /\
                  (0 <? c) = false)) ->
    foldM (train_iteration X_train X_test y_train y_test) (seq s k) (None, 0, 0) st
    = (Return (None, 0, 0), st).
Proof.
  induction k as [|k IH]; intros s st Hall; [reflexivity|].
  cbn [seq foldM]. unfold bind at 1.
  destruct (Hall s) as [[p Hp] (c & Hc & Hle)]; [lia|].
  unfold train_iteration at 1, bind, lift. rewrite Hp, Hc, Hle. unfold ret.
  apply IH. intros i Hi. apply Hall. lia.
Qed.

End SelectionLoop.

Section TrainerExtras.
Context {U : UnicodeData} {E : Environment}.

Local Open Scope float_scope.

(** X9. A data set that cannot be read, or that lacks one of the columns
    [description], [merchant], [category], stops training before anything
    is split, fitted or written: the read error, respectively
    [ValueError("Dataset must contain description, merchant, category")],
    is raised and the classifier is as it was.  The column check asks for
    the three names among the columns, in any order, other columns
    allowed. *)
Theorem train_schema_errors st :
  (forall e, read_csv = Raise e -> _train_and_save st = (Raise e, st)) /\
  (forall df,
      read_csv = Return df ->
      (has_required_columns df = true <->
       In (lit "description") (columns df) /\
       In (lit "merchant") (columns df) /\
       In (lit "category") (columns df)) /\
      (has_required_columns df = false ->
       _train_and_save st
       = (Raise (ValueError "Dataset must contain description, merchant, category"),
          st))).
Proof.
  split.
  - intros e He. unfold _train_and_save, bind, lift. rewrite He. reflexivity.
  - intros df Hdf. split.
    + unfold has_required_columns, REQUIRED. cbn [forallb].
      rewrite !andb_true_iff, !existsb_str_In. tauto.
    + intros Hcols. unfold _train_and_save, bind, lift. rewrite Hdf, Hcols. reflexivity.
Qed.

(** X10. If every candidate is fitted and scored but no cross-validation
    mean is above zero, the loop keeps no candidate: [best_pipeline] is
    still [None] when the final report asks for its predictions, so
    training raises [AttributeError]; nothing is written and no pipeline is
    set. *)
Theorem train_without_positive_score st df X_train X_test y_train y_test :
  read_csv = Return df ->
  has_required_columns df = true ->
  train_test_split (map text (training_rows df)) (map category (training_rows df))
  = Return (X_train, X_test, y_train, y_test) ->
  (forall i, (i < N_TRAINING_ITERATIONS)%nat ->
     (exists p, fit (42 + i) X_train y_train = Return p) /\
     (exists c, cross_val_mean (42 + i) X_train y_train = Return c /\
                (0 <? c) = false)) ->
  _train_and_save st
  = (Raise (AttributeError "'NoneType' object has no attribute 'predict'"), st).
Proof.
  intros Hdf Hcols Hsplit Hall.
  unfold _train_and_save, bind at 1, lift at 1. rewrite Hdf, Hcols.
  cbn [negb]. cbv zeta. unfold bind at 1, lift at 1. rewrite Hsplit.
  unfold bind at 1. rewrite loop_selects_nothing; [reflexivity|].
  intros i Hi. apply Hall. lia.
Qed.

(** X11. When training returns, the pipeline it adopts and writes is one of
    the five candidates, the artifact carries that candidate's held-out
    accuracy and cross-validation mean, the mean is above zero, and no
    candidate has a larger cross-validation mean (among the means that are
    numbers). *)
Theorem train_selects_best_score st st' :
  _train_and_save st = (Return tt, st') ->
  exists df X_train X_test y_train y_test a i,
    read_csv = Return df /\
    train_test_split (map text (training_rows df)) (map category (training_rows df))
    = Return (X_train, X_test, y_train, y_test) /\
    joblib_dump a (model_file st) = (Return tt, model_file st') /\
    pipeline st' = Some (art_pipeline a) /\
    (i < N_TRAINING_ITERATIONS)%nat /\
    fit (42 + i) X_train y_train = Return (art_pipeline a) /\
    cross_val_mean (42 + i) X_train y_train = Return (art_cv_score a) /\
    art_accuracy a = accuracy_score y_test (pipeline_predict (art_pipeline a) X_test) /\
    (0 <? art_cv_score a) = true /\
    (forall j c, (j < N_TRAINING_ITERATIONS)%nat ->
       cross_val_mean (42 + j) X_train y_train = Return c ->
       is_nan c = false -> (c <=? art_cv_score a) = true).
Proof.
  intros Hrun.
  destruct (@train_success_inv U E st st' Hrun)
    as (df & X_train & X_test & y_train & y_test & best & acc & cv & written
        & Hdf & _ & Hsplit & Hloop & Hdump & ->).
  assert (Hsel : selected X_train X_test y_train y_test (0 + N_TRAINING_ITERATIONS)
                          (Some best, acc, cv)).
  { eapply loop_selected; [exact Hloop|].
    repeat split; try reflexivity. intros j c Hj. lia. }
  destruct Hsel as (_ & _ & Hub & i & Hi & Hfit & Hcv & Hacc & Hpos).
  exists df, X_train, X_test, y_train, y_test,
    {| art_pipeline := best; art_accuracy := acc; art_cv_score := cv |}, i.
  cbn [art_pipeline art_accuracy art_cv_score pipeline model_file
       set_pipeline set_model_file].
  repeat split; auto.
Qed.

End TrainerExtras.

Lemma train_schema_errors_witness :
  @_train_and_save uncased
    (ToyEnv2.env ToyEnv2.headless ToyEnv2.fitted ToyEnv2.scores ToyEnv.dump_ok) Toy.fresh
  = (Raise (ValueError "Dataset must contain description, merchant, category"),
     Toy.fresh).
Proof.
  apply (proj2 (proj2 (@train_schema_errors uncased
                         (ToyEnv2.env ToyEnv2.headless ToyEnv2.fitted ToyEnv2.scores
                                      ToyEnv.dump_ok)
                         Toy.fresh) ToyEnv2.headless eq_refl)).
  reflexivity.
Defined.

Lemma train_without_positive_score_witness :
  @_train_and_save uncased
    (ToyEnv2.env ToyEnv.balanced ToyEnv2.fitted (fun _ => Return 0%float) ToyEnv.dump_ok)
    Toy.fresh
  = (Raise (AttributeError "'NoneType' object has no attribute 'predict'"), Toy.fresh).
Proof.
  eapply (@train_without_positive_score uncased
            (ToyEnv2.env ToyEnv.balanced ToyEnv2.fitted (fun _ => Return 0%float)
                         ToyEnv.dump_ok)
            Toy.fresh ToyEnv.balanced).
  - reflexivity.
  - reflexivity.
  - reflexivity.
  - intros i Hi. split; eexists; [|split]; reflexivity.
Defined.

Lemma train_selects_best_score_witness :
  exists a,
    pipeline
      (snd (@_train_and_save uncased
              (ToyEnv2.env ToyEnv.balanced ToyEnv2.fitted ToyEnv2.scores ToyEnv.dump_ok)
              Toy.fresh))
    = Some (art_pipeline a) /\
    (0 <? art_cv_score a)%float = true.
Proof.
  destruct (@train_selects_best_score uncased
              (ToyEnv2.env ToyEnv.balanced ToyEnv2.fitted ToyEnv2.scores ToyEnv.dump_ok)
              Toy.fresh
              (snd (@_train_and_save uncased
                      (ToyEnv2.env ToyEnv.balanced ToyEnv2.fitted ToyEnv2.scores
                                   ToyEnv.dump_ok)
                      Toy.fresh)))
    as (df & X_train & X_test & y_train & y_test & a & i & _ & _ & _ & Hp & _ & _ & _ & _
        & Hpos & _).
  - vm_compute. reflexivity.
  - exists a. split; [exact Hp|exact Hpos].
Defined.

(** The run of the witness: the first of the two candidates with the
    largest mean is adopted, with the scores of that candidate. *)
Example train_selects_first_best :
  @_train_and_save uncased
    (ToyEnv2.env ToyEnv.balanced ToyEnv2.fitted ToyEnv2.scores ToyEnv.dump_ok) Toy.fresh
  = (Return tt,
     {| pipeline := Some Toy.model;
        model_file := Stored {| art_pipeline := Toy.model;
                                art_accuracy := 1.0%float;
                                art_cv_score := 0.9%float |};
        proba_calls := [] |}).
Proof. vm_compute. reflexivity. Qed.

(** ** Loading the stored model and the single instance *)

Section LoaderFacts.
Context {U : UnicodeData} {E : Environment}.

(** How [_load_or_train] ends, by the file it found. *)
Lemma load_outcome st :
  match _load_or_train st with
  | (Return _, st') => exists p, pipeline st' = Some p
  | (Raise _, st') =>
      match model_file st with
      | Stored _ => False
      | Unscored loaded => pipeline st' = Some loaded
      | Absent | Damaged => pipeline st' = pipeline st
      end
  end.
Proof.
  unfold _load_or_train.
  destruct (model_file st) as [|a| |loaded] eqn:Ef; cbn [path_exists joblib_load].
  - pose proof (train_outcome st) as Htrain.
    destruct (_train_and_save st) as [[[]|e] st']; [|apply Htrain].
    destruct Htrain as (a & _ & Hp). eauto.
  - eexists. reflexivity.
  - pose proof (train_outcome st) as Htrain.
    destruct (_train_and_save st) as [[[]|e] st']; [|apply Htrain].
    destruct Htrain as (a & _ & Hp). eauto.
  - cbv zeta. pose proof (train_outcome (set_pipeline (Some loaded) st)) as Htrain.
    destruct (_train_and_save (set_pipeline (Some loaded) st)) as [[[]|e] st'].
    + destruct Htrain as (a & _ & Hp). eauto.
    + destruct Htrain as [Hp _]. exact Hp.
Qed.

(** X12. [_load_or_train] adopts a stored artifact's pipeline as it is,
    without training and without touching the file, whatever the training
    environment would give; with no file, or one that cannot be loaded, it
    does exactly what [_train_and_save] does.  A dictionary with a pipeline
    but without a number under ["accuracy"] is adopted and then replaced:
    the loader does what [_train_and_save] does on a classifier that has the
    loaded pipeline already, so when that training raises, the classifier
    keeps the loaded pipeline.  Whenever the loader returns, a pipeline is
    set; it raises only when the file was no complete artifact, and then
    the pipeline is as before unless the file was such a dictionary. *)
Theorem load_or_train_outcome st :
  (forall a, model_file st = Stored a ->
     _load_or_train st = (Return tt, set_pipeline (Some (art_pipeline a)) st)) /\
  (model_file st = Absent \/ model_file st = Damaged ->
     _load_or_train st = _train_and_save st) /\
  (forall loaded, model_file st = Unscored loaded ->
     _load_or_train st = _train_and_save (set_pipeline (Some loaded) st) /\
     forall e st', _load_or_train st = (Raise e, st') -> pipeline st' = Some loaded) /\
  (forall st', _load_or_train st = (Return tt, st') -> exists p, pipeline st' = Some p) /\
  (forall e st', _load_or_train st = (Raise e, st') ->
     (forall a, model_file st <> Stored a) /\
     ((forall loaded, model_file st <> Unscored loaded) -> pipeline st' = pipeline st)).
Proof.
  split; [|split; [|split; [|split]]].
  - intros a Hf. unfold _load_or_train. rewrite Hf. reflexivity.
  - intros [Hf|Hf]; unfold _load_or_train; rewrite Hf; reflexivity.
  - intros loaded Hf. split.
    + unfold _load_or_train. rewrite Hf. reflexivity.
    + intros e st' Hrun. pose proof (load_outcome st) as H.
      rewrite Hrun, Hf in H. exact H.
  - intros st' Hrun. pose proof (load_outcome st) as H. rewrite Hrun in H. exact H.
  - intros e st' Hrun. pose proof (load_outcome st) as H. rewrite Hrun in H.
    split.
    + intros a Hf. rewrite Hf in H. exact H.
    + intros Hnot. destruct (model_file st) as [|a| |loaded]; try exact H.
      * destruct H.
      * destruct (Hnot loaded eq_refl).
Qed.

(** X13. [CategoryClassifier()] loads or trains at most once per process.
    After any call the instance exists, and every later call (also through
    [get_classifier]) returns it without loading, training or changing
    anything.  This holds even when the first call raised, and no later call
    retries.  The instance is then left without a pipeline, so that
    [predict] keeps raising [RuntimeError("Model not loaded")], unless the
    file held a dictionary with a pipeline but without a number under
    ["accuracy"]: then the instance keeps that loaded pipeline.  When the
    first call returns, the instance has a pipeline. *)
Theorem new_is_single_shot ps :
  has_instance (snd (__new__ ps)) = true /\
  __new__ (snd (__new__ ps)) = (Return tt, snd (__new__ ps)) /\
  get_classifier (snd (__new__ ps)) = (Return tt, snd (__new__ ps)) /\
  (has_instance ps = false ->
   (forall e, fst (__new__ ps) = Raise e ->
      ((forall loaded, model_file (self ps) <> Unscored loaded) ->
       pipeline (self (snd (__new__ ps))) = None /\
       forall description merchant,
         predict description merchant (self (snd (__new__ ps)))
         = (Raise (RuntimeError "Model not loaded"), self (snd (__new__ ps)))) /\
      (forall loaded, model_file (self ps) = Unscored loaded ->
       pipeline (self (snd (__new__ ps))) = Some loaded)) /\
   (fst (__new__ ps) = Return tt ->
      exists p, pipeline (self (snd (__new__ ps))) = Some p)).
Proof.
  assert (Hhas : has_instance (snd (__new__ ps)) = true).
  { unfold __new__. destruct (has_instance ps) eqn:Eh; [exact Eh|].
    destruct (_load_or_train _); reflexivity. }
  assert (Hagain : __new__ (snd (__new__ ps)) = (Return tt, snd (__new__ ps))).
  { unfold __new__ at 1. rewrite Hhas. reflexivity. }
  split; [exact Hhas|]. split; [exact Hagain|]. split; [exact Hagain|].
  intros Hfresh. unfold __new__. rewrite Hfresh.
  pose proof (load_outcome (set_pipeline None (self ps))) as Hload.
  destruct (_load_or_train (set_pipeline None (self ps))) as [[[]|e] st'];
    cbn [fst snd self]; split.
  - discriminate.
  - intros _. exact Hload.
  - intros e' _. cbn [model_file set_pipeline] in Hload. split.
    + intros Hnot.
      assert (Hp : pipeline st' = None).
      { destruct (model_file (self ps)) as [|a| |loaded]; try exact Hload.
        - destruct Hload.
        - destruct (Hnot loaded eq_refl). }
      split; [exact Hp|]. intros description merchant.
      unfold predict, bind, get_pipeline. rewrite Hp. reflexivity.
    + intros loaded Hf. rewrite Hf in Hload. exact Hload.
  - discriminate.
Qed.

End LoaderFacts.

(** A complete artifact is adopted although training would fail; a
    dictionary without an accuracy is adopted, training is tried on the data
    set without the [merchant] column and raises, and the loaded pipeline
    stays. *)
Lemma load_or_train_outcome_witness :
  @_load_or_train uncased
    (ToyEnv2.env ToyEnv2.headless ToyEnv2.fitted ToyEnv2.scores ToyEnv.dump_fails)
    (self (ToyEnv2.start (Stored ToyEnv2.earlier)))
  = (Return tt,
     {| pipeline := Some Toy.model;
        model_file := Stored ToyEnv2.earlier;
        proba_calls := [] |}) /\
  pipeline (snd (@_load_or_train uncased
                   (ToyEnv2.env ToyEnv2.headless ToyEnv2.fitted ToyEnv2.scores
                                ToyEnv.dump_fails)
                   (self (ToyEnv2.start (Unscored Toy.model)))))
  = Some Toy.model.
Proof.
  split.
  - exact (proj1 (@load_or_train_outcome uncased
                    (ToyEnv2.env ToyEnv2.headless ToyEnv2.fitted ToyEnv2.scores
                                 ToyEnv.dump_fails)
                    (self (ToyEnv2.start (Stored ToyEnv2.earlier))))
                 ToyEnv2.earlier eq_refl).
  - destruct (@load_or_train_outcome uncased
                (ToyEnv2.env ToyEnv2.headless ToyEnv2.fitted ToyEnv2.scores
                             ToyEnv.dump_fails)
                (self (ToyEnv2.start (Unscored Toy.model)))) as (_ & _ & H & _).
    destruct (H Toy.model eq_refl) as [_ Hkeeps].
    apply (Hkeeps (ValueError "Dataset must contain description, merchant, category")).
    reflexivity.
Defined.

(** A first construction that fails on a damaged file and a data set
    without the [merchant] column: the instance stays without a model.  The
    same with a dictionary without an accuracy in the file: the instance
    keeps the pipeline of the dictionary. *)
Lemma new_is_single_shot_witness :
  fst (@__new__ uncased
         (ToyEnv2.env ToyEnv2.headless ToyEnv2.fitted ToyEnv2.scores ToyEnv.dump_ok)
         (ToyEnv2.start Damaged))
  = Raise (ValueError "Dataset must contain description, merchant, category") /\
  (forall description merchant,
    fst (@predict uncased description merchant
           (self (snd (@__new__ uncased
                         (ToyEnv2.env ToyEnv2.headless ToyEnv2.fitted ToyEnv2.scores
                                      ToyEnv.dump_ok)
                         (ToyEnv2.start Damaged)))))
    = Raise (RuntimeError "Model not loaded")) /\
  pipeline (self (snd (@__new__ uncased
                         (ToyEnv2.env ToyEnv2.headless ToyEnv2.fitted ToyEnv2.scores
                                      ToyEnv.dump_ok)
                         (ToyEnv2.start (Unscored Toy.model2)))))
  = Some Toy.model2.
Proof.
  split; [reflexivity|]. split.
  - intros description merchant.
    destruct (@new_is_single_shot uncased
                (ToyEnv2.env ToyEnv2.headless ToyEnv2.fitted ToyEnv2.scores ToyEnv.dump_ok)
                (ToyEnv2.start Damaged)) as (_ & _ & _ & H).
    destruct (H eq_refl) as [Hfail _].
    destruct (Hfail _ eq_refl) as [Hnone _].
    destruct Hnone as [_ Hpredict]; [intros loaded; discriminate|].
    rewrite Hpredict. reflexivity.
  - destruct (@new_is_single_shot uncased
                (ToyEnv2.env ToyEnv2.headless ToyEnv2.fitted ToyEnv2.scores ToyEnv.dump_ok)
                (ToyEnv2.start (Unscored Toy.model2))) as (_ & _ & _ & H).
    destruct (H eq_refl) as [Hfail _].
    destruct (Hfail _ eq_refl) as [_ Hkeeps].
    exact (Hkeeps Toy.model2 eq_refl).
Defined.

(* ================================================================== *)
(** * Properties of the callers in [backend/app/main.py] *)

(** ** The chatbot *)

Section ChatFacts.
Import Chat.

Lemma strip_prefix_app prefix rest : strip_prefix prefix (prefix ++ rest) = Some rest.
Proof.
  induction prefix as [|p prefix IH]; [reflexivity|].
  cbn [app strip_prefix]. rewrite N.eqb_refl. exact IH.
Qed.

Lemma contains_app needle before after :
  contains needle (before ++ needle ++ after) = true.
Proof.
  induction before as [|c before IH].
  - cbn [app]. destruct (needle ++ after) eqn:E;
      cbn [contains]; rewrite <- ?E, strip_prefix_app; reflexivity.
  - cbn [app contains]. destruct (strip_prefix needle (c :: before ++ needle ++ after));
      [reflexivity|exact IH].
Qed.

Context {U : UnicodeData} {R : PyRuntime}.

(** X14. For a user without income (no income line, or a sum of zero)
    [get_user_financial_context] raises [ZeroDivisionError]: the savings
    rate is computed unguarded inside the f-string.  So the [chat] route
    answers every message of such a user with the apology. *)
Theorem chat_without_income db :
  sum_income db = None \/ (exists v, sum_income db = Some v /\ (v =? 0)%float = true) ->
  get_user_financial_context db = Failed ZeroDivisionError /\
  forall message, chat message db = SORRY.
Proof.
  intros H.
  assert (Hctx : get_user_financial_context db = Failed ZeroDivisionError).
  { unfold get_user_financial_context. cbv zeta.
    destruct H as [->|(v & -> & Hv)]; cbn [or_zero]; [reflexivity|].
    rewrite Hv. reflexivity. }
  split; [exact Hctx|]. intros message. unfold chat. rewrite Hctx. reflexivity.
Qed.

(** X15. A question about income cannot be answered: for a message whose
    lower-case form contains "income" and none of the words tried before it
    (hello, hi, hey, balance, how much, money, spend, expenses),
    [generate_ai_response] raises [UnboundLocalError] on [re] whatever the
    context is, and [chat] answers with the apology whatever the user's
    finances are. *)
Theorem chat_income_question message :
  contains (lit "income") (lower message) = true ->
  any_in [lit "hello"; lit "hi"; lit "hey"] (lower message) = false ->
  any_in [lit "balance"; lit "how much"; lit "money"] (lower message) = false ->
  contains (lit "spend") (lower message) = false ->
  contains (lit "expenses") (lower message) = false ->
  (forall context,
      generate_ai_response message context = Failed (UnboundLocalError "re")) /\
  (forall db, chat message db = SORRY).
Proof.
  intros Hincome Hgreet Hbalance Hspend Hexp.
  assert (Hgen : forall context,
             generate_ai_response message context = Failed (UnboundLocalError "re")).
  { intros context. unfold generate_ai_response. cbv zeta.
    rewrite Hgreet, Hbalance, Hspend, Hexp, Hincome. reflexivity. }
  split; [exact Hgen|]. intros db. unfold chat.
  destruct (get_user_financial_context db); [|reflexivity].
  rewrite Hgen. reflexivity.
Qed.

(** X16. The keywords are looked for as substrings and the greeting comes
    first: an ASCII message with "hi" anywhere in it, in any letter case
    and also inside a word, gets the greeting whatever else it asks and
    whatever the context. *)
Theorem chat_greeting_first message before after context :
  is_ascii message = true ->
  map ascii_lower message = before ++ lit "hi" ++ after ->
  generate_ai_response message context = Done (Some GREETING).
Proof.
  intros Hascii Hlow. unfold generate_ai_response. cbv zeta.
  unfold lower. rewrite (lower_from_ascii [] (is_ascii_Forall _ Hascii)), Hlow.
  unfold any_in. cbn [existsb].
  rewrite (contains_app (lit "hi") before after), orb_true_r. reflexivity.
Qed.

End ChatFacts.

Module ChatExamples.

Import Chat.

Lemma chat_without_income_witness :
  @chat uncased mute (lit "What is my balance?") no_income = SORRY.
Proof.
  apply (@chat_without_income uncased mute no_income).
  left. reflexivity.
Defined.

Lemma chat_income_question_witness :
  @generate_ai_response uncased mute (lit "What is my total Income?") []
  = Failed (UnboundLocalError "re").
Proof.
  apply (@chat_income_question uncased mute (lit "What is my total Income?"));
    reflexivity.
Defined.

Lemma chat_greeting_first_witness :
  @generate_ai_response uncased mute (lit "Which category has my income?") []
  = Done (Some GREETING).
Proof.
  apply (@chat_greeting_first uncased mute (lit "Which category has my income?")
           (lit "w") (lit "ch category has my income?") []); reflexivity.
Defined.

End ChatExamples.

Section SpendingQuestion.
Import Chat.

Lemma first_category_skip a rest :
  no_minus a = true -> first_category (a ++ rest) = first_category rest.
Proof.
  unfold no_minus. induction a as [|c a IH]; intros H; [reflexivity|].
  cbn [forallb] in H. apply andb_true_iff in H. destruct H as [Hc Ha].
  cbn [app first_category]. unfold category_here at 1. cbn [lit strip_prefix].
  change (N_of_ascii "-") with 45%N.
  destruct (45 =? c)%N eqn:E; [rewrite N.eqb_sym, E in Hc; discriminate|].
  apply IH. exact Ha.
Qed.

Lemma take_class_run cls run c rest :
  forallb cls run = true -> cls c = false ->
  take_class cls (run ++ c :: rest) = (run, c :: rest).
Proof.
  intros Hrun Hc. induction run as [|d run IH].
  - cbn [app take_class]. rewrite Hc. reflexivity.
  - cbn [forallb] in Hrun. apply andb_true_iff in Hrun. destruct Hrun as [Hd Hrun].
    cbn [app take_class]. rewrite Hd, (IH Hrun). reflexivity.
Qed.

Lemma category_at_total_income rest :
  first_category (lit "- Total Income: $" ++ rest)
  = first_category (lit " Total Income: $" ++ rest).
Proof. reflexivity. Qed.

Lemma category_at_total_expenses rest :
  first_category (lit "- Total Expenses: $" ++ rest)
  = first_category (lit " Total Expenses: $" ++ rest).
Proof. reflexivity. Qed.

Lemma category_here_balance rest :
  category_here (lit "- Balance: $" ++ rest)
  = match fst (take_class is_amount_char rest) with
    | [] => None
    | amount => Some (lit "Balance", amount)
    end.
Proof. reflexivity. Qed.

Lemma category_at_balance rest :
  first_category (lit "- Balance: $" ++ rest)
  = match fst (take_class is_amount_char rest) with
    | [] => first_category (lit " Balance: $" ++ rest)
    | amount => Some (lit "Balance", amount)
    end.
Proof.
  pose proof (category_here_balance rest) as H.
  change (lit "- Balance: $" ++ rest) with (45%N :: lit " Balance: $" ++ rest) in *.
  cbn [first_category]. rewrite H.
  destruct (fst (take_class is_amount_char rest)); reflexivity.
Qed.

Context {U : UnicodeData} {R : PyRuntime}.

(** The leftmost line of the context that looks like a category line is
    the balance line, when the totals print without a minus sign and the
    balance prints as digits and dots. *)
Lemma first_category_of_context db context :
  let total_income := or_zero (sum_income db) in
  let total_expenses := or_zero (sum_expenses db) in
  let shown := format_fixed 2 (total_income - total_expenses)%float in
  get_user_financial_context db = Done context ->
  no_minus (format_fixed 2 total_income) = true ->
  no_minus (format_fixed 2 total_expenses) = true ->
  shown <> [] ->
  forallb is_amount_char shown = true ->
  first_category context = Some (lit "Balance", shown).
Proof.
  intros total_income total_expenses shown Hctx Hinc Hexp Hne Hshown.
  enough (Hall : match get_user_financial_context db with
                 | Done text => first_category text = Some (lit "Balance", shown)
                 | Failed _ => True
                 end) by (rewrite Hctx in Hall; exact Hall).
  clear Hctx. unfold get_user_financial_context. cbv zeta.
  fold total_income total_expenses. fold shown.
  destruct (total_income =? 0)%float; [exact I|].
  rewrite (first_category_skip NL) by reflexivity.
  rewrite (first_category_skip (lit "User Financial Summary:")) by reflexivity.
  rewrite (first_category_skip NL) by reflexivity.
  rewrite category_at_total_income.
  rewrite (first_category_skip (lit " Total Income: $")) by reflexivity.
  rewrite (first_category_skip (format_fixed 2 total_income)) by exact Hinc.
  rewrite (first_category_skip NL) by reflexivity.
  rewrite category_at_total_expenses.
  rewrite (first_category_skip (lit " Total Expenses: $")) by reflexivity.
  rewrite (first_category_skip (format_fixed 2 total_expenses)) by exact Hexp.
  rewrite (first_category_skip NL) by reflexivity.
  rewrite category_at_balance.
  change (NL ++ ?x) with (10%N :: x).
  rewrite take_class_run by (assumption || reflexivity).
  cbn [fst]. destruct shown; [congruence|reflexivity].
Qed.

(** X17. A question about spending is answered with the balance: for a
    user with income, whose totals print without a minus sign and whose
    balance prints as digits and dots (a balance that is not negative),
    the leftmost line of the context that has the shape of a category line
    is the balance line.  So for a message with "spend" or "expenses" (and
    none of the greeting and balance words) the reply names "Balance" as
    the highest spending category, with the balance as its amount, and not
    any category of the user; it is the apology when the amount does not
    parse. *)
Theorem chat_spending_names_balance message db :
  let total_income := or_zero (sum_income db) in
  let total_expenses := or_zero (sum_expenses db) in
  let shown := format_fixed 2 (total_income - total_expenses)%float in
  (total_income =? 0)%float = false ->
  no_minus (format_fixed 2 total_income) = true ->
  no_minus (format_fixed 2 total_expenses) = true ->
  shown <> [] ->
  forallb is_amount_char shown = true ->
  any_in [lit "hello"; lit "hi"; lit "hey"] (lower message) = false ->
  any_in [lit "balance"; lit "how much"; lit "money"] (lower message) = false ->
  contains (lit "spend") (lower message) || contains (lit "expenses") (lower message)
  = true ->
  chat message db
  = match parse_float shown with
    | Some amount =>
        lit "Your highest spending category is Balance with $"
        ++ format_fixed 2 amount
        ++ lit ". Would you like tips on reducing expenses in this area?"
    | None => SORRY
    end.
Proof.
  intros total_income total_expenses shown Hpos Hinc Hexp Hne Hshown Hgreet Hbal Hspend.
  unfold chat.
  destruct (get_user_financial_context db) as [context|e] eqn:Hctx.
  - pose proof (first_category_of_context db Hctx Hinc Hexp Hne Hshown) as Hfirst.
    unfold generate_ai_response. cbv zeta.
    rewrite Hgreet, Hbal, Hspend, Hfirst. fold total_income total_expenses shown.
    destruct (parse_float shown); reflexivity.
  - unfold get_user_financial_context in Hctx. cbv zeta in Hctx.
    fold total_income in Hctx. rewrite Hpos in Hctx. discriminate.
Qed.

End SpendingQuestion.

Lemma chat_spending_names_balance_witness :
  @Chat.chat uncased Chat.flat (lit "Where do I spend the most?") Chat.tenant
  = lit "Your highest spending category is Balance with $12.50. Would you like tips on reducing expenses in this area?".
Proof.
  apply (@chat_spending_names_balance uncased Chat.flat
           (lit "Where do I spend the most?") Chat.tenant);
    try reflexivity.
  vm_compute. discriminate.
Defined.

(** ** The expense route, the validators and the password helpers *)

Module FloatSign.

Import FloatOrder.
Local Open Scope float_scope.

Lemma SFleb_false_ltb x y :
  x <> S754_nan -> y <> S754_nan -> SFleb x y = false -> SFltb y x = true.
Proof.
  unfold SFleb, SFltb, SFcompare.
  change (Pos.compare_cont Eq) with Pos.compare.
  by_cases x; by_cases y; intros Hx Hy H;
    try congruence; compare_cases; try reflexivity; try discriminate; lia.
Qed.

Lemma SFltb_leb_false x y : SFltb y x = true -> SFleb x y = false.
Proof.
  unfold SFleb, SFltb, SFcompare.
  change (Pos.compare_cont Eq) with Pos.compare.
  by_cases x; by_cases y; intros H;
    compare_cases; try reflexivity; try discriminate; lia.
Qed.

Lemma is_nan_spec x : is_nan x = true -> Prim2SF x = S754_nan.
Proof.
  unfold is_nan. rewrite FloatAxioms.eqb_spec. unfold SFeqb, SFcompare.
  change (Pos.compare_cont Eq) with Pos.compare.
  destruct (Prim2SF x) as [[|]|[|]| |[|] ? ?]; simpl;
    rewrite ?Z.compare_refl, ?Pos.compare_refl; try discriminate; reflexivity.
Qed.

(** [x <= y] fails exactly when one of the two is NaN or [y < x]. *)
Lemma leb_false_iff x y :
  is_nan y = false ->
  ((x <=? y) = false <-> is_nan x = true \/ (y <? x) = true).
Proof.
  intros Hy. rewrite FloatAxioms.leb_spec, FloatAxioms.ltb_spec. split.
  - intros H. destruct (is_nan x) eqn:Hx; [left; reflexivity|right].
    apply SFleb_false_ltb; auto using not_nan_spec.
  - intros [Hx|Hlt]; [|apply SFltb_leb_false; exact Hlt].
    rewrite (is_nan_spec _ Hx). reflexivity.
Qed.

End FloatSign.

Section RouteFacts.
Import Routes.
Context {U : UnicodeData}.

Local Open Scope float_scope.

(** A label that [predict] returns is a class of the loaded model or the
    catch-all. *)
Lemma predict_label_safe st model description merchant label confidence st' :
  pipeline st = Some model ->
  predict description merchant st = (Return (label, confidence), st') ->
  In label (classes_ model) \/ label = OTHER.
Proof.
  intros Hp. unfold predict, bind, get_pipeline. rewrite Hp. cbv zeta.
  destruct (is_empty (_combine description merchant)).
  - unfold ret. intros Eq. injection Eq as <- _ _. right. reflexivity.
  - unfold call_predict_proba, lift, getitem.
    destruct (Numpy.argmax _) as [i|]; [|discriminate].
    destruct (nth_error (classes_ model) i) as [pred|] eqn:Hc; [|discriminate].
    destruct (Numpy.max _) as [raw|]; [|discriminate].
    destruct (_ <? CONFIDENCE_THRESHOLD); unfold ret; intros Eq;
      injection Eq as <- _ _; [right; reflexivity|left].
    eapply nth_error_In; eauto.
Qed.

(** X18. [add_expense] stores what [predict] returns as it is: the
    predicted category of the object it builds is always the whole
    (label, confidence) pair, never the bare label, and the category is that
    same pair unless the user gave a non-empty category.  The label in the
    pair is a class of the model or the catch-all.  When [predict] raises,
    and so when no model is loaded, [add_expense] raises the same error and
    builds nothing. *)
Theorem add_expense_stores_pair expense_in current_user now st :
  (forall e st',
      predict (ec_description expense_in) (or_empty (ec_merchant expense_in)) st
      = (Raise e, st') ->
      add_expense expense_in current_user now st = (Raise e, st')) /\
  (forall label confidence st',
      predict (ec_description expense_in) (or_empty (ec_merchant expense_in)) st
      = (Return (label, confidence), st') ->
      exists row,
        add_expense expense_in current_user now st = (Return row, st') /\
        predicted_category row = Pair label confidence /\
        (category row = Pair label confidence \/
         exists c, ec_category expense_in = Some c /\ c <> [] /\ category row = Text c) /\
        (forall model, pipeline st = Some model ->
           In label (classes_ model) \/ label = OTHER)).
Proof.
  split.
  - intros e st' Hrun. unfold add_expense, bind. rewrite Hrun. reflexivity.
  - intros label confidence st' Hrun. eexists. split.
    + unfold add_expense, bind. rewrite Hrun. reflexivity.
    + cbn [predicted_category category fst snd]. split; [reflexivity|]. split.
      * destruct (ec_category expense_in) as [[|c rest]|] eqn:Ec; auto.
        right. exists (c :: rest). split; [reflexivity|]. split; [discriminate|reflexivity].
      * intros model Hp. eapply predict_label_safe; eauto.
Qed.

(** X19. [validate_amount] accepts exactly the amounts that are greater
    than zero and NaN, which no comparison rejects; zero of either sign and
    every negative amount are refused.  An accepted amount is returned
    unchanged. *)
Theorem validate_amount_accepts v :
  (validate_amount v = Return v <-> is_nan v = true \/ (0 <? v) = true) /\
  (forall v', validate_amount v = Return v' -> v' = v) /\
  (validate_amount_update (Some v) = Return (Some v) <-> validate_amount v = Return v) /\
  validate_amount_update None = Return None.
Proof.
  assert (Hiff : (v <=? 0) = false <-> is_nan v = true \/ (0 <? v) = true)
    by (apply FloatSign.leb_false_iff; reflexivity).
  unfold validate_amount, validate_amount_update.
  split; [|split; [|split; [|reflexivity]]].
  - rewrite <- Hiff. destruct (v <=? 0); split; intros H; congruence.
  - intros v'. destruct (v <=? 0); congruence.
  - destruct (v <=? 0); split; intros H; congruence.
Qed.

End RouteFacts.

Section PasswordFacts.
Import Routes.

Lemma utf8_size_positive c n : utf8_size c = Some n -> (1 <= n)%nat.
Proof.
  unfold utf8_size.
  repeat match goal with |- context [if ?b then _ else _] => destruct b end;
    intros H; try discriminate; injection H as <-; lia.
Qed.

(** UTF-8 spends at least one byte on a code point. *)
Lemma utf8_length_bound s n : utf8_length s = Some n -> (List.length s <= n)%nat.
Proof.
  revert n. induction s as [|c s IH]; intros n H.
  - injection H as <-. simpl. lia.
  - cbn [utf8_length] in H.
    destruct (utf8_size c) as [a|] eqn:Ea; [|discriminate].
    destruct (utf8_length s) as [b|]; [|discriminate].
    injection H as <-. specialize (IH b eq_refl).
    pose proof (utf8_size_positive _ Ea). simpl. lia.
Qed.

Context {P : Passlib}.

(** X20. A password that [validate_new_password] accepts is returned
    unchanged, has between 8 and 72 code points and at most 72 bytes in
    UTF-8, so the cut to 72 characters in [get_password_hash] and
    [verify_password] leaves it whole: the password a user sets at reset is
    hashed and later verified in full. *)
Theorem validate_new_password_accepts v v' :
  validate_new_password v = Return v' ->
  v' = v /\
  (8 <= List.length v <= 72)%nat /\
  (exists bytes, utf8_length v = Some bytes /\ (bytes <= 72)%nat) /\
  get_password_hash v = pwd_hash v /\
  (forall hashed, verify_password v hashed = pwd_verify v hashed).
Proof.
  unfold validate_new_password.
  destruct (List.length v <? 8)%nat eqn:Hshort; [discriminate|].
  destruct (utf8_length v) as [bytes|] eqn:Hbytes; [|discriminate].
  destruct (72 <? bytes)%nat eqn:Hlong; [discriminate|].
  intros Eq. injection Eq as <-.
  apply Nat.ltb_ge in Hshort, Hlong.
  pose proof (utf8_length_bound _ Hbytes) as Hlen.
  assert (Hcut : firstn 72 v = v) by (apply firstn_all2; lia).
  split; [reflexivity|]. split; [lia|]. split; [eauto|].
  unfold get_password_hash, verify_password. rewrite Hcut. auto.
Qed.

(** X21. Only the first 72 characters of a password count.  With a hasher
    whose hashes verify, [verify_password] accepts for the hash of a
    password every password that agrees with it on the first 72 characters,
    the password itself among them. *)
Theorem password_first_72_count password other :
  (forall p, pwd_verify p (pwd_hash p) = true) ->
  firstn 72 other = firstn 72 password ->
  verify_password password (get_password_hash password) = true /\
  verify_password other (get_password_hash password) = true.
Proof.
  intros Hround Hsame. unfold verify_password, get_password_hash.
  rewrite Hsame. split; apply Hround.
Qed.

End PasswordFacts.

Section HealthFacts.
Import Routes.

(** X22. The financial health score is one of the multiples of five from 0
    to 100, so the [min(health_score, 100)] of the route never cuts it; it
    is 0, "Needs Improvement", for a user without income; and the level
    "Excellent" needs both the points for savings of at least 10 per cent
    and the points for housing. *)
Theorem health_score_range
    total_income total_expenses balance housing_cost food_spending debt_spending :
  let score := health_score total_income total_expenses balance housing_cost
                            food_spending debt_spending in
  (0 <= score <= 100)%Z /\
  Z.min score 100 = score /\
  (score mod 5 = 0)%Z /\
  ((0 <? total_income)%float = false ->
   score = 0%Z /\ health_level score = lit "Needs Improvement") /\
  (health_level score = lit "Excellent" ->
   (0 <? total_income)%float = true /\
   (housing_cost / total_income <=? 0.3)%float = true /\
   (0 <? balance)%float = true /\
   (10 <=? balance / total_income * 100)%float = true).
Proof.
  intros score. unfold score, health_score, health_level.
  destruct (0 <? total_income)%float; cbn [andb];
    [|repeat split; try lia; try reflexivity; discriminate].
  destruct (0 <? balance)%float;
    destruct (20 <=? balance / total_income * 100)%float eqn:H20;
    destruct (10 <=? balance / total_income * 100)%float eqn:H10;
    destruct (0 <? balance / total_income * 100)%float;
    destruct (housing_cost / total_income <=? 0.3)%float;
    destruct (0 <? total_expenses)%float;
    destruct (food_spending / total_expenses <=? 0.3)%float;
    destruct (debt_spending / total_income <=? 0.15)%float;
    cbv zeta; cbn [andb];
    repeat match goal with
           | |- context [(20 <=? 0)%float] => change (20 <=? 0)%float with false
           | |- context [(10 <=? 0)%float] => change (10 <=? 0)%float with false
           | |- context [(0 <? 0)%float] => change (0 <? 0)%float with false
           end;
    (split; [lia|]); (split; [reflexivity|]); (split; [reflexivity|]);
    (split; [discriminate|]);
    try (intros Hlevel; vm_compute in Hlevel; discriminate Hlevel);
    intros _; repeat split; try reflexivity;
    pose proof (@FloatOrder.leb_trans 10 20 _ eq_refl H20) as H; congruence.
Qed.

End HealthFacts.

Lemma validate_new_password_accepts_witness :
  @Routes.get_password_hash Routes.clear_text (lit "correct horse")
  = lit "correct horse".
Proof.
  destruct (@validate_new_password_accepts Routes.clear_text
              (lit "correct horse") (lit "correct horse") eq_refl)
    as (_ & _ & _ & Hhash & _).
  exact Hhash.
Defined.

(** Two passwords of 73 characters that differ in the last one. *)
Lemma password_first_72_count_witness :
  @Routes.verify_password Routes.clear_text
    (repeat 97%N 72 ++ [98%N])
    (@Routes.get_password_hash Routes.clear_text (repeat 97%N 72 ++ [99%N]))
  = true.
Proof.
  apply (@password_first_72_count Routes.clear_text
           (repeat 97%N 72 ++ [99%N]) (repeat 97%N 72 ++ [98%N])).
  - intros p. apply str_eqb_eq. reflexivity.
  - reflexivity.
Defined.

(** The object [add_expense] builds for an expense without a category. *)
Example add_expense_row :
  fst (@Routes.add_expense uncased
         {| Routes.ec_amount := 4.5%float;
            Routes.ec_description := lit "coffee";
            Routes.ec_merchant := Some (lit "Starbucks");
            Routes.ec_category := None;
            Routes.ec_date := None |}
         (lit "ann@example.org") 1700000000%N (Toy.loaded Toy.model2))
  = Return {| Routes.user_email := lit "ann@example.org";
              Routes.amount := 4.5%float;
              Routes.description := lit "coffee";
              Routes.merchant := Some (lit "Starbucks");
              Routes.category := Routes.Pair Toy.RENT 0.75%float;
              Routes.predicted_category := Routes.Pair Toy.RENT 0.75%float;
              Routes.date := 1700000000%N |}.
Proof. vm_compute. reflexivity. Qed.

(** ** Accounts *)

Section AuthFacts.
Import Routes Auth.

Lemma str_eqb_refl a : str_eqb a a = true.
Proof. apply str_eqb_eq. reflexivity. Qed.

Lemma find_user_some address db u :
  find_user address db = Some u -> In u (users db) /\ email u = address.
Proof.
  unfold find_user. intros H. apply find_some in H. destruct H as [Hin Heq].
  apply str_eqb_eq in Heq. auto.
Qed.

Lemma find_user_none address db :
  find_user address db = None -> ~ In address (map email (users db)).
Proof.
  unfold find_user. intros H Hin. apply in_map_iff in Hin.
  destruct Hin as (u & Hu & Hin). pose proof (find_none _ _ H u Hin) as Hno.
  cbv beta in Hno. rewrite Hu, str_eqb_refl in Hno. discriminate.
Qed.

Lemma find_user_in address db :
  In address (map email (users db)) -> exists u, find_user address db = Some u.
Proof.
  intros Hin. destruct (find_user address db) as [u|] eqn:E; [eauto|].
  exfalso. eapply find_user_none; eauto.
Qed.

Lemma find_token_some value db t :
  find_token value db = Some t -> In t (reset_tokens db) /\ token t = value.
Proof.
  unfold find_token. intros H. apply find_some in H. destruct H as [Hin Heq].
  apply str_eqb_eq in Heq. auto.
Qed.

Lemma find_token_none value db :
  find_token value db = None -> ~ In value (map token (reset_tokens db)).
Proof.
  unfold find_token. intros H Hin. apply in_map_iff in Hin.
  destruct Hin as (t & Ht & Hin). pose proof (find_none _ _ H t Hin) as Hno.
  cbv beta in Hno. rewrite Ht, str_eqb_refl in Hno. discriminate.
Qed.

(** After its line is deleted a token is not found. *)
Lemma find_deleted_token t db : find_token (token t) (delete_token t db) = None.
Proof.
  unfold find_token, delete_token. cbn [reset_tokens].
  induction (reset_tokens db) as [|t' l IH]; [reflexivity|].
  cbn [filter]. destruct (str_eqb (token t') (token t)) eqn:E; cbn [negb]; [exact IH|].
  cbn [find]. rewrite E. exact IH.
Qed.

Lemma NoDup_map_filter {A B} (f : A -> B) (p : A -> bool) l :
  NoDup (map f l) -> NoDup (map f (filter p l)).
Proof.
  induction l as [|x l IH]; intros H; [constructor|].
  cbn [map] in H. inversion H as [|? ? Hx Hl]; subst.
  cbn [filter]. destruct (p x); [|apply IH; exact Hl].
  cbn [map]. constructor; [|apply IH; exact Hl].
  intros Hin. apply Hx. apply in_map_iff in Hin. destruct Hin as (y & Hy & Hin).
  apply filter_In in Hin. apply in_map_iff. exists y. tauto.
Qed.

Lemma set_password_emails u hashed db :
  map email (users (set_password u hashed db)) = map email (users db).
Proof.
  unfold set_password. cbn [users]. rewrite map_map. apply map_ext.
  intros u'. destruct (str_eqb (email u') (email u)); reflexivity.
Qed.

(** The first user of an address, after that user's password is set. *)
Lemma find_user_set_password u hashed db :
  find_user (email u) db = Some u ->
  find_user (email u) (set_password u hashed db)
  = Some {| email := email u; full_name := full_name u; hashed_password := hashed |}.
Proof.
  unfold find_user, set_password. cbn [users].
  induction (users db) as [|u' l IH]; [discriminate|].
  cbn [find map]. destruct (str_eqb (email u') (email u)) eqn:E.
  - intros Eq. injection Eq as ->. cbn [find email]. rewrite str_eqb_refl. reflexivity.
  - intros H. cbn [find]. rewrite E. apply IH. exact H.
Qed.

Context {P : Passlib} {J : Jose}.

Lemma find_app_none (A : Type) (f : A -> bool) (l l' : list A) :
  find f l = None -> find f (l ++ l') = find f l'.
Proof.
  induction l as [|a l IH]; cbn [find app]; [reflexivity|].
  destruct (f a); [discriminate|exact IH].
Qed.

Lemma register_well_formed user db :
  well_formed db -> well_formed (snd (register user db)).
Proof.
  intros (Hu & Ht & Hall). unfold register.
  destruct (find_user (reg_email user) db) eqn:E; [repeat split; assumption|].
  cbn [snd]. repeat split; cbn [users reset_tokens].
  - rewrite map_app. cbn [map email]. apply NoDup_app; auto.
    + constructor; [intros []|constructor].
    + intros a Ha [<-|[]]. eapply find_user_none; eauto.
  - exact Ht.
  - eapply Forall_impl; [|exact Hall]. intros t Hin. cbv beta in *.
    rewrite map_app. apply in_or_app. left. exact Hin.
Qed.

Lemma forgot_password_well_formed address drawn now db :
  well_formed db -> well_formed (snd (forgot_password address drawn now db)).
Proof.
  intros (Hu & Ht & Hall). unfold forgot_password.
  destruct (find_user address db) as [u|] eqn:Eu; [|repeat split; assumption].
  destruct (find_token drawn db) eqn:E; [repeat split; assumption|].
  cbn [snd]. repeat split; cbn [users reset_tokens].
  - exact Hu.
  - rewrite map_app. cbn [map token]. apply NoDup_app; auto.
    + constructor; [intros []|constructor].
    + intros a Ha [<-|[]]. eapply find_token_none; eauto.
  - apply Forall_app. split; [exact Hall|].
    constructor; [|constructor]. cbn [token_email].
    destruct (find_user_some _ _ Eu) as [Hin <-]. apply in_map. exact Hin.
Qed.

Lemma delete_token_well_formed t db :
  well_formed db -> well_formed (delete_token t db).
Proof.
  intros (Hu & Ht & Hall). unfold delete_token. repeat split; cbn [users reset_tokens].
  - exact Hu.
  - apply NoDup_map_filter. exact Ht.
  - apply Forall_forall. intros t' Hin. apply filter_In in Hin.
    rewrite Forall_forall in Hall. apply Hall. tauto.
Qed.

Lemma set_password_well_formed u hashed db :
  well_formed db -> well_formed (set_password u hashed db).
Proof.
  intros (Hu & Ht & Hall). unfold well_formed. rewrite set_password_emails.
  repeat split; assumption.
Qed.

(** With a well-formed database a token that is found has a user. *)
Lemma token_has_user value db t :
  well_formed db -> find_token value db = Some t ->
  exists u, find_user (token_email t) db = Some u.
Proof.
  intros (_ & _ & Hall) Hfind. destruct (find_token_some _ _ Hfind) as [Hin _].
  rewrite Forall_forall in Hall. apply find_user_in. apply Hall. exact Hin.
Qed.

Lemma reset_password_well_formed data now db :
  well_formed db -> well_formed (snd (reset_password data now db)).
Proof.
  intros Hwf. unfold reset_password.
  destruct (find_token (rp_token data) db) as [t|] eqn:E; [|exact Hwf].
  destruct (expires t <? now)%N; [apply delete_token_well_formed; exact Hwf|].
  destruct (find_user (token_email t) db); [|exact Hwf].
  cbn [snd]. apply delete_token_well_formed, set_password_well_formed. exact Hwf.
Qed.

(** X23. The routes keep the database well formed: addresses and tokens
    stay keys of their tables and every reset token is for a registered
    address.  So [reset_password] always finds the user of a token it
    found: the unchecked use of the user never raises. *)
Theorem accounts_keep_well_formed db :
  well_formed db ->
  (forall user, well_formed (snd (register user db))) /\
  (forall username password now, snd (login username password now db) = db) /\
  (forall address drawn now, well_formed (snd (forgot_password address drawn now db))) /\
  (forall data now,
      well_formed (snd (reset_password data now db)) /\
      forall exception, fst (reset_password data now db) <> Unhandled exception).
Proof.
  intros Hwf. split; [|split; [|split]].
  - intros user. apply register_well_formed. exact Hwf.
  - intros username password now. unfold login.
    destruct (find_user username db) as [u|]; [|reflexivity].
    destruct (negb _); reflexivity.
  - intros address drawn now. apply forgot_password_well_formed. exact Hwf.
  - intros data now. split; [apply reset_password_well_formed; exact Hwf|].
    intros exception. unfold reset_password.
    destruct (find_token (rp_token data) db) as [t|] eqn:E; [|discriminate].
    destruct (expires t <? now)%N; [discriminate|].
    destruct (token_has_user _ Hwf E) as [u ->]. discriminate.
Qed.

(** X24. A reset token works at most once.  In a well-formed database,
    after a call of [reset_password] that found the token, whether it set
    the password or found the token expired, the token is gone: every later
    call with it is answered 400, "Invalid or expired reset token", and
    changes nothing.  A call with an expired token is answered 400, "Reset
    token has expired", and leaves the users as they were. *)
Theorem reset_token_single_use data now db t :
  well_formed db ->
  find_token (rp_token data) db = Some t ->
  (forall data' now',
      rp_token data' = rp_token data ->
      reset_password data' now' (snd (reset_password data now db))
      = (HTTPException 400 (lit "Invalid or expired reset token"),
         snd (reset_password data now db))) /\
  ((expires t <? now)%N = true ->
   fst (reset_password data now db) = HTTPException 400 (lit "Reset token has expired") /\
   users (snd (reset_password data now db)) = users db).
Proof.
  intros Hwf Ht. destruct (find_token_some _ _ Ht) as [_ Htok]. split.
  - intros data' now' Hsame.
    assert (Hgone : find_token (rp_token data) (snd (reset_password data now db)) = None).
    { unfold reset_password. rewrite Ht.
      destruct (expires t <? now)%N; cbn [snd].
      - rewrite <- Htok. apply find_deleted_token.
      - destruct (token_has_user _ Hwf Ht) as [u ->]. cbn [snd].
        rewrite <- Htok. apply find_deleted_token. }
    unfold reset_password at 1. rewrite Hsame, Hgone. reflexivity.
  - intros Hexp. unfold reset_password. rewrite Ht, Hexp. split; reflexivity.
Qed.

(** X25. Registration and login fit together.  With a hasher whose hashes
    verify, a registration of a new address is accepted and a login with
    the same address and password then succeeds, with a token for that
    address that expires after 30 minutes; an address that is registered
    already is refused with 400 and changes nothing; and a login with an
    address that is not registered is refused with 401. *)
Theorem register_then_login user db :
  (forall p, pwd_verify p (pwd_hash p) = true) ->
  (find_user (reg_email user) db = None ->
   fst (register user db) = Ok (lit "User registered successfully", reg_email user) /\
   forall now,
     login (reg_email user) (reg_password user) now (snd (register user db))
     = (Ok {| access_token :=
                create_access_token (reg_email user) (ACCESS_TOKEN_EXPIRE_MINUTES * 60) now;
              token_type := lit "bearer" |},
        snd (register user db))) /\
  (forall u, find_user (reg_email user) db = Some u ->
     register user db = (HTTPException 400 (lit "Email already registered"), db)) /\
  (forall username password now,
     find_user username db = None ->
     login username password now db
     = (HTTPException 401 (lit "Incorrect email or password"), db)).
Proof.
  intros Hround. split; [|split].
  - intros Hnew. unfold register. rewrite Hnew. cbn [fst snd]. split; [reflexivity|].
    intros now. unfold login, find_user. cbn [users].
    unfold find_user in Hnew. rewrite (find_app_none _ _ _ Hnew).
    cbn [find email]. rewrite str_eqb_refl. cbn [hashed_password email].
    unfold verify_password, get_password_hash.
    rewrite Hround. reflexivity.
  - intros u Hu. unfold register. rewrite Hu. reflexivity.
  - intros username password now Hnone. unfold login. rewrite Hnone. reflexivity.
Qed.

(** X26. After a password reset the new password opens the account.  In a
    well-formed database and with a hasher whose hashes verify, a call of
    [reset_password] with a token that is found and not expired is
    answered "Password reset successfully", and afterwards a login with the
    address of the token and the new password succeeds. *)
Theorem reset_then_login data now db t :
  (forall p, pwd_verify p (pwd_hash p) = true) ->
  well_formed db ->
  find_token (rp_token data) db = Some t ->
  (expires t <? now)%N = false ->
  fst (reset_password data now db) = Ok (lit "Password reset successfully") /\
  forall now',
    fst (login (token_email t) (rp_new_password data) now'
           (snd (reset_password data now db)))
    = Ok {| access_token :=
              create_access_token (token_email t) (ACCESS_TOKEN_EXPIRE_MINUTES * 60) now';
            token_type := lit "bearer" |}.
Proof.
  intros Hround Hwf Ht Hfresh.
  destruct (token_has_user _ Hwf Ht) as [u Hu].
  destruct (find_user_some _ _ Hu) as [_ Hmail].
  unfold reset_password. rewrite Ht, Hfresh, Hu. cbn [fst snd]. split; [reflexivity|].
  intros now'. unfold login.
  assert (Hfind : find_user (token_email t)
                    (delete_token t
                       (set_password u (get_password_hash (rp_new_password data)) db))
                  = Some {| email := email u; full_name := full_name u;
                            hashed_password := get_password_hash (rp_new_password data) |}).
  { rewrite <- Hmail in Hu |- *.
    exact (@find_user_set_password u (get_password_hash (rp_new_password data)) db Hu). }
  rewrite Hfind. cbn [hashed_password email].
  unfold verify_password, get_password_hash. rewrite Hround. cbn [negb fst].
  rewrite Hmail. reflexivity.
Qed.

End AuthFacts.

Module AuthExamples.

Import Routes Auth.

Lemma clear_text_round_trip p : @pwd_verify clear_text p (@pwd_hash clear_text p) = true.
Proof. apply str_eqb_eq. reflexivity. Qed.

Lemma pending_well_formed : well_formed pending.
Proof.
  repeat split; cbn.
  - constructor; [intros []|constructor].
  - constructor; [intros []|constructor].
  - constructor; [left; reflexivity|constructor].
Qed.

End AuthExamples.

(** A request made in time, at second 100, sets the password and never
    ends in an unhandled exception. *)
Lemma accounts_keep_well_formed_witness :
  Auth.well_formed
    (snd (@Auth.reset_password Routes.clear_text Auth.request 100 Auth.pending)) /\
  fst (@Auth.reset_password Routes.clear_text Auth.request 100 Auth.pending)
  <> Auth.Unhandled "AttributeError".
Proof.
  destruct (@accounts_keep_well_formed Routes.clear_text Auth.no_jose Auth.pending
              AuthExamples.pending_well_formed) as (_ & _ & _ & Hreset).
  destruct (Hreset Auth.request 100%N) as [Hwf Hnever].
  split; [exact Hwf|apply Hnever].
Defined.

(** The token of the example, used at second 100, is refused at second 200. *)
Lemma reset_token_single_use_witness :
  @Auth.reset_password Routes.clear_text Auth.request 200
    (snd (@Auth.reset_password Routes.clear_text Auth.request 100 Auth.pending))
  = (Auth.HTTPException 400 (lit "Invalid or expired reset token"),
     snd (@Auth.reset_password Routes.clear_text Auth.request 100 Auth.pending)).
Proof.
  destruct (@reset_token_single_use Routes.clear_text Auth.request 100 Auth.pending
              Auth.ticket AuthExamples.pending_well_formed eq_refl) as [Hlater _].
  apply Hlater. reflexivity.
Defined.

(** The newcomer registers and logs in at second 0: the token is for the
    address and expires at second 1800. *)
Lemma register_then_login_witness :
  fst (@Auth.login Routes.clear_text Auth.no_jose
         (lit "bob@example.org") (lit "correct horse") 0
         (snd (@Auth.register Routes.clear_text Auth.newcomer Auth.pending)))
  = Auth.Ok {| Auth.access_token := @Auth.jwt_encode Auth.no_jose (lit "bob@example.org") 1800;
               Auth.token_type := lit "bearer" |}.
Proof.
  destruct (@register_then_login Routes.clear_text Auth.no_jose Auth.newcomer Auth.pending
              AuthExamples.clear_text_round_trip) as ((_ & Hlogin) & _).
  - reflexivity.
  - exact (f_equal fst (Hlogin 0%N)).
Defined.

(** After the request of the example the second password opens the account. *)
Lemma reset_then_login_witness :
  fst (@Auth.login Routes.clear_text Auth.no_jose
         (lit "ann@example.org") (lit "second password") 200
         (snd (@Auth.reset_password Routes.clear_text Auth.request 100 Auth.pending)))
  = Auth.Ok {| Auth.access_token := @Auth.jwt_encode Auth.no_jose (lit "ann@example.org") 2000;
               Auth.token_type := lit "bearer" |}.
Proof.
  destruct (@reset_then_login Routes.clear_text Auth.no_jose Auth.request 100 Auth.pending
              Auth.ticket AuthExamples.clear_text_round_trip
              AuthExamples.pending_well_formed eq_refl eq_refl) as [_ Hlogin].
  exact (Hlogin 200%N).
Defined.
